(** * BinSumsBoosting: the histogram-accumulation kernel of the EBM trainer

    A shallow embedding of [shared/ebm_native/BinSumsBoosting.cpp].

    - C++ pointers into the flat input arrays are element offsets ([Z]);
      a dereference outside the array is undefined behaviour and is
      modelled by [None].
    - [size_t] values are [Z] with the wrap-around of a 64-bit word written
      out where the source adds to a stored counter.
    - [FloatFast] is a type parameter with its addition and multiplication:
      the kernel's control flow never inspects a floating-point value.
    - The [do ... while] loops and the template cascades take fuel; the
      theorems show that enough fuel yields the result.
    - The release configuration is modelled: [EBM_ASSERT] and the
      [#ifndef NDEBUG] blocks are compiled out. *)

From Stdlib Require Import ZArith Lia List Bool Floats.
From stdpp Require Import base list.

Open Scope Z_scope.

(** ** Arithmetic of [FloatFast] *)

Class FloatOps (F : Type) : Type := {
  fzero : F;
  fadd : F -> F -> F;
  fmul : F -> F -> F
}.

(** Laws of an exact arithmetic (rationals, integers, reals).  IEEE
    floating-point addition satisfies the second and third only. *)
Class ExactArith (F : Type) `{FloatOps F} : Prop := {
  fadd_assoc : forall a b c : F, fadd a (fadd b c) = fadd (fadd a b) c;
  fadd_comm : forall a b : F, fadd a b = fadd b a;
  fadd_zero_l : forall a : F, fadd fzero a = a
}.

#[export] Instance Z_FloatOps : FloatOps Z :=
  {| fzero := 0; fadd := Z.add; fmul := Z.mul |}.

#[export] Instance Z_ExactArith : ExactArith Z.
Proof. split; simpl; intros; lia. Qed.

(** ** Constants and helpers of [ebm_internal.hpp]

    The header is not part of the translated file; the kernel is
    parameterised by what it takes from it. *)

Class EbmInternal : Type := {
  k_cBitsForStorageType : Z;
  k_regression : Z;
  k_dynamicClassification : Z;
  k_cCompilerClassesMax : Z;
  k_cItemsPerBitPackDynamic : Z;
  k_cItemsPerBitPackMax : Z;
  k_bUseSIMD : bool;
  k_illegalTermIndex : Z;
  IsClassification : Z -> bool;
  GetCountScores : Z -> Z;
  GetCountBits : Z -> Z;
  GetNextCountItemsBitPacked : Z -> Z
}.

(** Modelled from the spec: the macro [GET_COUNT_CLASSES] is missing from
    the sources.  A fixed class-count specialization uses its compile-time
    class count, the dynamic one the run's class count (spec 4.3). *)
Definition GET_COUNT_CLASSES `{EbmInternal} (cCompilerClasses cRuntimeClasses : Z) : Z :=
  if cCompilerClasses =? k_dynamicClassification then cRuntimeClasses
  else cCompilerClasses.

(** Modelled from the spec: the macro [GET_ITEMS_PER_BIT_PACK] is missing
    from the sources.  A fixed pack-width specialization uses its
    compile-time width, the dynamic one the term's width (spec 4.3). *)
Definition GET_ITEMS_PER_BIT_PACK `{EbmInternal} (compilerBitPack runtimeBitPack : Z) : Z :=
  if compilerBitPack =? k_cItemsPerBitPackDynamic then runtimeBitPack
  else compilerBitPack.

(** ** Data model *)

Definition size_t_bits : Z := 64.

(** Unsigned [size_t] arithmetic wraps. *)
Definition size_t_wrap (z : Z) : Z := z mod 2 ^ size_t_bits.

Record GradientPair (F : Type) : Type := {
  m_sumGradients : F;
  m_sumHessians : F
}.
Arguments m_sumGradients {F} _.
Arguments m_sumHessians {F} _.

Record Bin (F : Type) : Type := {
  m_cSamples : Z;
  m_weight : F;
  m_aGradientPairs : list (GradientPair F)
}.
Arguments m_cSamples {F} _.
Arguments m_weight {F} _.
Arguments m_aGradientPairs {F} _.

Record InnerBag (F : Type) : Type := {
  m_aCountOccurrences : list Z;
  m_aWeights : list F;
  m_weightTotal : F
}.
Arguments m_aCountOccurrences {F} _.
Arguments m_aWeights {F} _.
Arguments m_weightTotal {F} _.

Record Term : Type := {
  m_cBitPack : Z;
  m_cRealDimensions : Z
}.

Record TrainingSet (F : Type) : Type := {
  m_cSamplesTotal : Z;
  m_aGradientsAndHessians : list F;
  m_aaInputData : list (list Z)
}.
Arguments m_cSamplesTotal {F} _.
Arguments m_aGradientsAndHessians {F} _.
Arguments m_aaInputData {F} _.

Record BoosterCore (F : Type) : Type := {
  m_cClasses : Z;
  m_apTerms : list Term;
  m_trainingSet : TrainingSet F
}.
Arguments m_cClasses {F} _.
Arguments m_apTerms {F} _.
Arguments m_trainingSet {F} _.

Record BoosterShell (F : Type) : Type := {
  m_pBoosterCore : BoosterCore F;
  m_aBoostingFastBinsTemp : list (Bin F)
}.
Arguments m_pBoosterCore {F} _.
Arguments m_aBoostingFastBinsTemp {F} _.

(** ** Reads and the kernel's local state *)

(** A dereference of one of the four input arrays, with the element offset. *)
Inductive Read : Type :=
| RdCountOccurrences (i : Z)
| RdWeight (i : Z)
| RdInputData (i : Z)
| RdGradientAndHessian (i : Z).

(** [*(p + i)]: undefined outside the array. *)
Definition deref {A : Type} (a : list A) (i : Z) : option A :=
  if i <? 0 then None else a !! Z.to_nat i.

(** The local variables of [Func] that persist across loop iterations, the
    bin buffer, and the history of input reads (a ghost variable). *)
Record Locals (F : Type) : Type := {
  aBins : list (Bin F);
  pCountOccurrences : Z;
  pWeight : Z;
  pInputData : Z;
  pGradientAndHessian : Z;
  reads : list Read
}.
Arguments aBins {F} _.
Arguments pCountOccurrences {F} _.
Arguments pWeight {F} _.
Arguments pInputData {F} _.
Arguments pGradientAndHessian {F} _.
Arguments reads {F} _.

Notation "'do' x <- m ; k" := (match m with Some x => k | None => None end)
  (at level 10, x pattern, m at level 100, k at level 200).

Section Kernel.
Context {F : Type} `{FloatOps F} `{EbmInternal}.

(** *** The per-score loop (lines 99-119 and 302-322) *)

(** One pass of the body: [pGradientPair[iScore]] is updated from the
    gradient at [pGH] and, for classification, the hessian at [pGH + 1]. *)
Definition score_body (bClassification : bool) (aGH : list F) (weight : F)
    (iScore pGH : Z) (aPairs : list (GradientPair F)) (rd : list Read)
    : option (list (GradientPair F) * list Read) :=
  do gradient <- deref aGH pGH;
  do gp <- deref aPairs iScore;
  let gp1 := {| m_sumGradients := fadd (m_sumGradients gp) (fmul gradient weight);
                m_sumHessians := m_sumHessians gp |} in
  let rd1 := rd ++ [RdGradientAndHessian pGH] in
  if bClassification then
    do hessian <- deref aGH (pGH + 1);
    let gp2 := {| m_sumGradients := m_sumGradients gp1;
                  m_sumHessians := fadd (m_sumHessians gp1) (fmul hessian weight) |} in
    Some (<[Z.to_nat iScore := gp2]> aPairs, rd1 ++ [RdGradientAndHessian (pGH + 1)])
  else
    Some (<[Z.to_nat iScore := gp1]> aPairs, rd1).

(** [do { ... ++iScore; } while(iScore < cScores);] *)
Fixpoint score_loop (fuel : nat) (bClassification : bool) (cScores : Z)
    (aGH : list F) (weight : F) (iScore pGH : Z)
    (aPairs : list (GradientPair F)) (rd : list Read)
    : option (list (GradientPair F) * Z * list Read) :=
  match fuel with
  | O => None
  | S fuel' =>
      do (aPairs1, rd1) <- score_body bClassification aGH weight iScore pGH aPairs rd;
      let pGH1 := pGH + (if bClassification then 2 else 1) in
      let iScore1 := iScore + 1 in
      if iScore1 <? cScores
      then score_loop fuel' bClassification cScores aGH weight iScore1 pGH1 aPairs1 rd1
      else Some (aPairs1, pGH1, rd1)
  end.

(** *** The per-sample body (lines 77-119 and 273-322)

    The two kernels share it: the zero-dimension kernel's [pBin] is the
    first bin of the buffer, the indexed kernel's is [aBins[iTensorBin]]. *)
Definition sample_body (fuel : nat) (bClassification : bool) (cScores : Z)
    (aCountOccurrences : list Z) (aWeights : list F) (aGH : list F) (iTensorBin : Z) (st : Locals F)
    : option (Locals F) :=
  do cOccurences <- deref aCountOccurrences (pCountOccurrences st);
  do weight <- deref aWeights (pWeight st);
  do pBin <- deref (aBins st) iTensorBin;
  let rd1 := reads st ++ [RdCountOccurrences (pCountOccurrences st); RdWeight (pWeight st)] in
  do (aPairs, pGH, rd2) <-
    score_loop fuel bClassification cScores aGH weight 0
      (pGradientAndHessian st) (m_aGradientPairs pBin) rd1;
  let pBin1 := {| m_cSamples := size_t_wrap (m_cSamples pBin + cOccurences);
                  m_weight := fadd (m_weight pBin) weight;
                  m_aGradientPairs := aPairs |} in
  Some {| aBins := <[Z.to_nat iTensorBin := pBin1]> (aBins st);
          pCountOccurrences := pCountOccurrences st + 1;
          pWeight := pWeight st + 1;
          pInputData := pInputData st;
          pGradientAndHessian := pGH;
          reads := rd2 |}.

(** The locals at function entry. *)
Definition entry (pBoosterShell : BoosterShell F) : Locals F :=
  {| aBins := m_aBoostingFastBinsTemp pBoosterShell;
     pCountOccurrences := 0;
     pWeight := 0;
     pInputData := 0;
     pGradientAndHessian := 0;
     reads := [] |}.

(** *** [BinSumsBoostingZeroDimensions<cCompilerClasses>::Func] *)

(** [do { ... } while(pGradientAndHessiansEnd != pGradientAndHessian);]
    (lines 64-127). *)
Fixpoint zero_loop (fuel fuelIn : nat) (bClassification : bool) (cScores : Z)
    (aCountOccurrences : list Z) (aWeights : list F) (aGH : list F) (pGradientAndHessiansEnd : Z)
    (st : Locals F) : option (Locals F) :=
  match fuel with
  | O => None
  | S fuel' =>
      do st1 <- sample_body fuelIn bClassification cScores aCountOccurrences aWeights aGH 0 st;
      if negb (pGradientAndHessiansEnd =? pGradientAndHessian st1)
      then zero_loop fuel' fuelIn bClassification cScores aCountOccurrences aWeights aGH
             pGradientAndHessiansEnd st1
      else Some st1
  end.

Definition BinSumsBoostingZeroDimensions (fuel : nat) (cCompilerClasses : Z)
    (pBoosterShell : BoosterShell F) (pInnerBag : InnerBag F)
    : option (Locals F) :=
  let bClassification := IsClassification cCompilerClasses in
  let pBoosterCore := m_pBoosterCore pBoosterShell in
  let cRuntimeClasses := m_cClasses pBoosterCore in
  let cClasses := GET_COUNT_CLASSES cCompilerClasses cRuntimeClasses in
  let cScores := GetCountScores cClasses in
  let cSamples := m_cSamplesTotal (m_trainingSet pBoosterCore) in
  let aCountOccurrences := m_aCountOccurrences pInnerBag in
  let aWeights := m_aWeights pInnerBag in
  let aGH := m_aGradientsAndHessians (m_trainingSet pBoosterCore) in
  let pGradientAndHessiansEnd :=
    (if bClassification then 2 else 1) * cScores * cSamples in
  zero_loop fuel fuel bClassification cScores aCountOccurrences aWeights aGH
    pGradientAndHessiansEnd (entry pBoosterShell).

(** *** [BinSumsBoostingInternal<cCompilerClasses, compilerBitPack>::Func] *)

(** The extraction loop over the fields of one packed word
    (lines 271-334): [do { ... --cItemsRemaining; } while(0 != cItemsRemaining);] *)
Fixpoint item_loop (fuel fuelIn : nat) (bClassification : bool) (cScores : Z)
    (aCountOccurrences : list Z) (aWeights : list F) (aGH : list F) (maskBits cBitsPerItemMax : Z)
    (cItemsRemaining iTensorBinCombined : Z) (st : Locals F)
    : option (Locals F) :=
  match fuel with
  | O => None
  | S fuel' =>
      let iTensorBin := Z.land maskBits iTensorBinCombined in
      do st1 <- sample_body fuelIn bClassification cScores aCountOccurrences aWeights aGH iTensorBin st;
      let iTensorBinCombined1 := Z.shiftr iTensorBinCombined cBitsPerItemMax in
      let cItemsRemaining1 := size_t_wrap (cItemsRemaining - 1) in
      if negb (0 =? cItemsRemaining1)
      then item_loop fuel' fuelIn bClassification cScores aCountOccurrences aWeights aGH
             maskBits cBitsPerItemMax cItemsRemaining1 iTensorBinCombined1 st1
      else Some st1
  end.

(** From the label [one_last_loop] to the end of the extraction loop
    (lines 267-334): fetch one packed word, then decode
    [cItemsRemaining] fields from it. *)
Definition word_pass (fuel : nat) (bClassification : bool) (cScores : Z)
    (aCountOccurrences : list Z) (aWeights : list F) (aGH : list F) (aInputData : list Z)
    (maskBits cBitsPerItemMax cItemsRemaining : Z) (st : Locals F)
    : option (Locals F) :=
  do iTensorBinCombined <- deref aInputData (pInputData st);
  let st1 := {| aBins := aBins st;
                pCountOccurrences := pCountOccurrences st;
                pWeight := pWeight st;
                pInputData := pInputData st + 1;
                pGradientAndHessian := pGradientAndHessian st;
                reads := reads st ++ [RdInputData (pInputData st)] |} in
  item_loop fuel fuel bClassification cScores aCountOccurrences aWeights aGH maskBits
    cBitsPerItemMax cItemsRemaining iTensorBinCombined st1.

(** The outer loop with its two [goto one_last_loop] (lines 252-349),
    entered at the label with the current [pGradientAndHessiansExit] and
    [cItemsRemaining].  After a word: back to the head of the loop
    ([cItemsRemaining = cItemsPerBitPack]) while the exit pointer is not
    reached; then one more pass for the tail if the true end is not
    reached; else return.  The quotient of line 342 has non-negative
    operands on every call within the contract, where [/] on [Z] is the
    division of C++. *)
Fixpoint pack_loop (fuel fuelIn : nat) (bClassification : bool) (cScores : Z)
    (aCountOccurrences : list Z) (aWeights : list F) (aGH : list F) (aInputData : list Z)
    (maskBits cBitsPerItemMax cItemsPerBitPack pGradientAndHessiansTrueEnd : Z)
    (pGradientAndHessiansExit cItemsRemaining : Z) (st : Locals F)
    : option (Locals F) :=
  match fuel with
  | O => None
  | S fuel' =>
      do st1 <- word_pass fuelIn bClassification cScores aCountOccurrences aWeights aGH aInputData
                  maskBits cBitsPerItemMax cItemsRemaining st;
      if negb (pGradientAndHessiansExit =? pGradientAndHessian st1)
      then pack_loop fuel' fuelIn bClassification cScores aCountOccurrences aWeights aGH aInputData
             maskBits cBitsPerItemMax cItemsPerBitPack pGradientAndHessiansTrueEnd
             pGradientAndHessiansExit cItemsPerBitPack st1
      else if negb (pGradientAndHessiansTrueEnd =? pGradientAndHessian st1)
      then pack_loop fuel' fuelIn bClassification cScores aCountOccurrences aWeights aGH aInputData
             maskBits cBitsPerItemMax cItemsPerBitPack pGradientAndHessiansTrueEnd
             pGradientAndHessiansTrueEnd
             ((pGradientAndHessiansTrueEnd - pGradientAndHessian st1)
                / (cScores * (if bClassification then 2 else 1)))
             st1
      else Some st1
  end.

(** [(~StorageDataType { 0 }) >> (k_cBitsForStorageType - cBitsPerItemMax)] *)
Definition maskBitsOf (cBitsPerItemMax : Z) : Z :=
  Z.shiftr (Z.ones k_cBitsForStorageType) (k_cBitsForStorageType - cBitsPerItemMax).

Definition BinSumsBoostingInternal (fuel : nat) (cCompilerClasses compilerBitPack : Z)
    (pBoosterShell : BoosterShell F) (iTerm : Z) (pInnerBag : InnerBag F)
    : option (Locals F) :=
  let bClassification := IsClassification cCompilerClasses in
  let pBoosterCore := m_pBoosterCore pBoosterShell in
  let cRuntimeClasses := m_cClasses pBoosterCore in
  let cClasses := GET_COUNT_CLASSES cCompilerClasses cRuntimeClasses in
  let cScores := GetCountScores cClasses in
  do pTerm <- deref (m_apTerms pBoosterCore) iTerm;
  let cItemsPerBitPack := GET_ITEMS_PER_BIT_PACK compilerBitPack (m_cBitPack pTerm) in
  let cBitsPerItemMax := GetCountBits cItemsPerBitPack in
  let maskBits := maskBitsOf cBitsPerItemMax in
  let cSamples := m_cSamplesTotal (m_trainingSet pBoosterCore) in
  let aCountOccurrences := m_aCountOccurrences pInnerBag in
  let aWeights := m_aWeights pInnerBag in
  do aInputData <- deref (m_aaInputData (m_trainingSet pBoosterCore)) iTerm;
  let aGH := m_aGradientsAndHessians (m_trainingSet pBoosterCore) in
  let pGradientAndHessiansTrueEnd :=
    (if bClassification then 2 else 1) * cScores * cSamples in
  if cSamples <=? cItemsPerBitPack then
    pack_loop fuel fuel bClassification cScores aCountOccurrences aWeights aGH aInputData
      maskBits cBitsPerItemMax cItemsPerBitPack pGradientAndHessiansTrueEnd
      pGradientAndHessiansTrueEnd cSamples (entry pBoosterShell)
  else
    let pGradientAndHessiansExit :=
      pGradientAndHessiansTrueEnd
      - (if bClassification then 2 else 1) * cScores
        * ((cSamples - 1) mod cItemsPerBitPack + 1) in
    pack_loop fuel fuel bClassification cScores aCountOccurrences aWeights aGH aInputData
      maskBits cBitsPerItemMax cItemsPerBitPack pGradientAndHessiansTrueEnd
      pGradientAndHessiansExit cItemsPerBitPack (entry pBoosterShell).

(** *** The specialization cascades

    A template recursion is a chain of instantiations fixed at compile
    time; [depth] bounds its length. *)

(** [BinSumsBoostingZeroDimensionsTarget<cPossibleClasses>], with its
    specialization at [k_cCompilerClassesMax + 1]. *)
Fixpoint BinSumsBoostingZeroDimensionsTarget (depth fuel : nat) (cPossibleClasses : Z)
    (pBoosterShell : BoosterShell F) (pInnerBag : InnerBag F)
    : option (Locals F) :=
  match depth with
  | O => None
  | S depth' =>
      let cRuntimeClasses := m_cClasses (m_pBoosterCore pBoosterShell) in
      if cPossibleClasses =? k_cCompilerClassesMax + 1 then
        BinSumsBoostingZeroDimensions fuel k_dynamicClassification pBoosterShell pInnerBag
      else if cPossibleClasses =? cRuntimeClasses then
        BinSumsBoostingZeroDimensions fuel cPossibleClasses pBoosterShell pInnerBag
      else
        BinSumsBoostingZeroDimensionsTarget depth' fuel (cPossibleClasses + 1)
          pBoosterShell pInnerBag
  end.

(** [BinSumsBoostingNormalTarget<cPossibleClasses>]. *)
Fixpoint BinSumsBoostingNormalTarget (depth fuel : nat) (cPossibleClasses : Z)
    (pBoosterShell : BoosterShell F) (iTerm : Z) (pInnerBag : InnerBag F)
    : option (Locals F) :=
  match depth with
  | O => None
  | S depth' =>
      let cRuntimeClasses := m_cClasses (m_pBoosterCore pBoosterShell) in
      if cPossibleClasses =? k_cCompilerClassesMax + 1 then
        BinSumsBoostingInternal fuel k_dynamicClassification k_cItemsPerBitPackDynamic
          pBoosterShell iTerm pInnerBag
      else if cPossibleClasses =? cRuntimeClasses then
        BinSumsBoostingInternal fuel cPossibleClasses k_cItemsPerBitPackDynamic
          pBoosterShell iTerm pInnerBag
      else
        BinSumsBoostingNormalTarget depth' fuel (cPossibleClasses + 1)
          pBoosterShell iTerm pInnerBag
  end.

(** [BinSumsBoostingSIMDPacking<cCompilerClasses, compilerBitPack>], with
    its specialization at [k_cItemsPerBitPackDynamic]. *)
Fixpoint BinSumsBoostingSIMDPacking (depth fuel : nat) (cCompilerClasses compilerBitPack : Z)
    (pBoosterShell : BoosterShell F) (iTerm : Z) (pInnerBag : InnerBag F)
    : option (Locals F) :=
  match depth with
  | O => None
  | S depth' =>
      if compilerBitPack =? k_cItemsPerBitPackDynamic then
        BinSumsBoostingInternal fuel cCompilerClasses k_cItemsPerBitPackDynamic
          pBoosterShell iTerm pInnerBag
      else
        do pTerm <- deref (m_apTerms (m_pBoosterCore pBoosterShell)) iTerm;
        let runtimeBitPack := m_cBitPack pTerm in
        if compilerBitPack =? runtimeBitPack then
          BinSumsBoostingInternal fuel cCompilerClasses compilerBitPack
            pBoosterShell iTerm pInnerBag
        else
          BinSumsBoostingSIMDPacking depth' fuel cCompilerClasses
            (GetNextCountItemsBitPacked compilerBitPack) pBoosterShell iTerm pInnerBag
  end.

(** [BinSumsBoostingSIMDTarget<cPossibleClasses>]. *)
Fixpoint BinSumsBoostingSIMDTarget (depth fuel : nat) (cPossibleClasses : Z)
    (pBoosterShell : BoosterShell F) (iTerm : Z) (pInnerBag : InnerBag F)
    : option (Locals F) :=
  match depth with
  | O => None
  | S depth' =>
      let cRuntimeClasses := m_cClasses (m_pBoosterCore pBoosterShell) in
      if cPossibleClasses =? k_cCompilerClassesMax + 1 then
        BinSumsBoostingSIMDPacking fuel fuel k_dynamicClassification k_cItemsPerBitPackMax
          pBoosterShell iTerm pInnerBag
      else if cPossibleClasses =? cRuntimeClasses then
        BinSumsBoostingSIMDPacking fuel fuel cPossibleClasses k_cItemsPerBitPackMax
          pBoosterShell iTerm pInnerBag
      else
        BinSumsBoostingSIMDTarget depth' fuel (cPossibleClasses + 1)
          pBoosterShell iTerm pInnerBag
  end.

(** *** The entry point [BinSumsBoosting] (lines 541-619) *)

Definition BinSumsBoosting (fuel : nat) (pBoosterShell : BoosterShell F)
    (iTerm : Z) (pInnerBag : InnerBag F) : option (Locals F) :=
  let cRuntimeClasses := m_cClasses (m_pBoosterCore pBoosterShell) in
  if k_illegalTermIndex =? iTerm then
    if IsClassification cRuntimeClasses then
      BinSumsBoostingZeroDimensionsTarget fuel fuel 2 pBoosterShell pInnerBag
    else
      BinSumsBoostingZeroDimensions fuel k_regression pBoosterShell pInnerBag
  else
    if k_bUseSIMD then
      if IsClassification cRuntimeClasses then
        BinSumsBoostingSIMDTarget fuel fuel 2 pBoosterShell iTerm pInnerBag
      else
        BinSumsBoostingSIMDPacking fuel fuel k_regression k_cItemsPerBitPackMax
          pBoosterShell iTerm pInnerBag
    else
      if IsClassification cRuntimeClasses then
        BinSumsBoostingNormalTarget fuel fuel 2 pBoosterShell iTerm pInnerBag
      else
        BinSumsBoostingInternal fuel k_regression k_cItemsPerBitPackDynamic
          pBoosterShell iTerm pInnerBag.

End Kernel.

(** ** A concrete header

    An instance of the header, to run the kernel on concrete inputs.  Its
    values are not read from the translated file: a 64-bit storage word,
    eight enumerated class counts, -1 for a regression and 0 for the dynamic
    class count and pack width, one score for a regression and for two
    classes, [64 / cItemsBitPacked] bits per item, and the enumeration of
    pack widths 64, 32, 21, 16, 12, 10, 9, 8, 7, ..., 1 named in the comments
    of lines 570-578. *)

#[export] Instance header64 : EbmInternal := {|
  k_cBitsForStorageType := 64;
  k_regression := -1;
  k_dynamicClassification := 0;
  k_cCompilerClassesMax := 8;
  k_cItemsPerBitPackDynamic := 0;
  k_cItemsPerBitPackMax := 64;
  k_bUseSIMD := false;
  k_illegalTermIndex := 2 ^ 64 - 1;
  IsClassification := fun cClasses => 0 <=? cClasses;
  GetCountScores := fun cClasses => if cClasses <=? 2 then 1 else cClasses;
  GetCountBits := fun cItemsBitPacked => 64 / cItemsBitPacked;
  GetNextCountItemsBitPacked := fun cItemsBitPackedPrev =>
    if cItemsBitPackedPrev =? 1 then 0 else 64 / (64 / cItemsBitPackedPrev + 1)
|}.

(** The same header with the vector-instruction flag set. *)
Definition header64_simd : EbmInternal := {|
  k_cBitsForStorageType := 64;
  k_regression := -1;
  k_dynamicClassification := 0;
  k_cCompilerClassesMax := 8;
  k_cItemsPerBitPackDynamic := 0;
  k_cItemsPerBitPackMax := 64;
  k_bUseSIMD := true;
  k_illegalTermIndex := 2 ^ 64 - 1;
  IsClassification := fun cClasses => 0 <=? cClasses;
  GetCountScores := fun cClasses => if cClasses <=? 2 then 1 else cClasses;
  GetCountBits := fun cItemsBitPacked => 64 / cItemsBitPacked;
  GetNextCountItemsBitPacked := fun cItemsBitPackedPrev =>
    if cItemsBitPackedPrev =? 1 then 0 else 64 / (64 / cItemsBitPackedPrev + 1)
|}.

(** The scenario of the specification: 5 samples, 4 items per word, bin
    indices 0,1,3,1,2, unit weights, regression.  Gradients are scaled by
    100 to integers. *)
Definition scenario_shell : BoosterShell Z := {|
  m_pBoosterCore := {|
    m_cClasses := -1;
    m_apTerms := [ {| m_cBitPack := 4; m_cRealDimensions := 1 |} ];
    m_trainingSet := {|
      m_cSamplesTotal := 5;
      m_aGradientsAndHessians := [10; -20; 30; -10; 5];
      m_aaInputData := [ [ 0 + 1 * 2^16 + 3 * 2^32 + 1 * 2^48; 2 ] ]
    |}
  |};
  m_aBoostingFastBinsTemp :=
    replicate 4 {| m_cSamples := 0; m_weight := 0;
                   m_aGradientPairs := [ {| m_sumGradients := 0; m_sumHessians := 0 |} ] |}
|}.

Definition scenario_bag : InnerBag Z := {|
  m_aCountOccurrences := [1; 1; 1; 1; 1];
  m_aWeights := [1; 1; 1; 1; 1];
  m_weightTotal := 5
|}.

Definition bin_summary (b : Bin Z) : Z * Z * list Z :=
  (m_cSamples b, m_weight b, map m_sumGradients (m_aGradientPairs b)).

(** ** What the loops compute

    Total functions that describe the effect of the loops on a call that
    respects the contract; the run lemmas below show that the kernel
    computes them. *)

(** [a[i]], with a default outside the array. *)
Definition at0 {A : Type} (d : A) (a : list A) (i : Z) : A :=
  default d (deref a i).

Section Effect.
Context {F : Type} `{FloatOps F}.
Variable bClassification : bool.
Variable cScores : Z.
Variable aCountOccurrences : list Z.
Variable aWeights : list F.
Variable aGH : list F.

(** [(bClassification ? 2 : 1)] *)
Definition cPerScore : Z := if bClassification then 2 else 1.

(** The array position of the gradient of sample [i], score [s]; for
    classification the hessian follows it. *)
Definition gradient_position (i s : Z) : Z := cPerScore * (cScores * i + s).

Definition pair_effect (weight : F) (pGH : Z) (gp : GradientPair F) : GradientPair F :=
  {| m_sumGradients := fadd (m_sumGradients gp) (fmul (at0 fzero aGH pGH) weight);
     m_sumHessians :=
       if bClassification
       then fadd (m_sumHessians gp) (fmul (at0 fzero aGH (pGH + 1)) weight)
       else m_sumHessians gp |}.

Fixpoint scores_effect (k iScore : nat) (weight : F) (pGH : Z)
    (aPairs : list (GradientPair F)) : list (GradientPair F) :=
  match k with
  | O => aPairs
  | S k' =>
      scores_effect k' (S iScore) weight (pGH + cPerScore)
        (alter (pair_effect weight pGH) iScore aPairs)
  end.

Fixpoint score_reads (k : nat) (pGH : Z) : list Read :=
  match k with
  | O => []
  | S k' =>
      (RdGradientAndHessian pGH
         :: (if bClassification then [RdGradientAndHessian (pGH + 1)] else []))
      ++ score_reads k' (pGH + cPerScore)
  end.

(** The effect of sample [i] on the bin it falls into. *)
Definition bin_effect (i : Z) (b : Bin F) : Bin F :=
  let weight := at0 fzero aWeights i in
  {| m_cSamples := size_t_wrap (m_cSamples b + at0 0 aCountOccurrences i);
     m_weight := fadd (m_weight b) weight;
     m_aGradientPairs :=
       scores_effect (Z.to_nat cScores) 0 weight (gradient_position i 0)
         (m_aGradientPairs b) |}.

Definition sample_reads (i : Z) : list Read :=
  [RdCountOccurrences i; RdWeight i]
  ++ score_reads (Z.to_nat cScores) (gradient_position i 0).

(** The bins after the samples [i, i+1, ...] were added to the bins
    with the indices [idxs]. *)
Fixpoint bins_effect (i : Z) (idxs : list Z) (bins : list (Bin F)) : list (Bin F) :=
  match idxs with
  | [] => bins
  | idx :: idxs' =>
      bins_effect (i + 1) idxs' (alter (bin_effect i) (Z.to_nat idx) bins)
  end.

Fixpoint samples_reads (i : Z) (k : nat) : list Read :=
  match k with
  | O => []
  | S k' => sample_reads i ++ samples_reads (i + 1) k'
  end.

(** The locals after the samples from [pCountOccurrences st] on were
    added to the bins [idxs]. *)
Definition after_samples (idxs : list Z) (st : Locals F) : Locals F :=
  let k := Z.of_nat (length idxs) in
  {| aBins := bins_effect (pCountOccurrences st) idxs (aBins st);
     pCountOccurrences := pCountOccurrences st + k;
     pWeight := pWeight st + k;
     pInputData := pInputData st;
     pGradientAndHessian := pGradientAndHessian st + cPerScore * cScores * k;
     reads := reads st ++ samples_reads (pCountOccurrences st) (length idxs) |}.

(** The locals after the fetch of a packed word. *)
Definition after_fetch (st : Locals F) : Locals F :=
  {| aBins := aBins st;
     pCountOccurrences := pCountOccurrences st;
     pWeight := pWeight st;
     pInputData := pInputData st + 1;
     pGradientAndHessian := pGradientAndHessian st;
     reads := reads st ++ [RdInputData (pInputData st)] |}.

(** *** Decoding *)

(** The first [c] fields of a packed word, lowest first. *)
Fixpoint decode_word (maskBits cBitsPerItemMax : Z) (c : nat) (w : Z) : list Z :=
  match c with
  | O => []
  | S c' =>
      Z.land maskBits w
        :: decode_word maskBits cBitsPerItemMax c' (Z.shiftr w cBitsPerItemMax)
  end.

(** The bin indices of [m] full words from word [k] on, then of a last
    word with [r] items. *)
Fixpoint decode_stream (maskBits cBitsPerItemMax : Z) (aInputData : list Z)
    (q r : nat) (m : nat) (k : Z) : list Z :=
  match m with
  | O => decode_word maskBits cBitsPerItemMax r (at0 0 aInputData k)
  | S m' =>
      decode_word maskBits cBitsPerItemMax q (at0 0 aInputData k)
      ++ decode_stream maskBits cBitsPerItemMax aInputData q r m' (k + 1)
  end.

Fixpoint stream_reads (q r : nat) (m : nat) (k i : Z) : list Read :=
  match m with
  | O => RdInputData k :: samples_reads i r
  | S m' =>
      (RdInputData k :: samples_reads i q)
      ++ stream_reads q r m' (k + 1) (i + Z.of_nat q)
  end.

(** The locals after [m] full words and a last word with [r] items. *)
Fixpoint after_stream (maskBits cBitsPerItemMax : Z) (aInputData : list Z)
    (q r : nat) (m : nat) (st : Locals F) : Locals F :=
  match m with
  | O =>
      after_samples
        (decode_word maskBits cBitsPerItemMax r (at0 0 aInputData (pInputData st)))
        (after_fetch st)
  | S m' =>
      after_stream maskBits cBitsPerItemMax aInputData q r m'
        (after_samples
           (decode_word maskBits cBitsPerItemMax q (at0 0 aInputData (pInputData st)))
           (after_fetch st))
  end.

(** Bin indices inside a buffer of [cBins] bins. *)
Definition valid_indices (cBins : nat) (idxs : list Z) : Prop :=
  Forall (fun idx => 0 <= idx < Z.of_nat cBins) idxs.

(** *** Invariant of the sample loops *)

(** Every bin has a gradient pair for each score. *)
Definition pairs_ok (bins : list (Bin F)) : Prop :=
  Forall (fun b => cScores <= Z.of_nat (length (m_aGradientPairs b))) bins.

(** The locals when sample [i] is next. *)
Definition at_sample (i : Z) (st : Locals F) : Prop :=
  pCountOccurrences st = i /\ pWeight st = i
  /\ pGradientAndHessian st = cPerScore * cScores * i
  /\ pairs_ok (aBins st).

End Effect.

(** ** The calls *)

(** Number of full packed words before the last one, and number of items
    of the last one, for [cSamples] samples packed [cItemsPerBitPack] a
    word. *)
Definition full_words (cSamples cItemsPerBitPack : Z) : Z :=
  (cSamples - 1) / cItemsPerBitPack.

Definition tail_items (cSamples cItemsPerBitPack : Z) : Z :=
  (cSamples - 1) mod cItemsPerBitPack + 1.

Section Calls.
Context {F : Type} `{FloatOps F} `{EbmInternal}.

Variable cCompilerClasses : Z.
Variable pBoosterShell : BoosterShell F.
Variable pInnerBag : InnerBag F.

Definition call_classification : bool := IsClassification cCompilerClasses.

Definition call_scores : Z :=
  GetCountScores
    (GET_COUNT_CLASSES cCompilerClasses (m_cClasses (m_pBoosterCore pBoosterShell))).

Definition call_samples : Z :=
  m_cSamplesTotal (m_trainingSet (m_pBoosterCore pBoosterShell)).

Definition call_gradients : list F :=
  m_aGradientsAndHessians (m_trainingSet (m_pBoosterCore pBoosterShell)).

(** The contract of both kernels on the training set, the inner bag and
    the bin buffer. *)
Record call_ok : Prop := {
  ok_samples : 0 < call_samples < 2 ^ size_t_bits;
  ok_scores : 1 <= call_scores;
  ok_occurrences :
    Z.of_nat (length (m_aCountOccurrences pInnerBag)) = call_samples;
  ok_occurrence_range :
    Forall (fun c => 0 <= c < 2 ^ size_t_bits) (m_aCountOccurrences pInnerBag);
  ok_weights : Z.of_nat (length (m_aWeights pInnerBag)) = call_samples;
  ok_gradients :
    Z.of_nat (length call_gradients)
    = cPerScore call_classification * call_scores * call_samples;
  ok_bins : (0 < length (m_aBoostingFastBinsTemp pBoosterShell))%nat;
  ok_pairs :
    Forall (fun b => Z.of_nat (length (m_aGradientPairs b)) = call_scores)
      (m_aBoostingFastBinsTemp pBoosterShell)
}.

(** The locals when the zero-dimension kernel returns. *)
Definition zero_result : Locals F :=
  after_samples call_classification call_scores (m_aCountOccurrences pInnerBag) (m_aWeights pInnerBag)
    call_gradients
    (replicate (Z.to_nat call_samples) 0) (entry pBoosterShell).

(** *** The indexed kernel *)

Variable compilerBitPack : Z.
Variable iTerm : Z.

Definition call_term : Term :=
  at0 {| m_cBitPack := 0; m_cRealDimensions := 0 |}
    (m_apTerms (m_pBoosterCore pBoosterShell)) iTerm.

Definition call_items : Z :=
  GET_ITEMS_PER_BIT_PACK compilerBitPack (m_cBitPack call_term).

Definition call_bits : Z := GetCountBits call_items.

Definition call_words : list Z :=
  at0 [] (m_aaInputData (m_trainingSet (m_pBoosterCore pBoosterShell))) iTerm.

(** The bin index of every sample, in sample order. *)
Definition call_indices : list Z :=
  decode_stream (maskBitsOf call_bits) call_bits call_words
    (Z.to_nat call_items) (Z.to_nat (tail_items call_samples call_items))
    (Z.to_nat (full_words call_samples call_items)) 0.

(** The contract of the indexed kernel on the term and its packed
    words. *)
Record indexed_ok : Prop := {
  ok_call : call_ok;
  ok_term : 0 <= iTerm < Z.of_nat (length (m_apTerms (m_pBoosterCore pBoosterShell)));
  ok_input :
    0 <= iTerm
    < Z.of_nat (length (m_aaInputData (m_trainingSet (m_pBoosterCore pBoosterShell))));
  ok_items : 1 <= call_items <= k_cBitsForStorageType;
  ok_bits : 1 <= call_bits <= k_cBitsForStorageType;
  ok_words :
    Z.of_nat (length call_words) = full_words call_samples call_items + 1;
  ok_indices :
    valid_indices (length (m_aBoostingFastBinsTemp pBoosterShell)) call_indices
}.

(** The locals when the indexed kernel returns. *)
Definition indexed_result : Locals F :=
  after_stream call_classification call_scores (m_aCountOccurrences pInnerBag) (m_aWeights pInnerBag)
    call_gradients
    (maskBitsOf call_bits) call_bits call_words
    (Z.to_nat call_items) (Z.to_nat (tail_items call_samples call_items))
    (Z.to_nat (full_words call_samples call_items)) (entry pBoosterShell).

End Calls.

Arguments ok_samples {F _ cCompilerClasses pBoosterShell pInnerBag} _.
Arguments ok_scores {F _ cCompilerClasses pBoosterShell pInnerBag} _.
Arguments ok_occurrences {F _ cCompilerClasses pBoosterShell pInnerBag} _.
Arguments ok_occurrence_range {F _ cCompilerClasses pBoosterShell pInnerBag} _.
Arguments ok_weights {F _ cCompilerClasses pBoosterShell pInnerBag} _.
Arguments ok_gradients {F _ cCompilerClasses pBoosterShell pInnerBag} _.
Arguments ok_bins {F _ cCompilerClasses pBoosterShell pInnerBag} _.
Arguments ok_pairs {F _ cCompilerClasses pBoosterShell pInnerBag} _.
Arguments ok_call {F _ cCompilerClasses pBoosterShell pInnerBag compilerBitPack iTerm} _.
Arguments ok_term {F _ cCompilerClasses pBoosterShell pInnerBag compilerBitPack iTerm} _.
Arguments ok_input {F _ cCompilerClasses pBoosterShell pInnerBag compilerBitPack iTerm} _.
Arguments ok_items {F _ cCompilerClasses pBoosterShell pInnerBag compilerBitPack iTerm} _.
Arguments ok_bits {F _ cCompilerClasses pBoosterShell pInnerBag compilerBitPack iTerm} _.
Arguments ok_words {F _ cCompilerClasses pBoosterShell pInnerBag compilerBitPack iTerm} _.
Arguments ok_indices {F _ cCompilerClasses pBoosterShell pInnerBag compilerBitPack iTerm} _.

(** ** Reading the history of input reads *)

(** Number of samples processed: each pass of the per-sample body reads
    one occurrence count. *)
Fixpoint samples_processed (rd : list Read) : nat :=
  match rd with
  | [] => 0
  | RdCountOccurrences _ :: rd' => S (samples_processed rd')
  | _ :: rd' => samples_processed rd'
  end.

(** Number of samples processed before the next fetch of a packed word. *)
Fixpoint decoded_until_fetch (rd : list Read) : nat :=
  match rd with
  | [] => 0
  | RdInputData _ :: _ => 0
  | RdCountOccurrences _ :: rd' => S (decoded_until_fetch rd')
  | _ :: rd' => decoded_until_fetch rd'
  end.

(** For each fetched word, in order, the number of samples decoded from it. *)
Fixpoint decoded_per_word (rd : list Read) : list nat :=
  match rd with
  | [] => []
  | RdInputData _ :: rd' => decoded_until_fetch rd' :: decoded_per_word rd'
  | _ :: rd' => decoded_per_word rd'
  end.

(** The offsets read in the gradient and hessian array, in order. *)
Fixpoint gradient_offsets (rd : list Read) : list Z :=
  match rd with
  | [] => []
  | RdGradientAndHessian p :: rd' => p :: gradient_offsets rd'
  | _ :: rd' => gradient_offsets rd'
  end.

(** [k] consecutive offsets from [p]. *)
Fixpoint consecutive (p : Z) (k : nat) : list Z :=
  match k with
  | O => []
  | S k' => p :: consecutive (p + 1) k'
  end.

(** A read inside its array. *)
Definition read_in_bounds (cOccurrences cWeights cWords cGradients : nat) (r : Read)
    : Prop :=
  match r with
  | RdCountOccurrences i => 0 <= i < Z.of_nat cOccurrences
  | RdWeight i => 0 <= i < Z.of_nat cWeights
  | RdInputData i => 0 <= i < Z.of_nat cWords
  | RdGradientAndHessian i => 0 <= i < Z.of_nat cGradients
  end.

(** ** Observations on the bin buffer *)

(** The hessian sums of every gradient pair of every bin. *)
Definition buffer_hessians {F : Type} (bins : list (Bin F)) : list (list F) :=
  map (fun b => map m_sumHessians (m_aGradientPairs b)) bins.

(** The number of gradient pairs of every bin. *)
Definition buffer_shape {F : Type} (bins : list (Bin F)) : list nat :=
  map (fun b => length (m_aGradientPairs b)) bins.

(** ** Concrete calls *)

(** Three classes, two samples in bin 1 of a two-bin buffer, two items
    per word. *)
Definition scenario3_shell : BoosterShell Z := {|
  m_pBoosterCore := {|
    m_cClasses := 3;
    m_apTerms := [ {| m_cBitPack := 2; m_cRealDimensions := 1 |} ];
    m_trainingSet := {|
      m_cSamplesTotal := 2;
      m_aGradientsAndHessians := [1; 10; 2; 20; 3; 30; 4; 40; 5; 50; 6; 60];
      m_aaInputData := [ [ 1 + 1 * 2^32 ] ]
    |}
  |};
  m_aBoostingFastBinsTemp :=
    replicate 2 {| m_cSamples := 0; m_weight := 0;
                   m_aGradientPairs :=
                     replicate 3 {| m_sumGradients := 0; m_sumHessians := 0 |} |}
|}.

Definition scenario3_bag : InnerBag Z := {|
  m_aCountOccurrences := [1; 2];
  m_aWeights := [2; 3];
  m_weightTotal := 5
|}.

(** ** Sums over the bins and over the samples *)

Definition sum_Z (l : list Z) : Z := fold_right Z.add 0 l.

(** Sum of [countSamples] over the bins, as an integer. *)
Definition sum_counts {F : Type} (bins : list (Bin F)) : Z :=
  sum_Z (map m_cSamples bins).

Definition fsum {F : Type} `{FloatOps F} (l : list F) : F :=
  fold_right fadd fzero l.

(** Sum of [weight] over the bins. *)
Definition sum_weights {F : Type} `{FloatOps F} (bins : list (Bin F)) : F :=
  fsum (map m_weight bins).

(** [bin.gradientPairs[s]] *)
Definition pair_at {F : Type} `{FloatOps F} (s : Z) (b : Bin F) : GradientPair F :=
  at0 {| m_sumGradients := fzero; m_sumHessians := fzero |} (m_aGradientPairs b) s.

(** Sum of [gradientPairs[s].sumGradients] over the bins. *)
Definition sum_gradients {F : Type} `{FloatOps F} (s : Z) (bins : list (Bin F)) : F :=
  fsum (map (fun b => m_sumGradients (pair_at s b)) bins).

(** Sum of [gradientPairs[s].sumHessians] over the bins. *)
Definition sum_hessians {F : Type} `{FloatOps F} (s : Z) (bins : list (Bin F)) : F :=
  fsum (map (fun b => m_sumHessians (pair_at s b)) bins).

(** [f i + f (i+1) + ...], [k] terms. *)
Fixpoint sum_samples {F : Type} `{FloatOps F} (f : Z -> F) (i : Z) (k : nat) : F :=
  match k with
  | O => fzero
  | S k' => fadd (f i) (sum_samples f (i + 1) k')
  end.

(** The gradient of sample [i] and score [s], read at its interleaved
    position, times the weight of the sample. *)
Definition weighted_gradient {F : Type} `{FloatOps F} (bClassification : bool)
    (cScores : Z) (aWeights aGH : list F) (s i : Z) : F :=
  fmul (at0 fzero aGH (gradient_position bClassification cScores i s))
       (at0 fzero aWeights i).

(** The hessian, read at the position that follows the gradient, times the
    weight of the sample. *)
Definition weighted_hessian {F : Type} `{FloatOps F} (bClassification : bool)
    (cScores : Z) (aWeights aGH : list F) (s i : Z) : F :=
  fmul (at0 fzero aGH (gradient_position bClassification cScores i s + 1))
       (at0 fzero aWeights i).

(** A zeroed bin buffer. *)
Definition zeroed {F : Type} `{FloatOps F} (bins : list (Bin F)) : Prop :=
  Forall (fun b =>
            m_cSamples b = 0 /\ m_weight b = fzero
            /\ Forall (fun gp => m_sumGradients gp = fzero /\ m_sumHessians gp = fzero)
                 (m_aGradientPairs b))
    bins.

(** Two samples whose occurrence counts add up to [2^64], one zeroed bin,
    regression. *)
Definition overflow_shell : BoosterShell Z := {|
  m_pBoosterCore := {|
    m_cClasses := -1;
    m_apTerms := [ {| m_cBitPack := 64; m_cRealDimensions := 1 |} ];
    m_trainingSet := {|
      m_cSamplesTotal := 2;
      m_aGradientsAndHessians := [1; 1];
      m_aaInputData := [ [ 0 ] ]
    |}
  |};
  m_aBoostingFastBinsTemp :=
    [ {| m_cSamples := 0; m_weight := 0;
         m_aGradientPairs := [ {| m_sumGradients := 0; m_sumHessians := 0 |} ] |} ]
|}.

Definition overflow_bag : InnerBag Z := {|
  m_aCountOccurrences := [2 ^ 63; 2 ^ 63];
  m_aWeights := [1; 1];
  m_weightTotal := 2
|}.

(** One sample of gradient 3 and weight 1 added to a bin that already
    holds a gradient sum of 5, regression. *)
Definition carried_shell : BoosterShell Z := {|
  m_pBoosterCore := {|
    m_cClasses := -1;
    m_apTerms := [ {| m_cBitPack := 64; m_cRealDimensions := 1 |} ];
    m_trainingSet := {|
      m_cSamplesTotal := 1;
      m_aGradientsAndHessians := [3];
      m_aaInputData := [ [ 0 ] ]
    |}
  |};
  m_aBoostingFastBinsTemp :=
    [ {| m_cSamples := 1; m_weight := 1;
         m_aGradientPairs := [ {| m_sumGradients := 5; m_sumHessians := 0 |} ] |} ]
|}.

Definition carried_bag : InnerBag Z := {|
  m_aCountOccurrences := [1];
  m_aWeights := [1];
  m_weightTotal := 1
|}.

(** Three classes, three samples, two items per word, a term with a
    single cell: one bin, every packed index 0. *)
Definition single_shell : BoosterShell Z := {|
  m_pBoosterCore := {|
    m_cClasses := 3;
    m_apTerms := [ {| m_cBitPack := 2; m_cRealDimensions := 1 |} ];
    m_trainingSet := {|
      m_cSamplesTotal := 3;
      m_aGradientsAndHessians :=
        [1; 10; 2; 20; 3; 30; 4; 40; 5; 50; 6; 60; 7; 70; 8; 80; 9; 90];
      m_aaInputData := [ [ 0; 0 ] ]
    |}
  |};
  m_aBoostingFastBinsTemp :=
    [ {| m_cSamples := 4; m_weight := 1;
         m_aGradientPairs :=
           replicate 3 {| m_sumGradients := 1; m_sumHessians := 2 |} |} ]
|}.

Definition single_bag : InnerBag Z := {|
  m_aCountOccurrences := [1; 0; 2];
  m_aWeights := [2; 3; 5];
  m_weightTotal := 10
|}.

(** The same bag with another recorded total weight. *)
Definition scenario_bag_other_total : InnerBag Z := {|
  m_aCountOccurrences := [1; 1; 1; 1; 1];
  m_aWeights := [1; 1; 1; 1; 1];
  m_weightTotal := 77
|}.

(** ** What the entry point selects *)

(** The class-count specialization reached by the walk from
    [cPossibleClasses]: the run's class count when it is one of the
    enumerated [cPossibleClasses .. k_cCompilerClassesMax], the dynamic one
    otherwise. *)
Definition classes_from `{EbmInternal} (cPossibleClasses cRuntimeClasses : Z) : Z :=
  if (cPossibleClasses <=? cRuntimeClasses)
     && (cRuntimeClasses <=? k_cCompilerClassesMax)
  then cRuntimeClasses
  else k_dynamicClassification.

(** The class-count specialization of a call: the walk from 2 for a
    classification, the regression one otherwise. *)
Definition selected_classes `{EbmInternal} (cRuntimeClasses : Z) : Z :=
  if IsClassification cRuntimeClasses then classes_from 2 cRuntimeClasses
  else k_regression.

(** The [n]-th pack width after [compilerBitPack] in the compile-time
    enumeration. *)
Fixpoint next_pack `{EbmInternal} (n : nat) (compilerBitPack : Z) : Z :=
  match n with
  | O => compilerBitPack
  | S n' => next_pack n' (GetNextCountItemsBitPacked compilerBitPack)
  end.

(** The pack-width specialization reached from [compilerBitPack]: the
    first enumerated width equal to the term's, the dynamic one if the
    enumeration ends first. *)
Fixpoint selected_pack `{EbmInternal} (depth : nat) (compilerBitPack runtimeBitPack : Z)
    : Z :=
  match depth with
  | O => k_cItemsPerBitPackDynamic
  | S depth' =>
      if compilerBitPack =? k_cItemsPerBitPackDynamic then k_cItemsPerBitPackDynamic
      else if compilerBitPack =? runtimeBitPack then compilerBitPack
      else selected_pack depth' (GetNextCountItemsBitPacked compilerBitPack)
             runtimeBitPack
  end.

(** ** Packed words *)

(** Field [j] of the packed word [w]: the [cBitsPerItemMax] bits from bit
    [cBitsPerItemMax * j] upwards. *)
Definition field_of (cBitsPerItemMax w j : Z) : Z :=
  Z.land (Z.ones cBitsPerItemMax) (Z.shiftr w (cBitsPerItemMax * j)).

(** Modelled from the spec: [GetCountBits] is defined in
    [ebm_internal.hpp], which is missing from the sources.  The
    specification gives the width of a field as the minimal number of bits
    needed to represent [itemsPerWord - 1] values. *)
Definition GetCountBits_spec (cItemsBitPacked : Z) : Z :=
  Z.log2_up (cItemsBitPacked - 1).

(** ** IEEE binary64 as [FloatFast] *)

#[export] Instance binary64_FloatOps : FloatOps float :=
  {| fzero := 0%float; fadd := PrimFloat.add; fmul := PrimFloat.mul |}.

(** Three samples of unit weight with gradients [1e16], [1], [-1e16];
    the first and the last fall into bin 0, the second into bin 1;
    regression, 32 items per word. *)
Definition rounding_shell : BoosterShell float := {|
  m_pBoosterCore := {|
    m_cClasses := -1;
    m_apTerms := [ {| m_cBitPack := 32; m_cRealDimensions := 1 |} ];
    m_trainingSet := {|
      m_cSamplesTotal := 3;
      m_aGradientsAndHessians := [1e16%float; 1%float; (-1e16)%float];
      m_aaInputData := [ [ 4 ] ]
    |}
  |};
  m_aBoostingFastBinsTemp :=
    replicate 2 {| m_cSamples := 0; m_weight := 0%float;
                   m_aGradientPairs :=
                     [ {| m_sumGradients := 0%float; m_sumHessians := 0%float |} ] |}
|}.

Definition rounding_bag : InnerBag float := {|
  m_aCountOccurrences := [1; 1; 1];
  m_aWeights := [1%float; 1%float; 1%float];
  m_weightTotal := 3%float
|}.

(** ** The samples of a bin *)

(** The samples, numbered from [i], whose bin index in [idxs] is [j]. *)
Fixpoint samples_of (j i : Z) (idxs : list Z) : list Z :=
  match idxs with
  | [] => []
  | idx :: idxs' =>
      if idx =? j then i :: samples_of j (i + 1) idxs'
      else samples_of j (i + 1) idxs'
  end.

(** [a + x1 + x2 + ...], added from left to right. *)
Definition fsum_from {F : Type} `{FloatOps F} (a : F) (l : list F) : F :=
  fold_left fadd l a.

(** ** The access pattern *)

(** The four input arrays of a call. *)
Inductive Input : Type :=
| InCountOccurrences
| InWeights
| InInputData
| InGradientsAndHessians.

(** The offset of a read, if it is a read of the array [a]. *)
Definition offset_in (a : Input) (r : Read) : option Z :=
  match a, r with
  | InCountOccurrences, RdCountOccurrences i => Some i
  | InWeights, RdWeight i => Some i
  | InInputData, RdInputData i => Some i
  | InGradientsAndHessians, RdGradientAndHessian i => Some i
  | _, _ => None
  end.

(** The offsets read in the array [a], in order. *)
Definition offsets_read (a : Input) (rd : list Read) : list Z :=
  omap (offset_in a) rd.

(** ** The header with either value of the vector-instruction flag *)

(** The header [E] with [k_bUseSIMD] set to [b]. *)
Definition with_simd (b : bool) (E : EbmInternal) : EbmInternal := {|
  k_cBitsForStorageType := @k_cBitsForStorageType E;
  k_regression := @k_regression E;
  k_dynamicClassification := @k_dynamicClassification E;
  k_cCompilerClassesMax := @k_cCompilerClassesMax E;
  k_cItemsPerBitPackDynamic := @k_cItemsPerBitPackDynamic E;
  k_cItemsPerBitPackMax := @k_cItemsPerBitPackMax E;
  k_bUseSIMD := b;
  k_illegalTermIndex := @k_illegalTermIndex E;
  IsClassification := @IsClassification E;
  GetCountScores := @GetCountScores E;
  GetCountBits := @GetCountBits E;
  GetNextCountItemsBitPacked := @GetNextCountItemsBitPacked E
|}.

(** ** Calls outside the contract *)

(** A training set without samples, regression. *)
Definition empty_shell : BoosterShell Z := {|
  m_pBoosterCore := {|
    m_cClasses := -1;
    m_apTerms := [ {| m_cBitPack := 4; m_cRealDimensions := 1 |} ];
    m_trainingSet := {|
      m_cSamplesTotal := 0;
      m_aGradientsAndHessians := [];
      m_aaInputData := [ [] ]
    |}
  |};
  m_aBoostingFastBinsTemp :=
    [ {| m_cSamples := 0; m_weight := 0;
         m_aGradientPairs := [ {| m_sumGradients := 0; m_sumHessians := 0 |} ] |} ]
|}.

Definition empty_bag : InnerBag Z := {|
  m_aCountOccurrences := [];
  m_aWeights := [];
  m_weightTotal := 0
|}.


(** ** The instantiations a call goes through

    The selection made by the entry point is not visible in the bins: every
    instantiation that matches the run computes the same.  It is made
    visible here by a log of the instantiations whose [Func] is entered, in
    call order, kept beside the result (a ghost variable, as the history of
    reads is). *)

(** [Class<arguments>::Func], for the class templates of the file. *)
Inductive Instance : Type :=
| ZeroDimensionsFunc (cCompilerClasses : Z)
| ZeroDimensionsTargetFunc (cPossibleClasses : Z)
| InternalFunc (cCompilerClasses compilerBitPack : Z)
| NormalTargetFunc (cPossibleClasses : Z)
| SIMDPackingFunc (cCompilerClasses compilerBitPack : Z)
| SIMDTargetFunc (cPossibleClasses : Z).

(** The instantiations entered, and the locals at return. *)
Definition Calls (F : Type) : Type := (list Instance * option (Locals F))%type.

(** The call of [i]'s [Func], which goes on as [r]. *)
Definition enter {F : Type} (i : Instance) (r : Calls F) : Calls F :=
  (i :: fst r, snd r).

Section Routes.
Context {F : Type} `{FloatOps F} `{EbmInternal}.

(** The call of a kernel: it calls no other instantiation. *)
Definition call_ZeroDimensions (fuel : nat) (cCompilerClasses : Z)
    (pBoosterShell : BoosterShell F) (pInnerBag : InnerBag F) : Calls F :=
  enter (ZeroDimensionsFunc cCompilerClasses)
    ([], BinSumsBoostingZeroDimensions fuel cCompilerClasses pBoosterShell pInnerBag).

Definition call_Internal (fuel : nat) (cCompilerClasses compilerBitPack : Z)
    (pBoosterShell : BoosterShell F) (iTerm : Z) (pInnerBag : InnerBag F) : Calls F :=
  enter (InternalFunc cCompilerClasses compilerBitPack)
    ([], BinSumsBoostingInternal fuel cCompilerClasses compilerBitPack pBoosterShell
           iTerm pInnerBag).

(** [BinSumsBoostingZeroDimensionsTarget<cPossibleClasses>::Func]
    (lines 137-189). *)
Fixpoint call_ZeroDimensionsTarget (depth fuel : nat) (cPossibleClasses : Z)
    (pBoosterShell : BoosterShell F) (pInnerBag : InnerBag F) : Calls F :=
  match depth with
  | O => ([], None)
  | S depth' =>
      let cRuntimeClasses := m_cClasses (m_pBoosterCore pBoosterShell) in
      enter (ZeroDimensionsTargetFunc cPossibleClasses)
        (if cPossibleClasses =? k_cCompilerClassesMax + 1 then
           call_ZeroDimensions fuel k_dynamicClassification pBoosterShell pInnerBag
         else if cPossibleClasses =? cRuntimeClasses then
           call_ZeroDimensions fuel cPossibleClasses pBoosterShell pInnerBag
         else
           call_ZeroDimensionsTarget depth' fuel (cPossibleClasses + 1)
             pBoosterShell pInnerBag)
  end.

(** [BinSumsBoostingNormalTarget<cPossibleClasses>::Func] (lines 359-416). *)
Fixpoint call_NormalTarget (depth fuel : nat) (cPossibleClasses : Z)
    (pBoosterShell : BoosterShell F) (iTerm : Z) (pInnerBag : InnerBag F) : Calls F :=
  match depth with
  | O => ([], None)
  | S depth' =>
      let cRuntimeClasses := m_cClasses (m_pBoosterCore pBoosterShell) in
      enter (NormalTargetFunc cPossibleClasses)
        (if cPossibleClasses =? k_cCompilerClassesMax + 1 then
           call_Internal fuel k_dynamicClassification k_cItemsPerBitPackDynamic
             pBoosterShell iTerm pInnerBag
         else if cPossibleClasses =? cRuntimeClasses then
           call_Internal fuel cPossibleClasses k_cItemsPerBitPackDynamic
             pBoosterShell iTerm pInnerBag
         else
           call_NormalTarget depth' fuel (cPossibleClasses + 1)
             pBoosterShell iTerm pInnerBag)
  end.

(** [BinSumsBoostingSIMDPacking<cCompilerClasses, compilerBitPack>::Func]
    (lines 418-477). *)
Fixpoint call_SIMDPacking (depth fuel : nat) (cCompilerClasses compilerBitPack : Z)
    (pBoosterShell : BoosterShell F) (iTerm : Z) (pInnerBag : InnerBag F) : Calls F :=
  match depth with
  | O => ([], None)
  | S depth' =>
      enter (SIMDPackingFunc cCompilerClasses compilerBitPack)
        (if compilerBitPack =? k_cItemsPerBitPackDynamic then
           call_Internal fuel cCompilerClasses k_cItemsPerBitPackDynamic
             pBoosterShell iTerm pInnerBag
         else
           match deref (m_apTerms (m_pBoosterCore pBoosterShell)) iTerm with
           | None => ([], None)
           | Some pTerm =>
               let runtimeBitPack := m_cBitPack pTerm in
               if compilerBitPack =? runtimeBitPack then
                 call_Internal fuel cCompilerClasses compilerBitPack
                   pBoosterShell iTerm pInnerBag
               else
                 call_SIMDPacking depth' fuel cCompilerClasses
                   (GetNextCountItemsBitPacked compilerBitPack)
                   pBoosterShell iTerm pInnerBag
           end)
  end.

(** [BinSumsBoostingSIMDTarget<cPossibleClasses>::Func] (lines 479-539). *)
Fixpoint call_SIMDTarget (depth fuel : nat) (cPossibleClasses : Z)
    (pBoosterShell : BoosterShell F) (iTerm : Z) (pInnerBag : InnerBag F) : Calls F :=
  match depth with
  | O => ([], None)
  | S depth' =>
      let cRuntimeClasses := m_cClasses (m_pBoosterCore pBoosterShell) in
      enter (SIMDTargetFunc cPossibleClasses)
        (if cPossibleClasses =? k_cCompilerClassesMax + 1 then
           call_SIMDPacking fuel fuel k_dynamicClassification k_cItemsPerBitPackMax
             pBoosterShell iTerm pInnerBag
         else if cPossibleClasses =? cRuntimeClasses then
           call_SIMDPacking fuel fuel cPossibleClasses k_cItemsPerBitPackMax
             pBoosterShell iTerm pInnerBag
         else
           call_SIMDTarget depth' fuel (cPossibleClasses + 1)
             pBoosterShell iTerm pInnerBag)
  end.

(** The entry point [BinSumsBoosting] (lines 541-619), with the
    instantiations it goes through. *)
Definition call_BinSumsBoosting (fuel : nat) (pBoosterShell : BoosterShell F)
    (iTerm : Z) (pInnerBag : InnerBag F) : Calls F :=
  let cRuntimeClasses := m_cClasses (m_pBoosterCore pBoosterShell) in
  if k_illegalTermIndex =? iTerm then
    if IsClassification cRuntimeClasses then
      call_ZeroDimensionsTarget fuel fuel 2 pBoosterShell pInnerBag
    else
      call_ZeroDimensions fuel k_regression pBoosterShell pInnerBag
  else
    if k_bUseSIMD then
      if IsClassification cRuntimeClasses then
        call_SIMDTarget fuel fuel 2 pBoosterShell iTerm pInnerBag
      else
        call_SIMDPacking fuel fuel k_regression k_cItemsPerBitPackMax
          pBoosterShell iTerm pInnerBag
    else
      if IsClassification cRuntimeClasses then
        call_NormalTarget fuel fuel 2 pBoosterShell iTerm pInnerBag
      else
        call_Internal fuel k_regression k_cItemsPerBitPackDynamic
          pBoosterShell iTerm pInnerBag.

(** What the kernel instantiation [i] computes. *)
Definition kernel_of (fuel : nat) (i : Instance) (pBoosterShell : BoosterShell F)
    (iTerm : Z) (pInnerBag : InnerBag F) : option (Locals F) :=
  match i with
  | ZeroDimensionsFunc cCompilerClasses =>
      BinSumsBoostingZeroDimensions fuel cCompilerClasses pBoosterShell pInnerBag
  | InternalFunc cCompilerClasses compilerBitPack =>
      BinSumsBoostingInternal fuel cCompilerClasses compilerBitPack pBoosterShell
        iTerm pInnerBag
  | _ => None
  end.

End Routes.

(** *** The walk the specification states *)

(** The class counts tried from [cPossibleClasses] on: up to the run's
    class count when it is one of the enumerated
    [cPossibleClasses .. k_cCompilerClassesMax], else up to
    [k_cCompilerClassesMax + 1], where the dynamic specialization is taken. *)
Definition classes_walked `{EbmInternal} (cPossibleClasses cRuntimeClasses : Z)
    : list Z :=
  consecutive cPossibleClasses
    (Z.to_nat
       ((if (cPossibleClasses <=? cRuntimeClasses)
            && (cRuntimeClasses <=? k_cCompilerClassesMax)
         then cRuntimeClasses else k_cCompilerClassesMax + 1)
        - cPossibleClasses + 1)).

(** The first [m + 1] pack widths of the compile-time enumeration. *)
Definition packs_walked `{EbmInternal} (m : nat) : list Z :=
  map (fun j => next_pack j k_cItemsPerBitPackMax) (seq 0 (S m)).

(** The enumeration of pack widths stops at its [m]-th width: the first
    that is the term's or the dynamic one. *)
Definition walk_stops `{EbmInternal} (runtimeBitPack : Z) (m : nat) : Prop :=
  (next_pack m k_cItemsPerBitPackMax = k_cItemsPerBitPackDynamic
   \/ next_pack m k_cItemsPerBitPackMax = runtimeBitPack)
  /\ forall j : nat, (j < m)%nat ->
       next_pack j k_cItemsPerBitPackMax <> k_cItemsPerBitPackDynamic
       /\ next_pack j k_cItemsPerBitPackMax <> runtimeBitPack.

(** The instantiations the entry point is to go through, by the decision
    tree of the specification (4.3): without a term the zero-dimension
    kernel, with a term the indexed kernel, reached through the pack-width
    family when the vector-instruction flag is set; a classification walks
    the class counts first, a regression has its one specialization. *)
Definition stated_selection `{EbmInternal} (cRuntimeClasses iTerm runtimeBitPack : Z)
    (m : nat) : list Instance :=
  if k_illegalTermIndex =? iTerm then
    if IsClassification cRuntimeClasses then
      map ZeroDimensionsTargetFunc (classes_walked 2 cRuntimeClasses)
      ++ [ZeroDimensionsFunc (classes_from 2 cRuntimeClasses)]
    else
      [ZeroDimensionsFunc k_regression]
  else if k_bUseSIMD then
    (if IsClassification cRuntimeClasses
     then map SIMDTargetFunc (classes_walked 2 cRuntimeClasses) else [])
    ++ map (SIMDPackingFunc (selected_classes cRuntimeClasses)) (packs_walked m)
    ++ [InternalFunc (selected_classes cRuntimeClasses)
          (next_pack m k_cItemsPerBitPackMax)]
  else
    (if IsClassification cRuntimeClasses
     then map NormalTargetFunc (classes_walked 2 cRuntimeClasses) else [])
    ++ [InternalFunc (selected_classes cRuntimeClasses) k_cItemsPerBitPackDynamic].

(** ** Calls on the same inputs *)

(** The call on [shell'] and [bag'] has the inputs of the call on [shell]
    and [bag] for the term [iTerm]: the same class count, sample count and
    bin buffer, a term [iTerm] of the same pack width, and arrays that begin
    with the arrays of [shell] and [bag].  Everything else is free: what
    follows the arrays, the other terms and their packed words, the number
    of real dimensions of the term and the recorded total weight. *)
Record same_inputs {F : Type} (iTerm : Z) (shell : BoosterShell F) (bag : InnerBag F)
    (shell' : BoosterShell F) (bag' : InnerBag F) : Prop := {
  same_classes :
    m_cClasses (m_pBoosterCore shell') = m_cClasses (m_pBoosterCore shell);
  same_samples :
    m_cSamplesTotal (m_trainingSet (m_pBoosterCore shell'))
    = m_cSamplesTotal (m_trainingSet (m_pBoosterCore shell));
  same_bins : m_aBoostingFastBinsTemp shell' = m_aBoostingFastBinsTemp shell;
  same_gradients :
    m_aGradientsAndHessians (m_trainingSet (m_pBoosterCore shell))
    `prefix_of` m_aGradientsAndHessians (m_trainingSet (m_pBoosterCore shell'));
  same_occurrences : m_aCountOccurrences bag `prefix_of` m_aCountOccurrences bag';
  same_weights : m_aWeights bag `prefix_of` m_aWeights bag';
  same_pack :
    forall pTerm : Term,
      deref (m_apTerms (m_pBoosterCore shell)) iTerm = Some pTerm ->
      exists pTerm' : Term,
        deref (m_apTerms (m_pBoosterCore shell')) iTerm = Some pTerm'
        /\ m_cBitPack pTerm' = m_cBitPack pTerm;
  same_words :
    forall aInputData : list Z,
      deref (m_aaInputData (m_trainingSet (m_pBoosterCore shell))) iTerm
      = Some aInputData ->
      exists aInputData' : list Z,
        deref (m_aaInputData (m_trainingSet (m_pBoosterCore shell'))) iTerm
        = Some aInputData'
        /\ aInputData `prefix_of` aInputData'
}.

(** The scenario of the specification in other surroundings: a second
    term with its packed words, a third packed word, a sixth gradient,
    another number of real dimensions. *)
Definition scenario_shell_elsewhere : BoosterShell Z := {|
  m_pBoosterCore := {|
    m_cClasses := -1;
    m_apTerms := [ {| m_cBitPack := 4; m_cRealDimensions := 2 |};
                   {| m_cBitPack := 8; m_cRealDimensions := 1 |} ];
    m_trainingSet := {|
      m_cSamplesTotal := 5;
      m_aGradientsAndHessians := [10; -20; 30; -10; 5; 99];
      m_aaInputData := [ [ 0 + 1 * 2^16 + 3 * 2^32 + 1 * 2^48; 2; 7 ]; [ 1 ] ]
    |}
  |};
  m_aBoostingFastBinsTemp :=
    replicate 4 {| m_cSamples := 0; m_weight := 0;
                   m_aGradientPairs := [ {| m_sumGradients := 0; m_sumHessians := 0 |} ] |}
|}.

(** The bag of the scenario with a sixth occurrence count and weight and
    another recorded total weight. *)
Definition scenario_bag_elsewhere : InnerBag Z := {|
  m_aCountOccurrences := [1; 1; 1; 1; 1; 8];
  m_aWeights := [1; 1; 1; 1; 1; 8];
  m_weightTotal := 77
|}.

(** * Lemmas *)

Example scenario_bins :
  option_map (fun st => map bin_summary (aBins st))
    (BinSumsBoosting 10 scenario_shell 0 scenario_bag)
  = Some [ (1, 1, [10]); (2, 2, [-30]); (1, 1, [5]); (1, 1, [30]) ].
Proof. vm_compute. reflexivity. Qed.

(** ** Basic facts *)

Lemma deref_at0 {A : Type} (d : A) (a : list A) (i : Z) :
  0 <= i < Z.of_nat (length a) -> deref a i = Some (at0 d a i).
Proof.
  intros Hi. unfold at0, deref.
  destruct (Z.ltb_spec i 0) as [Hneg | _]; [lia |].
  destruct (lookup_lt_is_Some_2 a (Z.to_nat i)) as [x Hx]; [lia |].
  rewrite Hx. reflexivity.
Qed.

Lemma insert_as_alter {A : Type} (f : A -> A) (l : list A) (i : nat) (x : A) :
  l !! i = Some x -> <[i := f x]> l = alter f i l.
Proof.
  revert i. induction l as [| y l IH]; intros [| i] Hx; simpl in *; try discriminate.
  - injection Hx as ->. reflexivity.
  - f_equal. apply IH. exact Hx.
Qed.

Lemma size_t_wrap_small (z : Z) : 0 <= z < 2 ^ size_t_bits -> size_t_wrap z = z.
Proof. intros Hz. unfold size_t_wrap. apply Z.mod_small. exact Hz. Qed.

Lemma deref_nat {A : Type} (a : list A) (i : nat) :
  deref a (Z.of_nat i) = a !! i.
Proof.
  unfold deref. destruct (Z.ltb_spec (Z.of_nat i) 0) as [Hneg | _]; [lia |].
  rewrite Nat2Z.id. reflexivity.
Qed.

Lemma length_decode_word (maskBits cBitsPerItemMax : Z) (c : nat) :
  forall w : Z, length (decode_word maskBits cBitsPerItemMax c w) = c.
Proof. induction c as [| c IH]; intros w; simpl; [| rewrite IH]; reflexivity. Qed.

Lemma length_decode_stream (maskBits cBitsPerItemMax : Z) (aInputData : list Z)
    (q r m : nat) :
  forall k : Z,
    length (decode_stream maskBits cBitsPerItemMax aInputData q r m k)
    = (m * q + r)%nat.
Proof.
  induction m as [| m IH]; intros k; cbn [decode_stream].
  - apply length_decode_word.
  - rewrite length_app, length_decode_word, IH. lia.
Qed.

(** ** The loops compute their effect *)

Section Run.
Context {F : Type} `{FloatOps F}.
Variable bClassification : bool.
Variable cScores : Z.
Variable aCountOccurrences : list Z.
Variable aWeights : list F.
Variable aGH : list F.
Variable cSamples : Z.

Hypothesis scores_pos : 1 <= cScores.
Hypothesis occurrences_length :
  Z.of_nat (length aCountOccurrences) = cSamples.
Hypothesis weights_length :
  Z.of_nat (length aWeights) = cSamples.
Hypothesis gradients_length :
  Z.of_nat (length aGH) = cPerScore bClassification * cScores * cSamples.

Local Abbreviation cPer := (cPerScore bClassification).

Lemma cPerScore_pos : 1 <= cPer.
Proof. unfold cPerScore. destruct bClassification; lia. Qed.

Lemma score_body_run (iScore : nat) (weight : F) (pGH : Z)
    (aPairs : list (GradientPair F)) (rd : list Read) :
  0 <= pGH ->
  pGH + cPer <= Z.of_nat (length aGH) ->
  (iScore < length aPairs)%nat ->
  score_body bClassification aGH weight (Z.of_nat iScore) pGH aPairs rd
  = Some (alter (pair_effect bClassification aGH weight pGH) iScore aPairs,
          rd ++ score_reads bClassification 1 pGH).
Proof.
  intros Hp Hlen Hpairs. unfold score_body.
  destruct (lookup_lt_is_Some_2 aPairs iScore Hpairs) as [gp Hgp].
  rewrite <- (insert_as_alter _ aPairs iScore gp Hgp).
  rewrite deref_nat, Hgp, Nat2Z.id.
  unfold cPerScore in *. destruct bClassification.
  - rewrite (deref_at0 fzero aGH pGH) by lia.
    rewrite (deref_at0 fzero aGH (pGH + 1)) by lia.
    simpl. rewrite <- app_assoc. reflexivity.
  - rewrite (deref_at0 fzero aGH pGH) by lia.
    simpl. reflexivity.
Qed.

Lemma score_loop_run (k : nat) :
  forall (fuel iScore : nat) (weight : F) (pGH : Z)
         (aPairs : list (GradientPair F)) (rd : list Read),
    (S k <= fuel)%nat ->
    0 <= pGH ->
    pGH + cPer * Z.of_nat (S k) <= Z.of_nat (length aGH) ->
    (iScore + S k <= length aPairs)%nat ->
    cScores = Z.of_nat (iScore + S k) ->
    score_loop fuel bClassification cScores aGH weight (Z.of_nat iScore) pGH aPairs rd
    = Some (scores_effect bClassification aGH (S k) iScore weight pGH aPairs,
            pGH + cPer * Z.of_nat (S k),
            rd ++ score_reads bClassification (S k) pGH).
Proof.
  pose proof cPerScore_pos as Hper.
  induction k as [| k IH]; intros fuel iScore weight pGH aPairs rd Hfuel Hp Hlen Hpairs Hsc;
    (destruct fuel as [| fuel]; [lia |]).
  all: cbn [score_loop]; rewrite score_body_run by lia.
  all: change (if bClassification then 2 else 1) with cPer.
  - destruct (Z.ltb_spec (Z.of_nat iScore + 1) cScores) as [Hlt | _]; [lia |].
    cbn [scores_effect score_reads]. rewrite app_nil_r.
    change (Z.of_nat 1) with 1. rewrite Z.mul_1_r. reflexivity.
  - destruct (Z.ltb_spec (Z.of_nat iScore + 1) cScores) as [_ | Hge]; [| lia].
    replace (Z.of_nat iScore + 1) with (Z.of_nat (S iScore)) by lia.
    rewrite IH; try lia; [| rewrite length_alter; lia].
    cbn [scores_effect score_reads]. rewrite app_nil_r, <- !app_assoc.
    replace (pGH + cPer + cPer * Z.of_nat (S k))
      with (pGH + cPer * Z.of_nat (S (S k))) by lia.
    reflexivity.
Qed.

(** *** Invariant of the sample loops *)

Local Abbreviation pairs_ok := (pairs_ok cScores).
Local Abbreviation at_sample := (at_sample bClassification cScores).

Lemma length_scores_effect (k : nat) :
  forall (iScore : nat) (weight : F) (pGH : Z) (aPairs : list (GradientPair F)),
    length (scores_effect bClassification aGH k iScore weight pGH aPairs)
    = length aPairs.
Proof.
  induction k as [| k IH]; intros iScore weight pGH aPairs; simpl; [reflexivity |].
  rewrite IH. apply length_alter.
Qed.

Lemma pairs_ok_alter (i idx : Z) (bins : list (Bin F)) :
  pairs_ok bins ->
  pairs_ok (alter (bin_effect bClassification cScores aCountOccurrences aWeights aGH i)
              (Z.to_nat idx) bins).
Proof.
  intros Hok. apply Forall_alter; [exact Hok |].
  intros b _ Hb. simpl. rewrite length_scores_effect. exact Hb.
Qed.

Lemma pairs_ok_bins_effect (idxs : list Z) :
  forall (i : Z) (bins : list (Bin F)),
    pairs_ok bins ->
    pairs_ok (bins_effect bClassification cScores aCountOccurrences aWeights aGH i idxs bins).
Proof.
  induction idxs as [| idx idxs IH]; intros i bins Hok; simpl; [exact Hok |].
  apply IH. apply pairs_ok_alter. exact Hok.
Qed.

Lemma length_bins_effect (idxs : list Z) :
  forall (i : Z) (bins : list (Bin F)),
    length (bins_effect bClassification cScores aCountOccurrences aWeights aGH i idxs bins)
    = length bins.
Proof.
  induction idxs as [| idx idxs IH]; intros i bins; simpl; [reflexivity |].
  rewrite IH. apply length_alter.
Qed.

Local Abbreviation after := (after_samples bClassification cScores aCountOccurrences aWeights aGH).

Lemma bins_effect_app (idxs1 idxs2 : list Z) :
  forall (i : Z) (bins : list (Bin F)),
    bins_effect bClassification cScores aCountOccurrences aWeights aGH i (idxs1 ++ idxs2) bins
    = bins_effect bClassification cScores aCountOccurrences aWeights aGH
        (i + Z.of_nat (length idxs1)) idxs2
        (bins_effect bClassification cScores aCountOccurrences aWeights aGH i idxs1 bins).
Proof.
  induction idxs1 as [| idx idxs1 IH]; intros i bins; cbn [app bins_effect length].
  - f_equal. lia.
  - rewrite IH. f_equal. lia.
Qed.

Lemma samples_reads_add (k1 k2 : nat) :
  forall i : Z,
    samples_reads bClassification cScores (i : Z) (k1 + k2)
    = samples_reads bClassification cScores i k1
      ++ samples_reads bClassification cScores (i + Z.of_nat k1) k2.
Proof.
  induction k1 as [| k1 IH]; intros i; cbn [Nat.add samples_reads app].
  - f_equal. lia.
  - rewrite IH, <- app_assoc. do 3 f_equal. lia.
Qed.

Lemma after_samples_app (idxs1 idxs2 : list Z) (st : Locals F) :
  after (idxs1 ++ idxs2) st = after idxs2 (after idxs1 st).
Proof.
  unfold after_samples. cbn [aBins pCountOccurrences pWeight pInputData
    pGradientAndHessian reads].
  rewrite bins_effect_app, length_app, samples_reads_add, <- app_assoc.
  f_equal; lia.
Qed.

Lemma after_samples_at (idxs : list Z) (i : Z) (st : Locals F) :
  at_sample i st -> at_sample (i + Z.of_nat (length idxs)) (after idxs st).
Proof.
  intros (Ho & Hw & Hg & Hok). unfold at_sample, after_samples. simpl.
  repeat split; try lia.
  apply pairs_ok_bins_effect. exact Hok.
Qed.

(** *** The per-sample body *)

Lemma sample_body_run (fuel : nat) (i idx : Z) (st : Locals F) :
  (Z.to_nat cScores <= fuel)%nat ->
  at_sample i st ->
  0 <= i < cSamples ->
  0 <= idx < Z.of_nat (length (aBins st)) ->
  sample_body fuel bClassification cScores aCountOccurrences aWeights aGH idx st
  = Some (after [idx] st).
Proof.
  pose proof cPerScore_pos as Hper.
  intros Hfuel (Ho & Hw & Hg & Hok) Hi Hidx. unfold sample_body.
  rewrite (deref_at0 0 aCountOccurrences) by lia.
  rewrite (deref_at0 fzero aWeights) by lia.
  unfold deref at 1.
  destruct (Z.ltb_spec idx 0) as [Hneg | _]; [lia |].
  destruct (lookup_lt_is_Some_2 (aBins st) (Z.to_nat idx)) as [b Hb]; [lia |].
  rewrite Hb.
  pose proof (Forall_lookup_1 _ _ _ _ Hok Hb) as Hpairs. simpl in Hpairs.
  assert (Hroom : cPer * cScores * i + cPer * cScores <= cPer * cScores * cSamples)
    by nia.
  assert (Hk : Z.of_nat (S (Z.to_nat cScores - 1)) = cScores) by lia.
  change 0 with (Z.of_nat 0) at 1.
  rewrite (score_loop_run (Z.to_nat cScores - 1));
    [| lia | nia | rewrite Hk; lia | lia | lia].
  unfold after_samples. cbn [length bins_effect samples_reads].
  rewrite <- (insert_as_alter _ (aBins st) (Z.to_nat idx) b Hb).
  unfold bin_effect, sample_reads, gradient_position.
  rewrite Ho, Hw, Hg.
  replace (S (Z.to_nat cScores - 1)) with (Z.to_nat cScores) by lia.
  replace (cPer * (cScores * i + 0)) with (cPer * cScores * i) by lia.
  rewrite app_nil_r, <- app_assoc.
  f_equal. f_equal. change (Z.of_nat 1) with 1. rewrite Z2Nat.id by lia. lia.
Qed.

(** *** The zero-dimension loop *)

Lemma zero_loop_run (k : nat) :
  forall (fuel fuelIn : nat) (i : Z) (st : Locals F),
    (S k <= fuel)%nat ->
    (Z.to_nat cScores <= fuelIn)%nat ->
    at_sample i st ->
    0 <= i ->
    i + Z.of_nat (S k) = cSamples ->
    (0 < length (aBins st))%nat ->
    zero_loop fuel fuelIn bClassification cScores aCountOccurrences aWeights aGH
      (cPer * cScores * cSamples) st
    = Some (after (replicate (S k) 0) st).
Proof.
  pose proof cPerScore_pos as Hper.
  induction k as [| k IH]; intros fuel fuelIn i st Hfuel HfuelIn Hat Hi Hn Hbins;
    (destruct fuel as [| fuel]; [lia |]).
  all: cbn [zero_loop]; rewrite (sample_body_run fuelIn i 0) by (auto; lia).
  all: pose proof (after_samples_at [0] i st Hat) as Hat1.
  all: destruct Hat1 as (Ho1 & Hw1 & Hg1 & Hok1).
  all: rewrite Hg1; change (Z.of_nat (length [0])) with 1.
  - replace (i + 1) with cSamples by lia.
    rewrite Z.eqb_refl. reflexivity.
  - destruct (Z.eqb_spec (cPer * cScores * cSamples) (cPer * cScores * (i + 1)))
      as [Heq | _]; [nia |].
    cbn [negb].
    rewrite (IH fuel fuelIn (i + 1)); try lia.
    + change (replicate (S (S k)) 0) with ([0] ++ replicate (S k) 0).
      rewrite after_samples_app. reflexivity.
    + repeat split; auto.
    + unfold after_samples. simpl. rewrite length_alter. exact Hbins.
Qed.

(** *** The loops of the indexed kernel *)

Variable aInputData : list Z.
Variables maskBits cBitsPerItemMax : Z.

Hypothesis samples_size_t : cSamples < 2 ^ size_t_bits.

Local Abbreviation decode := (decode_word maskBits cBitsPerItemMax).

Lemma item_loop_run (c : nat) :
  forall (fuel fuelIn : nat) (i w : Z) (st : Locals F),
    (S c <= fuel)%nat ->
    (Z.to_nat cScores <= fuelIn)%nat ->
    at_sample i st ->
    0 <= i ->
    i + Z.of_nat (S c) <= cSamples ->
    valid_indices (length (aBins st)) (decode (S c) w) ->
    item_loop fuel fuelIn bClassification cScores aCountOccurrences aWeights aGH maskBits
      cBitsPerItemMax (Z.of_nat (S c)) w st
    = Some (after (decode (S c) w) st).
Proof.
  induction c as [| c IH]; intros fuel fuelIn i w st Hfuel HfuelIn Hat Hi Hn Hvalid;
    (destruct fuel as [| fuel]; [lia |]).
  all: cbn [decode_word] in Hvalid; apply Forall_cons in Hvalid as [Hidx Hrest].
  all: cbn [item_loop]; rewrite (sample_body_run fuelIn i) by (auto; lia).
  all: rewrite size_t_wrap_small by lia.
  - reflexivity.
  - replace (Z.of_nat (S (S c)) - 1) with (Z.of_nat (S c)) by lia.
    destruct (Z.eqb_spec 0 (Z.of_nat (S c))) as [Heq | _]; [lia |].
    cbn [negb].
    rewrite (IH fuel fuelIn (i + 1)); try lia.
    + change (decode (S (S c)) w)
        with ([Z.land maskBits w] ++ decode (S c) (Z.shiftr w cBitsPerItemMax)).
      rewrite after_samples_app. reflexivity.
    + apply (after_samples_at [Z.land maskBits w] i st Hat).
    + unfold after_samples. cbn [aBins]. rewrite length_bins_effect. exact Hrest.
Qed.

Lemma word_pass_run (fuel : nat) (c : nat) (i k : Z) (st : Locals F) :
  (S c <= fuel)%nat ->
  (Z.to_nat cScores <= fuel)%nat ->
  at_sample i st ->
  0 <= i ->
  i + Z.of_nat (S c) <= cSamples ->
  pInputData st = k ->
  0 <= k < Z.of_nat (length aInputData) ->
  valid_indices (length (aBins st)) (decode (S c) (at0 0 aInputData k)) ->
  word_pass fuel bClassification cScores aCountOccurrences aWeights aGH aInputData maskBits
    cBitsPerItemMax (Z.of_nat (S c)) st
  = Some (after (decode (S c) (at0 0 aInputData k)) (after_fetch st)).
Proof.
  intros Hfuel HfuelIn Hat Hi Hn Hk Hkb Hvalid. unfold word_pass.
  rewrite Hk. rewrite (deref_at0 0 aInputData k) by lia.
  rewrite <- Hk.
  apply (item_loop_run c fuel fuel i); auto.
  rewrite Hk. exact Hvalid.
Qed.

Variable cItemsPerBitPack : Z.
Hypothesis items_pos : 1 <= cItemsPerBitPack.

Local Abbreviation stream q r m :=
  (decode_stream maskBits cBitsPerItemMax aInputData q r m).
Local Abbreviation after_words q r m :=
  (after_stream bClassification cScores aCountOccurrences aWeights aGH maskBits cBitsPerItemMax
     aInputData q r m).

(** The last pass: the exit pointer is the true end. *)
Lemma pack_loop_tail (fuel fuelIn : nat) (q r : nat) (i k : Z) (st : Locals F) :
  (1 <= fuel)%nat ->
  (S r <= fuelIn)%nat ->
  (Z.to_nat cScores <= fuelIn)%nat ->
  at_sample i st ->
  0 <= i ->
  i + Z.of_nat (S r) = cSamples ->
  pInputData st = k ->
  0 <= k < Z.of_nat (length aInputData) ->
  valid_indices (length (aBins st)) (stream q (S r) 0%nat k) ->
  pack_loop fuel fuelIn bClassification cScores aCountOccurrences aWeights aGH aInputData
    maskBits cBitsPerItemMax cItemsPerBitPack (cPer * cScores * cSamples)
    (cPer * cScores * cSamples) (Z.of_nat (S r)) st
  = Some (after_words q (S r) 0%nat st).
Proof.
  intros Hfuel HfuelIn Hsc Hat Hi Hn Hk Hkb Hvalid.
  destruct fuel as [| fuel]; [lia |].
  cbn [pack_loop decode_stream after_stream] in *.
  rewrite (word_pass_run fuelIn r i k) by (auto; lia).
  rewrite Hk.
  assert (Hat1 : at_sample (i + Z.of_nat (S r))
                   (after (decode (S r) (at0 0 aInputData k)) (after_fetch st))).
  { rewrite <- (length_decode_word maskBits cBitsPerItemMax (S r) (at0 0 aInputData k)) at 1.
    apply after_samples_at. exact Hat. }
  destruct Hat1 as (_ & _ & Hg1 & _).
  rewrite Hg1, Hn, Z.eqb_refl. reflexivity.
Qed.

(** The full words, then the last pass. *)
Lemma pack_loop_full (m : nat) :
  forall (fuel fuelIn : nat) (q r : nat) (i k : Z) (st : Locals F),
    (S m + 1 <= fuel)%nat ->
    (S q <= fuelIn)%nat ->
    (S r <= fuelIn)%nat ->
    (Z.to_nat cScores <= fuelIn)%nat ->
    cItemsPerBitPack = Z.of_nat (S q) ->
    at_sample i st ->
    0 <= i ->
    i + Z.of_nat (S m) * Z.of_nat (S q) + Z.of_nat (S r) = cSamples ->
    pInputData st = k ->
    0 <= k ->
    k + Z.of_nat (S m) < Z.of_nat (length aInputData) ->
    valid_indices (length (aBins st)) (stream (S q) (S r) (S m) k) ->
    pack_loop fuel fuelIn bClassification cScores aCountOccurrences aWeights aGH aInputData
      maskBits cBitsPerItemMax cItemsPerBitPack (cPer * cScores * cSamples)
      (cPer * cScores * cSamples - cPer * cScores * Z.of_nat (S r))
      cItemsPerBitPack st
    = Some (after_words (S q) (S r) (S m) st).
Proof.
  pose proof cPerScore_pos as Hper.
  induction m as [| m IH];
    intros fuel fuelIn q r i k st Hfuel Hq Hr Hsc Hitems Hat Hi Hn Hk Hk0 Hkb Hvalid;
    (destruct fuel as [| fuel]; [lia |]).
  all: cbn [decode_stream] in Hvalid; apply Forall_app in Hvalid as [Hword Hrest].
  all: assert (Hword1 :
         word_pass fuelIn bClassification cScores aCountOccurrences aWeights aGH aInputData
           maskBits cBitsPerItemMax cItemsPerBitPack st
         = Some (after (decode (S q) (at0 0 aInputData k)) (after_fetch st)))
         by (rewrite Hitems; apply (word_pass_run fuelIn q i k); auto; nia).
  all: cbn [pack_loop after_stream]; rewrite Hword1, Hk.
  all: change (if bClassification then 2 else 1) with cPer.
  all: assert (Hat1 : at_sample (i + Z.of_nat (S q))
                   (after (decode (S q) (at0 0 aInputData k)) (after_fetch st)))
         by (rewrite <- (length_decode_word maskBits cBitsPerItemMax (S q) (at0 0 aInputData k)) at 1;
             apply after_samples_at; exact Hat).
  all: assert (Hlen1 : length (aBins (after (decode (S q) (at0 0 aInputData k))
                                        (after_fetch st)))
                       = length (aBins st))
         by (unfold after_samples; cbn [aBins after_fetch];
             apply length_bins_effect).
  all: pose proof Hat1 as (_ & _ & Hg1 & _); rewrite Hg1.
  - (* the last full word: the exit pointer is reached, the true end is not *)
    replace (cPer * cScores * cSamples - cPer * cScores * Z.of_nat (S r))
      with (cPer * cScores * (i + Z.of_nat (S q))) by nia.
    rewrite Z.eqb_refl. cbn [negb].
    destruct (Z.eqb_spec (cPer * cScores * cSamples)
                (cPer * cScores * (i + Z.of_nat (S q)))) as [Heq | _]; [nia |].
    cbn [negb].
    replace ((cPer * cScores * cSamples - cPer * cScores * (i + Z.of_nat (S q)))
               / (cScores * cPer))
      with (Z.of_nat (S r)).
    2:{ replace (cPer * cScores * cSamples - cPer * cScores * (i + Z.of_nat (S q)))
          with (Z.of_nat (S r) * (cScores * cPer)) by nia.
        rewrite Z.div_mul by nia. reflexivity. }
    apply (pack_loop_tail fuel fuelIn (S q) r (i + Z.of_nat (S q)) (k + 1));
      auto; try lia.
    + unfold after_samples, after_fetch. cbn [pInputData]. lia.
    + rewrite Hlen1. exact Hrest.
  - (* more full words follow *)
    destruct (Z.eqb_spec
                (cPer * cScores * cSamples - cPer * cScores * Z.of_nat (S r))
                (cPer * cScores * (i + Z.of_nat (S q)))) as [Heq | _]; [nia |].
    cbn [negb].
    apply (IH fuel fuelIn q r (i + Z.of_nat (S q)) (k + 1)); auto; try lia.
    + unfold after_samples, after_fetch. cbn [pInputData]. lia.
    + rewrite Hlen1. exact Hrest.
Qed.

Lemma after_stream_eq (q r m : nat) :
  forall st : Locals F,
    after_words q r m st
    = {| aBins := bins_effect bClassification cScores aCountOccurrences aWeights aGH
                    (pCountOccurrences st) (stream q r m (pInputData st)) (aBins st);
         pCountOccurrences := pCountOccurrences st + Z.of_nat (m * q + r);
         pWeight := pWeight st + Z.of_nat (m * q + r);
         pInputData := pInputData st + Z.of_nat (S m);
         pGradientAndHessian :=
           pGradientAndHessian st + cPer * cScores * Z.of_nat (m * q + r);
         reads := reads st
                  ++ stream_reads bClassification cScores q r m
                       (pInputData st) (pCountOccurrences st) |}.
Proof.
  induction m as [| m IH]; intros st; cbn [after_stream decode_stream stream_reads].
  - unfold after_samples, after_fetch.
    cbn [aBins pCountOccurrences pWeight pInputData pGradientAndHessian reads].
    rewrite length_decode_word, <- app_assoc. f_equal; lia.
  - rewrite IH. unfold after_samples, after_fetch.
    cbn [aBins pCountOccurrences pWeight pInputData pGradientAndHessian reads].
    rewrite bins_effect_app, !length_decode_word, <- !app_assoc.
    f_equal; lia.
Qed.

End Run.

(** ** The kernels compute their effect *)

Section CallRuns.
Context {F : Type} `{FloatOps F} `{EbmInternal}.

Variable cCompilerClasses : Z.
Variable pBoosterShell : BoosterShell F.
Variable pInnerBag : InnerBag F.

Local Abbreviation bCls := (call_classification cCompilerClasses).
Local Abbreviation cSco := (call_scores cCompilerClasses pBoosterShell).
Local Abbreviation cSam := (call_samples pBoosterShell).
Local Abbreviation aGrad := (call_gradients pBoosterShell).
Local Abbreviation okCall := (call_ok cCompilerClasses pBoosterShell pInnerBag).
Local Abbreviation zeroRes := (zero_result cCompilerClasses pBoosterShell pInnerBag).

Lemma entry_at_sample :
  okCall ->
  at_sample bCls cSco 0 (entry pBoosterShell).
Proof.
  intros Hok. unfold at_sample, entry. simpl. repeat split; try lia.
  eapply Forall_impl; [apply (ok_pairs Hok) |]. simpl. intros b Hb. lia.
Qed.

Lemma BinSumsBoostingZeroDimensions_run (fuel : nat) :
  okCall ->
  (Z.to_nat cSam <= fuel)%nat ->
  (Z.to_nat cSco <= fuel)%nat ->
  BinSumsBoostingZeroDimensions fuel cCompilerClasses pBoosterShell pInnerBag
  = Some zeroRes.
Proof.
  intros Hok Hfuel Hsc. pose proof (ok_samples Hok) as Hn.
  unfold BinSumsBoostingZeroDimensions, zeroRes.
  fold bCls cSco cSam aGrad.
  change (if bCls then 2 else 1) with (cPerScore bCls).
  replace (Z.to_nat cSam) with (S (Z.to_nat cSam - 1)) at 1 by lia.
  apply (zero_loop_run bCls cSco (m_aCountOccurrences pInnerBag) (m_aWeights pInnerBag)
         aGrad
           cSam (ok_scores Hok) (ok_occurrences Hok) (ok_weights Hok)
           (ok_gradients Hok) (Z.to_nat cSam - 1) fuel fuel 0);
    try lia.
  - apply entry_at_sample. exact Hok.
  - exact (ok_bins Hok).
Qed.

(** *** The indexed kernel *)

Variable compilerBitPack : Z.
Variable iTerm : Z.

Local Abbreviation pTrm := (call_term pBoosterShell iTerm).
Local Abbreviation cItm := (call_items pBoosterShell compilerBitPack iTerm).
Local Abbreviation cBit := (call_bits pBoosterShell compilerBitPack iTerm).
Local Abbreviation aWrd := (call_words pBoosterShell iTerm).
Local Abbreviation aIdx := (call_indices pBoosterShell compilerBitPack iTerm).
Local Abbreviation okIdx :=
  (indexed_ok cCompilerClasses pBoosterShell pInnerBag compilerBitPack iTerm).
Local Abbreviation idxRes :=
  (indexed_result cCompilerClasses pBoosterShell pInnerBag compilerBitPack iTerm).

Lemma tail_items_bounds :
  1 <= cItm -> 1 <= tail_items cSam cItm <= cItm.
Proof.
  intros Hq. unfold tail_items.
  pose proof (Z.mod_pos_bound (cSam - 1) cItm). lia.
Qed.

Lemma words_and_tail :
  1 <= cItm ->
  full_words cSam cItm * cItm
  + tail_items cSam cItm = cSam.
Proof.
  intros Hq. unfold full_words, tail_items.
  pose proof (Z.div_mod (cSam - 1) cItm). lia.
Qed.

Lemma BinSumsBoostingInternal_run (fuel : nat) :
  okIdx ->
  (Z.to_nat cSam <= fuel)%nat ->
  (Z.to_nat cSco <= fuel)%nat ->
  BinSumsBoostingInternal fuel cCompilerClasses compilerBitPack pBoosterShell
    iTerm pInnerBag
  = Some idxRes.
Proof.
  intros Hix Hfuel Hsc. pose proof (ok_call Hix) as Hok.
  pose proof (ok_samples Hok) as Hn. pose proof (ok_items Hix) as Hq.
  pose proof (tail_items_bounds (proj1 Hq)) as Hr.
  pose proof (words_and_tail (proj1 Hq)) as Hsum.
  pose proof (ok_words Hix) as Hwords. pose proof (ok_indices Hix) as Hvalid.
  assert (Hm : 0 <= full_words cSam cItm)
    by (unfold full_words; apply Z.div_pos; lia).
  unfold BinSumsBoostingInternal, idxRes.
  rewrite (deref_at0 {| m_cBitPack := 0; m_cRealDimensions := 0 |}) by apply (ok_term Hix).
  rewrite (deref_at0 []) by apply (ok_input Hix).
  fold pTrm cItm cBit aWrd.
  fold bCls cSco cSam aGrad.
  change (if bCls then 2 else 1) with (cPerScore bCls).
  unfold aIdx in Hvalid.
  set (q := (Z.to_nat cItm - 1)%nat).
  set (r := (Z.to_nat (tail_items cSam cItm) - 1)%nat).
  replace (Z.to_nat cItm) with (S q) in * by lia.
  replace (Z.to_nat (tail_items cSam cItm)) with (S r) in * by lia.
  destruct (Z.leb_spec cSam cItm) as [Hle | Hgt].
  - assert (Hm0 : full_words cSam cItm = 0)
      by (unfold full_words; apply Z.div_small; lia).
    rewrite Hm0 in *. change (Z.to_nat 0) with 0%nat in *.
    replace cSam with (Z.of_nat (S r)) at 3 by lia.
    apply (pack_loop_tail bCls cSco (m_aCountOccurrences pInnerBag) (m_aWeights pInnerBag)
         aGrad
             cSam (ok_scores Hok) (ok_occurrences Hok) (ok_weights Hok)
             (ok_gradients Hok) aWrd (maskBitsOf cBit) cBit
             (proj2 Hn) cItm fuel fuel (S q) r 0 0); try lia.
    + apply entry_at_sample. exact Hok.
    + reflexivity.
    + exact Hvalid.
  - assert (Hm1 : 1 <= full_words cSam cItm) by nia.
    set (m := (Z.to_nat (full_words cSam cItm) - 1)%nat).
    replace (Z.to_nat (full_words cSam cItm)) with (S m) in * by lia.
    replace ((cSam - 1) mod cItm + 1) with (Z.of_nat (S r))
      by (unfold tail_items in *; lia).
    apply (pack_loop_full bCls cSco (m_aCountOccurrences pInnerBag) (m_aWeights pInnerBag)
         aGrad
             cSam (ok_scores Hok) (ok_occurrences Hok) (ok_weights Hok)
             (ok_gradients Hok) aWrd (maskBitsOf cBit) cBit
             (proj2 Hn) cItm (proj1 Hq) m fuel fuel q r 0 0); try lia; try nia.
    + apply entry_at_sample. exact Hok.
    + reflexivity.
    + exact Hvalid.
Qed.

(** *** The locals at return, field by field *)

Lemma zero_result_eq :
  okCall ->
  zeroRes
  = {| aBins := bins_effect bCls cSco (m_aCountOccurrences pInnerBag)
                  (m_aWeights pInnerBag) aGrad 0 (replicate (Z.to_nat cSam) 0)
                  (m_aBoostingFastBinsTemp pBoosterShell);
       pCountOccurrences := cSam;
       pWeight := cSam;
       pInputData := 0;
       pGradientAndHessian := cPerScore bCls * cSco * cSam;
       reads := samples_reads bCls cSco 0 (Z.to_nat cSam) |}.
Proof.
  intros Hok. pose proof (ok_samples Hok) as Hn.
  unfold zero_result, after_samples, entry.
  cbn [aBins pCountOccurrences pWeight pInputData pGradientAndHessian reads app].
  rewrite length_replicate, Z2Nat.id by lia.
  reflexivity.
Qed.

Lemma indexed_result_eq :
  okIdx ->
  idxRes
  = {| aBins := bins_effect bCls cSco (m_aCountOccurrences pInnerBag)
                  (m_aWeights pInnerBag) aGrad 0 aIdx
                  (m_aBoostingFastBinsTemp pBoosterShell);
       pCountOccurrences := cSam;
       pWeight := cSam;
       pInputData := full_words cSam cItm + 1;
       pGradientAndHessian := cPerScore bCls * cSco * cSam;
       reads := stream_reads bCls cSco (Z.to_nat cItm)
                  (Z.to_nat (tail_items cSam cItm))
                  (Z.to_nat (full_words cSam cItm)) 0 0 |}.
Proof.
  intros Hix. pose proof (ok_call Hix) as Hok.
  pose proof (ok_samples Hok) as Hn. pose proof (ok_items Hix) as Hq.
  pose proof (tail_items_bounds (proj1 Hq)) as Hr.
  pose proof (words_and_tail (proj1 Hq)) as Hsum.
  assert (Hm : 0 <= full_words cSam cItm)
    by (unfold full_words; apply Z.div_pos; lia).
  assert (Hcount :
    Z.of_nat (Z.to_nat (full_words cSam cItm) * Z.to_nat cItm
              + Z.to_nat (tail_items cSam cItm)) = cSam) by nia.
  unfold indexed_result. rewrite after_stream_eq. unfold entry.
  cbn [aBins pCountOccurrences pWeight pInputData pGradientAndHessian reads app].
  rewrite Hcount. unfold call_indices.
  f_equal; lia.
Qed.

Lemma length_call_indices :
  okIdx -> Z.of_nat (length aIdx) = cSam.
Proof.
  intros Hix. pose proof (ok_call Hix) as Hok.
  pose proof (ok_samples Hok) as Hn. pose proof (ok_items Hix) as Hq.
  pose proof (tail_items_bounds (proj1 Hq)) as Hr.
  pose proof (words_and_tail (proj1 Hq)) as Hsum.
  assert (Hm : 0 <= full_words cSam cItm)
    by (unfold full_words; apply Z.div_pos; lia).
  unfold call_indices. rewrite length_decode_stream. nia.
Qed.

End CallRuns.

(** ** Facts about the history of reads *)

Lemma consecutive_add (k1 k2 : nat) :
  forall p : Z,
    consecutive p (k1 + k2) = consecutive p k1 ++ consecutive (p + Z.of_nat k1) k2.
Proof.
  induction k1 as [| k1 IH]; intros p; cbn [Nat.add consecutive app].
  - f_equal. lia.
  - rewrite IH. do 3 f_equal. lia.
Qed.

Lemma gradient_offsets_app (rd1 rd2 : list Read) :
  gradient_offsets (rd1 ++ rd2) = gradient_offsets rd1 ++ gradient_offsets rd2.
Proof.
  induction rd1 as [| [] rd1 IH]; simpl; [reflexivity | | | |]; rewrite IH; reflexivity.
Qed.

Lemma samples_processed_app (rd1 rd2 : list Read) :
  samples_processed (rd1 ++ rd2) = (samples_processed rd1 + samples_processed rd2)%nat.
Proof.
  induction rd1 as [| [] rd1 IH]; simpl; [reflexivity | | | |]; rewrite IH; reflexivity.
Qed.

Section Reads.
Variable bClassification : bool.
Variable cScores : Z.

Local Abbreviation cPer := (cPerScore bClassification).
Local Abbreviation score_rd := (score_reads bClassification).
Local Abbreviation sample_rd := (sample_reads bClassification cScores).
Local Abbreviation samples_rd := (samples_reads bClassification cScores).
Local Abbreviation stream_rd := (stream_reads bClassification cScores).

Lemma score_reads_no_sample (k : nat) :
  forall (p : Z) (rest : list Read),
    samples_processed (score_rd k p) = 0%nat
    /\ decoded_until_fetch (score_rd k p ++ rest) = decoded_until_fetch rest
    /\ decoded_per_word (score_rd k p ++ rest) = decoded_per_word rest.
Proof.
  induction k as [| k IH]; intros p rest; cbn [score_reads]; [auto |].
  destruct (IH (p + cPer) rest) as (H1 & H2 & H3).
  destruct bClassification; simpl; auto.
Qed.

Lemma samples_reads_count (k : nat) :
  forall (i : Z) (rest : list Read),
    samples_processed (samples_rd i k) = k
    /\ decoded_until_fetch (samples_rd i k ++ rest)
       = (k + decoded_until_fetch rest)%nat
    /\ decoded_per_word (samples_rd i k ++ rest) = decoded_per_word rest.
Proof.
  induction k as [| k IH]; intros i rest; cbn [samples_reads]; [auto |].
  destruct (IH (i + 1) rest) as (H1 & H2 & H3).
  unfold sample_reads. rewrite <- !app_assoc. cbn [app].
  cbn [samples_processed decoded_until_fetch decoded_per_word].
  rewrite samples_processed_app.
  destruct (score_reads_no_sample (Z.to_nat cScores)
              (gradient_position bClassification cScores i 0)
              (samples_rd (i + 1) k ++ rest)) as (G1 & G2 & G3).
  rewrite G1, G2, G3, H1, H2, H3. auto.
Qed.

Lemma stream_reads_per_word (q r m : nat) :
  forall k i : Z,
    decoded_per_word (stream_rd q r m k i) = replicate m q ++ [r]
    /\ decoded_until_fetch (stream_rd q r m k i) = 0%nat
    /\ samples_processed (stream_rd q r m k i) = (m * q + r)%nat.
Proof.
  induction m as [| m IH]; intros k i; cbn [stream_reads].
  - destruct (samples_reads_count r i []) as (H1 & H2 & H3).
    rewrite app_nil_r in H2, H3.
    cbn [decoded_per_word decoded_until_fetch samples_processed replicate app].
    rewrite H1, H2, H3. simpl. rewrite Nat.add_0_r. auto.
  - destruct (IH (k + 1) (i + Z.of_nat q)) as (I1 & I2 & I3).
    destruct (samples_reads_count q i (stream_rd q r m (k + 1) (i + Z.of_nat q)))
      as (H1 & H2 & H3).
    cbn [app decoded_per_word decoded_until_fetch samples_processed replicate].
    rewrite samples_processed_app, H1, H2, H3, I1, I2, I3.
    repeat split; [f_equal; lia | lia].
Qed.

(** *** Bounds of the reads *)

Variables cOccurrences cWeights cWords cGradients : nat.
Variable cSamples : Z.
Hypothesis scores_pos : 1 <= cScores.
Hypothesis occurrences_length : Z.of_nat cOccurrences = cSamples.
Hypothesis weights_length : Z.of_nat cWeights = cSamples.
Hypothesis gradients_length : Z.of_nat cGradients = cPer * cScores * cSamples.

Local Abbreviation in_bounds :=
  (read_in_bounds cOccurrences cWeights cWords cGradients).

Lemma score_reads_in_bounds (k : nat) :
  forall p : Z,
    0 <= p -> p + cPer * Z.of_nat k <= Z.of_nat cGradients ->
    Forall in_bounds (score_rd k p).
Proof.
  induction k as [| k IH]; intros p Hp Hend; cbn [score_reads]; [constructor |].
  assert (Hper : 1 <= cPer) by (unfold cPerScore; destruct bClassification; lia).
  apply Forall_app. split.
  - unfold cPerScore in *. destruct bClassification; repeat constructor; simpl; lia.
  - apply IH; lia.
Qed.

Lemma samples_reads_in_bounds (k : nat) :
  forall i : Z,
    0 <= i -> i + Z.of_nat k <= cSamples ->
    Forall in_bounds (samples_rd i k).
Proof.
  assert (Hper : 1 <= cPer) by (unfold cPerScore; destruct bClassification; lia).
  induction k as [| k IH]; intros i Hi Hend; cbn [samples_reads]; [constructor |].
  apply Forall_app. split; [| apply IH; lia].
  unfold sample_reads. apply Forall_app. split.
  - repeat constructor; simpl; lia.
  - apply score_reads_in_bounds; unfold gradient_position; [nia |].
    rewrite Z2Nat.id by lia. nia.
Qed.

Lemma stream_reads_in_bounds (q r m : nat) :
  forall k i : Z,
    0 <= i -> 0 <= k ->
    i + Z.of_nat (m * q + r) <= cSamples ->
    k + Z.of_nat m < Z.of_nat cWords ->
    Forall in_bounds (stream_rd q r m k i).
Proof.
  induction m as [| m IH]; intros k i Hi Hk Hend Hwords; cbn [stream_reads].
  - constructor; [simpl; lia |]. apply samples_reads_in_bounds; lia.
  - constructor; [simpl; lia |]. apply Forall_app. split.
    + apply samples_reads_in_bounds; lia.
    + apply IH; lia.
Qed.

End Reads.

(** ** Shape of the buffer and hessians of a regression *)

Lemma map_alter_same {A B : Type} (g : A -> B) (f : A -> A) (l : list A) (i : nat) :
  (forall x, g (f x) = g x) -> map g (alter f i l) = map g l.
Proof.
  intros Hgf. revert i. induction l as [| x l IH]; intros [| i]; simpl; try reflexivity.
  - rewrite Hgf. reflexivity.
  - f_equal. apply IH.
Qed.

Section Frame.
Context {F : Type} `{FloatOps F}.
Variable cScores : Z.
Variable aCountOccurrences : list Z.
Variables aWeights aGH : list F.

Lemma hessians_scores_effect (k : nat) :
  forall (iScore : nat) (weight : F) (pGH : Z) (aPairs : list (GradientPair F)),
    map m_sumHessians (scores_effect false aGH k iScore weight pGH aPairs)
    = map m_sumHessians aPairs.
Proof.
  induction k as [| k IH]; intros iScore weight pGH aPairs; cbn [scores_effect];
    [reflexivity |].
  rewrite IH. apply map_alter_same. reflexivity.
Qed.

Lemma hessians_bins_effect (idxs : list Z) :
  forall (i : Z) (bins : list (Bin F)),
    buffer_hessians (bins_effect false cScores aCountOccurrences aWeights aGH i idxs bins)
    = buffer_hessians bins.
Proof.
  induction idxs as [| idx idxs IH]; intros i bins; cbn [bins_effect]; [reflexivity |].
  rewrite IH. apply map_alter_same.
  intros b. cbn [bin_effect m_aGradientPairs]. apply hessians_scores_effect.
Qed.

Lemma shape_bins_effect (bClassification : bool) (idxs : list Z) :
  forall (i : Z) (bins : list (Bin F)),
    buffer_shape
      (bins_effect bClassification cScores aCountOccurrences aWeights aGH i idxs bins)
    = buffer_shape bins.
Proof.
  induction idxs as [| idx idxs IH]; intros i bins; cbn [bins_effect]; [reflexivity |].
  rewrite IH. apply map_alter_same.
  intros b. cbn [bin_effect m_aGradientPairs].
  apply (length_scores_effect bClassification aGH).
Qed.

End Frame.

(** The gradient offsets read by a regression are consecutive. *)
Lemma regression_score_offsets (k : nat) :
  forall p : Z, gradient_offsets (score_reads false k p) = consecutive p k.
Proof.
  induction k as [| k IH]; intros p; cbn [score_reads consecutive]; [reflexivity |].
  cbn [app gradient_offsets]. rewrite IH. reflexivity.
Qed.

Lemma regression_samples_offsets (cScores : Z) (k : nat) :
  forall i : Z,
    0 <= cScores ->
    gradient_offsets (samples_reads false cScores i k)
    = consecutive (cScores * i) (Z.to_nat cScores * k).
Proof.
  induction k as [| k IH]; intros i Hsc; cbn [samples_reads].
  - rewrite Nat.mul_0_r. reflexivity.
  - unfold sample_reads. rewrite <- app_assoc. cbn [app gradient_offsets].
    rewrite gradient_offsets_app, regression_score_offsets, IH by lia.
    replace (Z.to_nat cScores * S k)%nat
      with (Z.to_nat cScores + Z.to_nat cScores * k)%nat by lia.
    rewrite consecutive_add. unfold gradient_position, cPerScore.
    rewrite Z2Nat.id by lia.
    f_equal; f_equal; lia.
Qed.

Lemma regression_stream_offsets (cScores : Z) (q r m : nat) :
  forall k i : Z,
    0 <= cScores ->
    gradient_offsets (stream_reads false cScores q r m k i)
    = consecutive (cScores * i) (Z.to_nat cScores * (m * q + r)).
Proof.
  induction m as [| m IH]; intros k i Hsc; cbn [stream_reads app gradient_offsets].
  - apply regression_samples_offsets. lia.
  - rewrite gradient_offsets_app, regression_samples_offsets, IH by lia.
    replace (Z.to_nat cScores * (S m * q + r))%nat
      with (Z.to_nat cScores * q + Z.to_nat cScores * (m * q + r))%nat by lia.
    rewrite consecutive_add. f_equal. f_equal. nia.
Qed.

Lemma tail_items_mod (cSamples cItemsPerBitPack : Z) :
  0 < cSamples -> 1 <= cItemsPerBitPack ->
  tail_items cSamples cItemsPerBitPack
  = if cSamples mod cItemsPerBitPack =? 0 then cItemsPerBitPack
    else cSamples mod cItemsPerBitPack.
Proof.
  intros Hn Hq. unfold tail_items.
  pose proof (Z.div_mod (cSamples - 1) cItemsPerBitPack) as H1.
  pose proof (Z.mod_pos_bound (cSamples - 1) cItemsPerBitPack) as H2.
  pose proof (Z.div_mod cSamples cItemsPerBitPack) as H3.
  pose proof (Z.mod_pos_bound cSamples cItemsPerBitPack) as H4.
  destruct (Z.eqb_spec (cSamples mod cItemsPerBitPack) 0) as [Hz | Hnz].
  - assert (Hd : cSamples / cItemsPerBitPack
                 = (cSamples - 1) / cItemsPerBitPack + 1) by nia.
    nia.
  - assert (Hd : cSamples / cItemsPerBitPack = (cSamples - 1) / cItemsPerBitPack)
      by nia.
    nia.
Qed.

(** Three classes, two samples in bin 1: the hessian of a score is read
    at the offset that follows its gradient. *)
Example scenario3_bins :
  option_map
    (fun st => map (fun b => map (fun gp => (m_sumGradients gp, m_sumHessians gp))
                               (m_aGradientPairs b)) (aBins st))
    (BinSumsBoosting 10 scenario3_shell 0 scenario3_bag)
  = Some [ [ (0, 0); (0, 0); (0, 0) ]; [ (14, 140); (19, 190); (24, 240) ] ].
Proof. vm_compute. reflexivity. Qed.

(** ** Contracts of the concrete calls *)

Ltac contract_field :=
  try lazymatch goal with
      | |- Forall ?P ?l =>
          let l' := eval vm_compute in l in
          change (Forall P l'); repeat constructor
      end;
  vm_compute;
  repeat match goal with
         | |- _ /\ _ => split
         | |- Forall _ _ => constructor
         | |- _ = _ => reflexivity
         | |- _ -> False => let Hc := fresh in intro Hc; discriminate Hc
         | |- (_ <= _)%nat => repeat constructor
         | |- (_ < _)%nat => repeat constructor
         end.

Ltac contract :=
  repeat match goal with
         | |- indexed_ok _ _ _ _ _ => constructor
         | |- call_ok _ _ _ => constructor
         end;
  contract_field.

Lemma scenario_contract : indexed_ok (-1) scenario_shell scenario_bag 0 0.
Proof. contract. Qed.

Lemma scenario3_contract : indexed_ok 3 scenario3_shell scenario3_bag 0 0.
Proof. contract. Qed.


(** ** Sums *)

(** The sum of an integer array, element by element from offset [i]. *)
Lemma sum_samples_Z_list (l : list Z) :
  forall (pre : list Z),
    sum_samples (at0 0 (pre ++ l)) (Z.of_nat (length pre)) (length l) = sum_Z l.
Proof.
  induction l as [| x l IH]; intros pre; cbn [length sum_samples sum_Z fold_right];
    [reflexivity |].
  specialize (IH (pre ++ [x])). rewrite <- app_assoc, length_app in IH.
  cbn [app length] in IH.
  replace (Z.of_nat (length pre) + 1) with (Z.of_nat (length pre + 1)) by lia.
  rewrite IH. cbn [fadd Z_FloatOps]. f_equal.
  unfold at0. rewrite deref_nat.
  rewrite lookup_app_r by lia. rewrite Nat.sub_diag. reflexivity.
Qed.

Lemma sum_Z_alter {A : Type} (g : A -> Z) (f : A -> A) (l : list A) :
  forall (i : nat) (x : A),
    l !! i = Some x ->
    sum_Z (map g (alter f i l)) = sum_Z (map g l) - g x + g (f x).
Proof.
  induction l as [| y l IH]; intros [| i] x Hx; try discriminate.
  - assert (Hy : y = x) by (simpl in Hx; congruence). subst x.
    change (sum_Z (map g (alter f 0%nat (y :: l)))) with (g (f y) + sum_Z (map g l)).
    change (sum_Z (map g (y :: l))) with (g y + sum_Z (map g l)). lia.
  - change (sum_Z (map g (alter f (S i) (y :: l))))
      with (g y + sum_Z (map g (alter f i l))).
    change (sum_Z (map g (y :: l))) with (g y + sum_Z (map g l)).
    rewrite (IH i x Hx). lia.
Qed.

Section ExactSums.
Context {F : Type} `{ExactArith F}.

Lemma fadd_zero_r (a : F) : fadd a fzero = a.
Proof. rewrite fadd_comm. apply fadd_zero_l. Qed.

Lemma fsum_alter {A : Type} (g : A -> F) (f : A -> A) (d : F) (l : list A) :
  forall (i : nat) (x : A),
    l !! i = Some x ->
    g (f x) = fadd (g x) d ->
    fsum (map g (alter f i l)) = fadd (fsum (map g l)) d.
Proof.
  induction l as [| y l IH]; intros [| i] x Hx Hg; try discriminate.
  - assert (Hy : y = x) by (simpl in Hx; congruence). subst x.
    change (fsum (map g (alter f 0%nat (y :: l))))
      with (fadd (g (f y)) (fsum (map g l))).
    change (fsum (map g (y :: l))) with (fadd (g y) (fsum (map g l))).
    rewrite Hg, <- !fadd_assoc. f_equal. apply fadd_comm.
  - change (fsum (map g (alter f (S i) (y :: l))))
      with (fadd (g y) (fsum (map g (alter f i l)))).
    change (fsum (map g (y :: l))) with (fadd (g y) (fsum (map g l))).
    rewrite (IH i x Hx Hg). apply fadd_assoc.
Qed.

End ExactSums.


Lemma at0_Forall {A : Type} (P : A -> Prop) (d : A) (l : list A) (i : Z) :
  P d -> Forall P l -> P (at0 d l i).
Proof.
  intros Hd Hl. unfold at0, deref. destruct (i <? 0); [exact Hd |].
  destruct (l !! Z.to_nat i) as [x |] eqn:Hx; [| exact Hd].
  exact (Forall_lookup_1 _ _ _ _ Hl Hx).
Qed.

Lemma sum_Z_lookup_le (l : list Z) :
  Forall (fun x => 0 <= x) l ->
  0 <= sum_Z l /\ forall (i : nat) (x : Z), l !! i = Some x -> x <= sum_Z l.
Proof.
  induction 1 as [| y l Hy Hl [IH0 IH]].
  - split; [reflexivity |]. intros i x Hx. destruct i; discriminate.
  - change (sum_Z (y :: l)) with (y + sum_Z l). split; [lia |].
    intros [| i] x Hx; simpl in Hx.
    + assert (y = x) by congruence. lia.
    + specialize (IH i x Hx). lia.
Qed.

Lemma sum_samples_nonneg (f : Z -> Z) (k : nat) :
  forall i : Z, (forall j, 0 <= f j) -> 0 <= sum_samples f i k.
Proof.
  induction k as [| k IH]; intros i Hf; cbn [sum_samples fadd fzero Z_FloatOps];
    [lia |].
  specialize (IH (i + 1) Hf). specialize (Hf i). lia.
Qed.

(** ** The sample counts of the bins *)

Section Counts.
Context {F : Type} `{FloatOps F}.
Variable bClassification : bool.
Variable cScores : Z.
Variable aCountOccurrences : list Z.
Variables aWeights aGH : list F.

Local Abbreviation effect :=
  (bins_effect bClassification cScores aCountOccurrences aWeights aGH).
Local Abbreviation occurrences_from := (sum_samples (at0 0 aCountOccurrences)).

(** Modulo the word size, the counts grow by the occurrences. *)
Lemma counts_congruent (idxs : list Z) :
  forall (i : Z) (bins : list (Bin F)),
    valid_indices (length bins) idxs ->
    exists k : Z,
      sum_counts (effect i idxs bins)
      = sum_counts bins + occurrences_from i (length idxs) + k * 2 ^ size_t_bits.
Proof.
  induction idxs as [| idx idxs IH]; intros i bins Hvalid;
    cbn [bins_effect length sum_samples fadd fzero Z_FloatOps].
  - exists 0. lia.
  - apply Forall_cons in Hvalid as [Hidx Hrest].
    destruct (lookup_lt_is_Some_2 bins (Z.to_nat idx)) as [b Hb]; [lia |].
    destruct (IH (i + 1)
                (alter (bin_effect bClassification cScores aCountOccurrences aWeights
                          aGH i) (Z.to_nat idx) bins)) as [k Hk].
    { rewrite length_alter. exact Hrest. }
    rewrite Hk.
    assert (Hstep :
      sum_counts (alter (bin_effect bClassification cScores aCountOccurrences
                           aWeights aGH i) (Z.to_nat idx) bins)
      = sum_counts bins - m_cSamples b
        + size_t_wrap (m_cSamples b + at0 0 aCountOccurrences i))
      by (unfold sum_counts; rewrite (sum_Z_alter m_cSamples _ bins _ b Hb);
          reflexivity).
    rewrite Hstep. unfold size_t_wrap.
    set (z := m_cSamples b + at0 0 aCountOccurrences i).
    exists (k - z / 2 ^ size_t_bits).
    pose proof (Z.div_mod z (2 ^ size_t_bits)) as Hdm.
    assert (Hpos : 2 ^ size_t_bits <> 0) by (vm_compute; discriminate).
    specialize (Hdm Hpos). subst z. lia.
Qed.

(** Without overflow, the counts grow by exactly the occurrences. *)
Lemma counts_exact (idxs : list Z) :
  forall (i : Z) (bins : list (Bin F)),
    valid_indices (length bins) idxs ->
    Forall (fun c => 0 <= c) aCountOccurrences ->
    Forall (fun c => 0 <= c) (map m_cSamples bins) ->
    sum_counts bins + occurrences_from i (length idxs) < 2 ^ size_t_bits ->
    sum_counts (effect i idxs bins)
    = sum_counts bins + occurrences_from i (length idxs).
Proof.
  induction idxs as [| idx idxs IH]; intros i bins Hvalid Hocc Hcounts Hsmall;
    cbn [bins_effect length sum_samples fadd fzero Z_FloatOps] in *.
  - lia.
  - apply Forall_cons in Hvalid as [Hidx Hrest].
    destruct (lookup_lt_is_Some_2 bins (Z.to_nat idx)) as [b Hb]; [lia |].
    assert (Ho : forall j, 0 <= at0 0 aCountOccurrences j)
      by (intros j; apply (at0_Forall (fun c => 0 <= c)); [lia | exact Hocc]).
    pose proof (sum_samples_nonneg _ (length idxs) (i + 1) Ho) as Hrest_nonneg.
    destruct (sum_Z_lookup_le _ Hcounts) as [Hsum0 Hle].
    assert (Hb' : map m_cSamples bins !! Z.to_nat idx = Some (m_cSamples b))
      by (rewrite list_lookup_fmap, Hb; reflexivity).
    pose proof (Hle _ _ Hb') as Hcb.
    pose proof (Forall_lookup_1 _ _ _ _ Hcounts Hb') as Hcb0. simpl in Hcb0.
    fold (sum_counts bins) in Hcb, Hsum0.
    assert (Hstep :
      sum_counts (alter (bin_effect bClassification cScores aCountOccurrences
                           aWeights aGH i) (Z.to_nat idx) bins)
      = sum_counts bins + at0 0 aCountOccurrences i).
    { unfold sum_counts. rewrite (sum_Z_alter m_cSamples _ bins _ b Hb).
      cbn [bin_effect m_cSamples]. rewrite size_t_wrap_small; [lia |].
      specialize (Ho i). unfold sum_counts in *. lia. }
    rewrite IH.
    + rewrite Hstep. lia.
    + rewrite length_alter. exact Hrest.
    + exact Hocc.
    + apply Forall_lookup. intros j c Hc.
      rewrite list_lookup_fmap in Hc.
      destruct (decide (Z.to_nat idx = j)) as [Heq | Hne].
      * subst j. rewrite list_lookup_alter_eq, Hb in Hc. simpl in Hc.
        injection Hc as <-. unfold size_t_wrap.
        apply Z.mod_pos_bound. vm_compute. reflexivity.
      * rewrite list_lookup_alter_ne in Hc by exact Hne.
        eapply (Forall_lookup_1 _ _ j c Hcounts).
        rewrite list_lookup_fmap. exact Hc.
    + rewrite Hstep. lia.
Qed.

End Counts.

Lemma zeroed_counts {F : Type} `{FloatOps F} (bins : list (Bin F)) :
  zeroed bins ->
  sum_counts bins = 0 /\ Forall (fun c => 0 <= c) (map m_cSamples bins).
Proof.
  induction 1 as [| b bins (Hc & _) _ [IH0 IH]]; [split; [reflexivity | constructor] |].
  split.
  - change (sum_counts (b :: bins)) with (m_cSamples b + sum_counts bins). lia.
  - constructor; [lia | exact IH].
Qed.

(** * The claims *)

Section Claims.
Context {F : Type} `{FloatOps F} `{EbmInternal}.

Variable cCompilerClasses : Z.
Variable pBoosterShell : BoosterShell F.
Variable pInnerBag : InnerBag F.
Variable compilerBitPack : Z.
Variable iTerm : Z.

Local Abbreviation cSam := (call_samples pBoosterShell).
Local Abbreviation cSco := (call_scores cCompilerClasses pBoosterShell).
Local Abbreviation cItm := (call_items pBoosterShell compilerBitPack iTerm).
Local Abbreviation okCall := (call_ok cCompilerClasses pBoosterShell pInnerBag).
Local Abbreviation okIdx :=
  (indexed_ok cCompilerClasses pBoosterShell pInnerBag compilerBitPack iTerm).
Local Abbreviation bins0 := (m_aBoostingFastBinsTemp pBoosterShell).
Local Abbreviation fuel0 := (Z.to_nat cSam + Z.to_nat cSco)%nat.

(** C8. On a call that satisfies the contract the kernel terminates and
    processes exactly the full sample count: with enough fuel the
    zero-dimension kernel returns after exactly [cSamples] passes of its
    loop, all three input pointers at the end of their arrays; the indexed
    kernel returns after decoding exactly [cSamples] bin indices, one per
    pass of the per-sample body. *)
Theorem kernel_processes_every_sample :
  (okCall ->
   exists fuelMin : nat, forall fuel : nat, (fuelMin <= fuel)%nat ->
     exists st : Locals F,
       BinSumsBoostingZeroDimensions fuel cCompilerClasses pBoosterShell pInnerBag
       = Some st
       /\ Z.of_nat (samples_processed (reads st)) = cSam
       /\ pCountOccurrences st = cSam
       /\ pWeight st = cSam
       /\ pGradientAndHessian st = Z.of_nat (length (call_gradients pBoosterShell)))
  /\
  (okIdx ->
   exists fuelMin : nat, forall fuel : nat, (fuelMin <= fuel)%nat ->
     exists st : Locals F,
       BinSumsBoostingInternal fuel cCompilerClasses compilerBitPack pBoosterShell
         iTerm pInnerBag
       = Some st
       /\ Z.of_nat (samples_processed (reads st)) = cSam
       /\ Z.of_nat (length (call_indices pBoosterShell compilerBitPack iTerm)) = cSam
       /\ pCountOccurrences st = cSam
       /\ pWeight st = cSam
       /\ pGradientAndHessian st = Z.of_nat (length (call_gradients pBoosterShell))).
Proof.
  split.
  - intros Hok. exists fuel0. intros fuel Hfuel.
    exists (zero_result cCompilerClasses pBoosterShell pInnerBag).
    split; [apply BinSumsBoostingZeroDimensions_run; auto; lia |].
    rewrite zero_result_eq by exact Hok.
    cbn [reads pCountOccurrences pWeight pGradientAndHessian].
    destruct (samples_reads_count (call_classification cCompilerClasses) cSco
                (Z.to_nat cSam) 0 []) as (Hcount & _ & _).
    pose proof (ok_samples Hok). pose proof (ok_gradients Hok).
    rewrite Hcount. repeat split; lia.
  - intros Hix. exists fuel0. intros fuel Hfuel.
    exists (indexed_result cCompilerClasses pBoosterShell pInnerBag compilerBitPack iTerm).
    split; [apply BinSumsBoostingInternal_run; auto; lia |].
    rewrite indexed_result_eq by exact Hix.
    cbn [reads pCountOccurrences pWeight pGradientAndHessian].
    pose proof (ok_call Hix) as Hok.
    pose proof (ok_samples Hok). pose proof (ok_gradients Hok).
    pose proof (length_call_indices _ _ _ _ _ Hix) as Hlen.
    destruct (stream_reads_per_word (call_classification cCompilerClasses) cSco
                (Z.to_nat cItm) (Z.to_nat (tail_items cSam cItm))
                (Z.to_nat (full_words cSam cItm)) 0 0) as (_ & _ & Hcount).
    rewrite Hcount. pose proof Hlen as Hlen'. unfold call_indices in Hlen'.
    rewrite length_decode_stream in Hlen'.
    repeat split; lia.
Qed.

(** C2. On an indexed call that satisfies the contract, the last packed
    word contributes [cSamples mod cItemsPerBitPack] decoded samples, or
    [cItemsPerBitPack] when that is zero, every word before it
    contributes [cItemsPerBitPack], exactly [cSamples] samples are
    processed, and every read of the occurrence, weight, packed-word and
    gradient arrays is inside its array. *)
Theorem tail_word_is_bounded :
  okIdx ->
  exists fuelMin : nat, forall fuel : nat, (fuelMin <= fuel)%nat ->
    exists st : Locals F,
      BinSumsBoostingInternal fuel cCompilerClasses compilerBitPack pBoosterShell
        iTerm pInnerBag
      = Some st
      /\ decoded_per_word (reads st)
         = replicate (Z.to_nat (full_words cSam cItm)) (Z.to_nat cItm)
           ++ [Z.to_nat (if cSam mod cItm =? 0 then cItm else cSam mod cItm)]
      /\ Z.of_nat (samples_processed (reads st)) = cSam
      /\ Forall
           (read_in_bounds
              (length (m_aCountOccurrences pInnerBag))
              (length (m_aWeights pInnerBag))
              (length (call_words pBoosterShell iTerm))
              (length (call_gradients pBoosterShell)))
           (reads st).
Proof.
  intros Hix. exists fuel0. intros fuel Hfuel.
  exists (indexed_result cCompilerClasses pBoosterShell pInnerBag compilerBitPack iTerm).
  split; [apply BinSumsBoostingInternal_run; auto; lia |].
  rewrite indexed_result_eq by exact Hix. cbn [reads].
  pose proof (ok_call Hix) as Hok.
  pose proof (ok_samples Hok) as Hn. pose proof (ok_items Hix) as Hq.
  pose proof (tail_items_bounds _ _ _ (proj1 Hq)) as Hr.
  pose proof (words_and_tail _ _ _ (proj1 Hq)) as Hsum.
  assert (Hm : 0 <= full_words cSam cItm)
    by (unfold full_words; apply Z.div_pos; lia).
  destruct (stream_reads_per_word (call_classification cCompilerClasses) cSco
              (Z.to_nat cItm) (Z.to_nat (tail_items cSam cItm))
              (Z.to_nat (full_words cSam cItm)) 0 0) as (Hwords & _ & Hcount).
  rewrite Hwords, Hcount, <- tail_items_mod by lia.
  repeat split; [nia |].
  apply (stream_reads_in_bounds (call_classification cCompilerClasses) cSco
           _ _ _ _ cSam (ok_scores Hok) (ok_occurrences Hok) (ok_weights Hok)
           (ok_gradients Hok)); try lia; try nia.
  rewrite (ok_words Hix). lia.
Qed.

(** C10. A call of a kernel instantiated for regression reads the
    gradient array at consecutive offsets (stride 1: offset [cScores * i + s]
    for sample [i] and score [s], nothing in between), and leaves the
    hessian sum of every gradient pair of every bin, and the number of
    bins and of pairs, as they were. *)
Theorem regression_reads_no_hessian :
  IsClassification cCompilerClasses = false ->
  (okCall ->
   exists fuelMin : nat, forall fuel : nat, (fuelMin <= fuel)%nat ->
     exists st : Locals F,
       BinSumsBoostingZeroDimensions fuel cCompilerClasses pBoosterShell pInnerBag
       = Some st
       /\ gradient_offsets (reads st) = consecutive 0 (Z.to_nat (cSco * cSam))
       /\ buffer_hessians (aBins st) = buffer_hessians bins0
       /\ buffer_shape (aBins st) = buffer_shape bins0)
  /\
  (okIdx ->
   exists fuelMin : nat, forall fuel : nat, (fuelMin <= fuel)%nat ->
     exists st : Locals F,
       BinSumsBoostingInternal fuel cCompilerClasses compilerBitPack pBoosterShell
         iTerm pInnerBag
       = Some st
       /\ gradient_offsets (reads st) = consecutive 0 (Z.to_nat (cSco * cSam))
       /\ buffer_hessians (aBins st) = buffer_hessians bins0
       /\ buffer_shape (aBins st) = buffer_shape bins0).
Proof.
  intros Hreg. split.
  - intros Hok. exists fuel0. intros fuel Hfuel.
    exists (zero_result cCompilerClasses pBoosterShell pInnerBag).
    split; [apply BinSumsBoostingZeroDimensions_run; auto; lia |].
    rewrite zero_result_eq by exact Hok. cbn [reads aBins].
    pose proof (ok_samples Hok). pose proof (ok_scores Hok).
    unfold call_classification. rewrite Hreg.
    rewrite regression_samples_offsets, hessians_bins_effect, shape_bins_effect by lia.
    repeat split. f_equal; nia.
  - intros Hix. exists fuel0. intros fuel Hfuel.
    exists (indexed_result cCompilerClasses pBoosterShell pInnerBag compilerBitPack iTerm).
    split; [apply BinSumsBoostingInternal_run; auto; lia |].
    rewrite indexed_result_eq by exact Hix. cbn [reads aBins].
    pose proof (ok_call Hix) as Hok.
    pose proof (ok_samples Hok) as Hn. pose proof (ok_scores Hok).
    pose proof (ok_items Hix) as Hq.
    pose proof (tail_items_bounds _ _ _ (proj1 Hq)) as Hr.
    pose proof (words_and_tail _ _ _ (proj1 Hq)) as Hsum.
    assert (Hm : 0 <= full_words cSam cItm)
      by (unfold full_words; apply Z.div_pos; lia).
    unfold call_classification. rewrite Hreg.
    rewrite regression_stream_offsets, hessians_bins_effect, shape_bins_effect by lia.
    repeat split. f_equal; nia.
Qed.

End Claims.

(** The scenario of the specification satisfies the contract: five
    samples, four items per word, so one full word and a tail of one. *)
Lemma kernel_processes_every_sample_witness :
  (exists fuelMin : nat, forall fuel : nat, (fuelMin <= fuel)%nat ->
     exists st : Locals Z,
       BinSumsBoostingZeroDimensions fuel (-1) scenario_shell scenario_bag = Some st
       /\ Z.of_nat (samples_processed (reads st)) = 5
       /\ pCountOccurrences st = 5 /\ pWeight st = 5
       /\ pGradientAndHessian st = 5)
  /\
  (exists fuelMin : nat, forall fuel : nat, (fuelMin <= fuel)%nat ->
     exists st : Locals Z,
       BinSumsBoostingInternal fuel (-1) 0 scenario_shell 0 scenario_bag = Some st
       /\ Z.of_nat (samples_processed (reads st)) = 5
       /\ Z.of_nat (length (call_indices scenario_shell 0 0)) = 5
       /\ pCountOccurrences st = 5 /\ pWeight st = 5
       /\ pGradientAndHessian st = 5).
Proof.
  destruct (kernel_processes_every_sample (-1) scenario_shell scenario_bag 0 0)
    as [Hzero Hindexed].
  split; [apply Hzero | apply Hindexed]; contract.
Defined.

Lemma tail_word_is_bounded_witness :
  exists fuelMin : nat, forall fuel : nat, (fuelMin <= fuel)%nat ->
    exists st : Locals Z,
      BinSumsBoostingInternal fuel (-1) 0 scenario_shell 0 scenario_bag = Some st
      /\ decoded_per_word (reads st) = [4%nat; 1%nat]
      /\ Z.of_nat (samples_processed (reads st)) = 5
      /\ Forall (read_in_bounds 5 5 2 5) (reads st).
Proof.
  assert (Hcontract : indexed_ok (-1) scenario_shell scenario_bag 0 0) by contract.
  exact (tail_word_is_bounded (-1) scenario_shell scenario_bag 0 0 Hcontract).
Defined.

Lemma regression_reads_no_hessian_witness :
  (exists fuelMin : nat, forall fuel : nat, (fuelMin <= fuel)%nat ->
     exists st : Locals Z,
       BinSumsBoostingZeroDimensions fuel (-1) scenario_shell scenario_bag = Some st
       /\ gradient_offsets (reads st) = [0; 1; 2; 3; 4]
       /\ buffer_hessians (aBins st) = [[0]; [0]; [0]; [0]]
       /\ buffer_shape (aBins st) = [1%nat; 1%nat; 1%nat; 1%nat])
  /\
  (exists fuelMin : nat, forall fuel : nat, (fuelMin <= fuel)%nat ->
     exists st : Locals Z,
       BinSumsBoostingInternal fuel (-1) 0 scenario_shell 0 scenario_bag = Some st
       /\ gradient_offsets (reads st) = [0; 1; 2; 3; 4]
       /\ buffer_hessians (aBins st) = [[0]; [0]; [0]; [0]]
       /\ buffer_shape (aBins st) = [1%nat; 1%nat; 1%nat; 1%nat]).
Proof.
  destruct (regression_reads_no_hessian (-1) scenario_shell scenario_bag 0 0)
    as [Hzero Hindexed]; [reflexivity |].
  split; [apply Hzero | apply Hindexed]; contract.
Defined.

Section CountClaim.
Context {F : Type} `{FloatOps F} `{EbmInternal}.

Variable cCompilerClasses : Z.
Variable pBoosterShell : BoosterShell F.
Variable pInnerBag : InnerBag F.
Variable compilerBitPack : Z.
Variable iTerm : Z.

Local Abbreviation cSam := (call_samples pBoosterShell).
Local Abbreviation cSco := (call_scores cCompilerClasses pBoosterShell).
Local Abbreviation okCall := (call_ok cCompilerClasses pBoosterShell pInnerBag).
Local Abbreviation okIdx :=
  (indexed_ok cCompilerClasses pBoosterShell pInnerBag compilerBitPack iTerm).
Local Abbreviation bins0 := (m_aBoostingFastBinsTemp pBoosterShell).
Local Abbreviation fuel0 := (Z.to_nat cSam + Z.to_nat cSco)%nat.
Local Abbreviation occurrences := (m_aCountOccurrences pInnerBag).

Lemma counts_after (idxs : list Z) :
  okCall ->
  zeroed bins0 ->
  valid_indices (length bins0) idxs ->
  Z.of_nat (length idxs) = cSam ->
  let bins :=
    bins_effect (call_classification cCompilerClasses) cSco occurrences
      (m_aWeights pInnerBag) (call_gradients pBoosterShell) 0 idxs bins0 in
  sum_counts bins mod 2 ^ size_t_bits = sum_Z occurrences mod 2 ^ size_t_bits
  /\ (sum_Z occurrences < 2 ^ size_t_bits -> sum_counts bins = sum_Z occurrences).
Proof.
  intros Hok Hzero Hvalid Hlen bins.
  destruct (zeroed_counts _ Hzero) as [Hsum0 Hcounts].
  assert (Hn : length idxs = length occurrences)
    by (pose proof (ok_occurrences Hok); lia).
  pose proof (sum_samples_Z_list occurrences []) as Hocc.
  cbn [app length] in Hocc. change (Z.of_nat 0) with 0 in Hocc.
  split.
  - destruct (counts_congruent (call_classification cCompilerClasses) cSco occurrences
                (m_aWeights pInnerBag) (call_gradients pBoosterShell) idxs 0 bins0
                Hvalid) as [k Hk].
    subst bins. rewrite Hk, Hsum0, Hn, Hocc.
    rewrite Z.add_0_l. apply Z_mod_plus_full.
  - intros Hsmall. subst bins.
    rewrite counts_exact; rewrite ?Hsum0, ?Hn, ?Hocc; auto; try lia.
    eapply Forall_impl; [apply (ok_occurrence_range Hok) |].
    simpl. intros c Hc. lia.
Qed.

(** C3, amended. On a zeroed bin buffer, after one pass of either kernel
    the sum of [countSamples] over the bins equals the sum of the
    occurrence counts modulo [2^64], the word size in which each bin
    counts, and equals it as an integer whenever the occurrence counts add
    up to less than [2^64]. *)
Theorem counts_sum_to_occurrences :
  zeroed bins0 ->
  (okCall ->
   exists fuelMin : nat, forall fuel : nat, (fuelMin <= fuel)%nat ->
     exists st : Locals F,
       BinSumsBoostingZeroDimensions fuel cCompilerClasses pBoosterShell pInnerBag
       = Some st
       /\ sum_counts (aBins st) mod 2 ^ size_t_bits
          = sum_Z occurrences mod 2 ^ size_t_bits
       /\ (sum_Z occurrences < 2 ^ size_t_bits ->
           sum_counts (aBins st) = sum_Z occurrences))
  /\
  (okIdx ->
   exists fuelMin : nat, forall fuel : nat, (fuelMin <= fuel)%nat ->
     exists st : Locals F,
       BinSumsBoostingInternal fuel cCompilerClasses compilerBitPack pBoosterShell
         iTerm pInnerBag
       = Some st
       /\ sum_counts (aBins st) mod 2 ^ size_t_bits
          = sum_Z occurrences mod 2 ^ size_t_bits
       /\ (sum_Z occurrences < 2 ^ size_t_bits ->
           sum_counts (aBins st) = sum_Z occurrences)).
Proof.
  intros Hzero. split.
  - intros Hok. exists fuel0. intros fuel Hfuel.
    exists (zero_result cCompilerClasses pBoosterShell pInnerBag).
    split; [apply BinSumsBoostingZeroDimensions_run; auto; lia |].
    rewrite zero_result_eq by exact Hok. cbn [aBins].
    pose proof (ok_samples Hok). pose proof (ok_bins Hok).
    apply counts_after; auto.
    + apply Forall_replicate. lia.
    + rewrite length_replicate. lia.
  - intros Hix. exists fuel0. intros fuel Hfuel.
    exists (indexed_result cCompilerClasses pBoosterShell pInnerBag compilerBitPack iTerm).
    split; [apply BinSumsBoostingInternal_run; auto; lia |].
    rewrite indexed_result_eq by exact Hix. cbn [aBins].
    apply counts_after.
    + exact (ok_call Hix).
    + exact Hzero.
    + exact (ok_indices Hix).
    + exact (length_call_indices _ _ _ _ _ Hix).
Qed.

End CountClaim.

Ltac zeroed_buffer := vm_compute; repeat constructor.

Lemma counts_sum_to_occurrences_witness :
  (exists fuelMin : nat, forall fuel : nat, (fuelMin <= fuel)%nat ->
     exists st : Locals Z,
       BinSumsBoostingZeroDimensions fuel (-1) scenario_shell scenario_bag = Some st
       /\ sum_counts (aBins st) mod 2 ^ size_t_bits = 5 mod 2 ^ size_t_bits
       /\ (5 < 2 ^ size_t_bits -> sum_counts (aBins st) = 5))
  /\
  (exists fuelMin : nat, forall fuel : nat, (fuelMin <= fuel)%nat ->
     exists st : Locals Z,
       BinSumsBoostingInternal fuel (-1) 0 scenario_shell 0 scenario_bag = Some st
       /\ sum_counts (aBins st) mod 2 ^ size_t_bits = 5 mod 2 ^ size_t_bits
       /\ (5 < 2 ^ size_t_bits -> sum_counts (aBins st) = 5)).
Proof.
  destruct (counts_sum_to_occurrences (-1) scenario_shell scenario_bag 0 0)
    as [Hzero Hindexed]; [zeroed_buffer |].
  split; [apply Hzero | apply Hindexed]; contract.
Defined.

(** C3 as stated fails when a bin's count wraps: two samples with
    [2^63] occurrences each leave the single zeroed bin with count 0. *)
Lemma counts_overflow_counterexample :
  call_ok (-1) overflow_shell overflow_bag
  /\ zeroed (m_aBoostingFastBinsTemp overflow_shell)
  /\ exists st : Locals Z,
       BinSumsBoostingZeroDimensions 2 (-1) overflow_shell overflow_bag = Some st
       /\ sum_counts (aBins st) = 0
       /\ sum_Z (m_aCountOccurrences overflow_bag) = 2 ^ 64
       /\ sum_counts (aBins st) <> sum_Z (m_aCountOccurrences overflow_bag).
Proof.
  split; [contract |]. split; [zeroed_buffer |].
  eexists. split; [vm_compute; reflexivity |].
  vm_compute. repeat split; discriminate.
Qed.

(** ** The gradient and hessian sums of the bins *)

Section PairSums.
Context {F : Type} `{FloatOps F}.
Variable bClassification : bool.
Variable cScores : Z.
Variable aCountOccurrences : list Z.
Variables aWeights aGH : list F.

Local Abbreviation cPer := (cPerScore bClassification).

(** Pair [s] after [k] passes of the per-score loop from [iScore]. *)
Lemma lookup_scores_effect (k : nat) :
  forall (iScore : nat) (weight : F) (pGH : Z) (aPairs : list (GradientPair F))
         (s : nat),
    scores_effect bClassification aGH k iScore weight pGH aPairs !! s
    = if (iScore <=? s)%nat && (s <? iScore + k)%nat
      then pair_effect bClassification aGH weight
             (pGH + cPer * Z.of_nat (s - iScore)) <$> aPairs !! s
      else aPairs !! s.
Proof.
  induction k as [| k IH]; intros iScore weight pGH aPairs s; cbn [scores_effect].
  - destruct (Nat.leb_spec iScore s), (Nat.ltb_spec s (iScore + 0)); simpl;
      try reflexivity; lia.
  - rewrite IH.
    destruct (Nat.leb_spec (S iScore) s) as [Hlo | Hlo],
             (Nat.ltb_spec s (S iScore + k)) as [Hhi | Hhi],
             (Nat.leb_spec iScore s) as [Hlo' | Hlo'],
             (Nat.ltb_spec s (iScore + S k)) as [Hhi' | Hhi'];
      cbn [andb]; try lia.
    + rewrite list_lookup_alter_ne by lia.
      replace (Z.of_nat (s - iScore)) with (Z.of_nat (s - S iScore) + 1) by lia.
      replace (pGH + cPer + cPer * Z.of_nat (s - S iScore))
        with (pGH + cPer * (Z.of_nat (s - S iScore) + 1)) by lia.
      reflexivity.
    + apply list_lookup_alter_ne. lia.
    + assert (s = iScore) by lia. subst s.
      rewrite list_lookup_alter_eq, Nat.sub_diag.
      change (Z.of_nat 0) with 0. rewrite Z.mul_0_r, Z.add_0_r. reflexivity.
    + apply list_lookup_alter_ne. lia.
Qed.

(** Pair [s] of a bin after sample [i] was added to it. *)
Lemma pair_at_bin_effect (i s : Z) (b : Bin F) :
  0 <= s < cScores ->
  cScores <= Z.of_nat (length (m_aGradientPairs b)) ->
  pair_at s (bin_effect bClassification cScores aCountOccurrences aWeights aGH i b)
  = pair_effect bClassification aGH (at0 fzero aWeights i)
      (gradient_position bClassification cScores i s) (pair_at s b).
Proof.
  intros Hs Hlen. unfold pair_at, at0, deref.
  destruct (Z.ltb_spec s 0) as [Hneg | _]; [lia |].
  cbn [bin_effect m_aGradientPairs]. rewrite lookup_scores_effect.
  destruct (Nat.leb_spec 0 (Z.to_nat s)) as [_ | Hlo]; [| lia].
  destruct (Nat.ltb_spec (Z.to_nat s) (0 + Z.to_nat cScores)) as [_ | Hhi]; [| lia].
  cbn [andb].
  destruct (lookup_lt_is_Some_2 (m_aGradientPairs b) (Z.to_nat s)) as [gp Hgp]; [lia |].
  rewrite Hgp. cbn [fmap option_fmap option_map default].
  unfold id.
  replace (gradient_position bClassification cScores i 0
           + cPer * Z.of_nat (Z.to_nat s - 0))
    with (gradient_position bClassification cScores i s); [reflexivity |].
  unfold gradient_position. rewrite Nat.sub_0_r, Z2Nat.id by lia. ring.
Qed.

End PairSums.

Section SumsOfPairs.
Context {F : Type} `{ExactArith F}.
Variable bClassification : bool.
Variable cScores : Z.
Variable aCountOccurrences : list Z.
Variables aWeights aGH : list F.

Local Abbreviation effect :=
  (bins_effect bClassification cScores aCountOccurrences aWeights aGH).

Lemma sum_gradients_effect (s : Z) (idxs : list Z) :
  forall (i : Z) (bins : list (Bin F)),
    0 <= s < cScores ->
    valid_indices (length bins) idxs ->
    pairs_ok cScores bins ->
    sum_gradients s (effect i idxs bins)
    = fadd (sum_gradients s bins)
        (sum_samples (weighted_gradient bClassification cScores aWeights aGH s)
           i (length idxs)).
Proof.
  induction idxs as [| idx idxs IH]; intros i bins Hs Hvalid Hok;
    cbn [bins_effect length sum_samples].
  - symmetry. apply fadd_zero_r.
  - apply Forall_cons in Hvalid as [Hidx Hrest].
    destruct (lookup_lt_is_Some_2 bins (Z.to_nat idx)) as [b Hb]; [lia |].
    rewrite IH; auto.
    + rewrite fadd_assoc. f_equal. unfold sum_gradients.
      apply (fsum_alter _ _ _ bins _ b Hb).
      rewrite pair_at_bin_effect; [reflexivity | exact Hs |].
      exact (Forall_lookup_1 _ _ _ _ Hok Hb).
    + rewrite length_alter. exact Hrest.
    + apply pairs_ok_alter. exact Hok.
Qed.

Lemma sum_hessians_effect (s : Z) (idxs : list Z) :
  forall (i : Z) (bins : list (Bin F)),
    bClassification = true ->
    0 <= s < cScores ->
    valid_indices (length bins) idxs ->
    pairs_ok cScores bins ->
    sum_hessians s (effect i idxs bins)
    = fadd (sum_hessians s bins)
        (sum_samples (weighted_hessian bClassification cScores aWeights aGH s)
           i (length idxs)).
Proof.
  induction idxs as [| idx idxs IH]; intros i bins Hcls Hs Hvalid Hok;
    cbn [bins_effect length sum_samples].
  - symmetry. apply fadd_zero_r.
  - apply Forall_cons in Hvalid as [Hidx Hrest].
    destruct (lookup_lt_is_Some_2 bins (Z.to_nat idx)) as [b Hb]; [lia |].
    rewrite IH; auto.
    + rewrite fadd_assoc. f_equal. unfold sum_hessians.
      apply (fsum_alter _ _ _ bins _ b Hb).
      rewrite pair_at_bin_effect; [| exact Hs |].
      * unfold pair_effect, weighted_hessian. rewrite Hcls. reflexivity.
      * exact (Forall_lookup_1 _ _ _ _ Hok Hb).
    + rewrite length_alter. exact Hrest.
    + apply pairs_ok_alter. exact Hok.
Qed.

Lemma zeroed_pair_sums (s : Z) (bins : list (Bin F)) :
  zeroed bins -> sum_gradients s bins = fzero /\ sum_hessians s bins = fzero.
Proof.
  induction 1 as [| b bins (_ & _ & Hpairs) _ [IHg IHh]]; [split; reflexivity |].
  assert (Hgp : m_sumGradients (pair_at s b) = fzero
                /\ m_sumHessians (pair_at s b) = fzero).
  { unfold pair_at.
    apply (at0_Forall
             (fun gp => m_sumGradients gp = fzero /\ m_sumHessians gp = fzero));
      [split; reflexivity | exact Hpairs]. }
  destruct Hgp as [Hg Hh]. split.
  - change (sum_gradients s (b :: bins))
      with (fadd (m_sumGradients (pair_at s b)) (sum_gradients s bins)).
    rewrite Hg, IHg. apply fadd_zero_l.
  - change (sum_hessians s (b :: bins))
      with (fadd (m_sumHessians (pair_at s b)) (sum_hessians s bins)).
    rewrite Hh, IHh. apply fadd_zero_l.
Qed.

End SumsOfPairs.

Section SumClaim.
Context {F : Type} `{ExactArith F} `{EbmInternal}.

Variable cCompilerClasses : Z.
Variable pBoosterShell : BoosterShell F.
Variable pInnerBag : InnerBag F.
Variable compilerBitPack : Z.
Variable iTerm : Z.

Local Abbreviation cSam := (call_samples pBoosterShell).
Local Abbreviation cSco := (call_scores cCompilerClasses pBoosterShell).
Local Abbreviation bCls := (call_classification cCompilerClasses).
Local Abbreviation okCall := (call_ok cCompilerClasses pBoosterShell pInnerBag).
Local Abbreviation okIdx :=
  (indexed_ok cCompilerClasses pBoosterShell pInnerBag compilerBitPack iTerm).
Local Abbreviation bins0 := (m_aBoostingFastBinsTemp pBoosterShell).
Local Abbreviation fuel0 := (Z.to_nat cSam + Z.to_nat cSco)%nat.
Local Abbreviation gradients_of s :=
  (sum_samples
     (weighted_gradient bCls cSco (m_aWeights pInnerBag)
        (call_gradients pBoosterShell) s) 0 (Z.to_nat cSam)).
Local Abbreviation hessians_of s :=
  (sum_samples
     (weighted_hessian bCls cSco (m_aWeights pInnerBag)
        (call_gradients pBoosterShell) s) 0 (Z.to_nat cSam)).

Lemma sums_after (s : Z) (idxs : list Z) :
  okCall ->
  0 <= s < cSco ->
  valid_indices (length bins0) idxs ->
  Z.of_nat (length idxs) = cSam ->
  let bins :=
    bins_effect bCls cSco (m_aCountOccurrences pInnerBag)
      (m_aWeights pInnerBag) (call_gradients pBoosterShell) 0 idxs bins0 in
  sum_gradients s bins = fadd (sum_gradients s bins0) (gradients_of s)
  /\ (bCls = true ->
      sum_hessians s bins = fadd (sum_hessians s bins0) (hessians_of s))
  /\ (zeroed bins0 ->
      sum_gradients s bins = gradients_of s
      /\ (bCls = true -> sum_hessians s bins = hessians_of s)).
Proof.
  intros Hok Hs Hvalid Hlen bins.
  assert (Hpairs : pairs_ok cSco bins0).
  { eapply Forall_impl; [apply (ok_pairs Hok) |]. simpl. intros b Hb. lia. }
  assert (Hn : length idxs = Z.to_nat cSam) by lia.
  assert (Hg : sum_gradients s bins = fadd (sum_gradients s bins0) (gradients_of s))
    by (subst bins; rewrite sum_gradients_effect, Hn; auto).
  assert (Hh : bCls = true ->
               sum_hessians s bins = fadd (sum_hessians s bins0) (hessians_of s))
    by (intros Hcls; subst bins; rewrite sum_hessians_effect, Hn; auto).
  split; [exact Hg |]. split; [exact Hh |].
  intros Hzero. destruct (zeroed_pair_sums s bins0 Hzero) as [Hg0 Hh0].
  split.
  - rewrite Hg, Hg0. apply fadd_zero_l.
  - intros Hcls. rewrite (Hh Hcls), Hh0. apply fadd_zero_l.
Qed.

(** C1, amended. In an arithmetic whose addition is associative and
    commutative with unit 0, for every call of either kernel and every
    score [s], the final sum of [gradientPairs[s].sumGradients] over the
    bins is the sum it had at entry plus the sum over the samples [i] of
    [gradient(i,s) * weight[i]], the gradient read at its interleaved
    position; for classification the same holds of [sumHessians] with the
    hessian read at the next position; on a zeroed buffer the final sums
    are the weighted sums themselves. *)
Theorem weighted_sums_accumulate (s : Z) :
  0 <= s < cSco ->
  (okCall ->
   exists fuelMin : nat, forall fuel : nat, (fuelMin <= fuel)%nat ->
     exists st : Locals F,
       BinSumsBoostingZeroDimensions fuel cCompilerClasses pBoosterShell pInnerBag
       = Some st
       /\ sum_gradients s (aBins st) = fadd (sum_gradients s bins0) (gradients_of s)
       /\ (IsClassification cCompilerClasses = true ->
           sum_hessians s (aBins st) = fadd (sum_hessians s bins0) (hessians_of s))
       /\ (zeroed bins0 ->
           sum_gradients s (aBins st) = gradients_of s
           /\ (IsClassification cCompilerClasses = true ->
               sum_hessians s (aBins st) = hessians_of s)))
  /\
  (okIdx ->
   exists fuelMin : nat, forall fuel : nat, (fuelMin <= fuel)%nat ->
     exists st : Locals F,
       BinSumsBoostingInternal fuel cCompilerClasses compilerBitPack pBoosterShell
         iTerm pInnerBag
       = Some st
       /\ sum_gradients s (aBins st) = fadd (sum_gradients s bins0) (gradients_of s)
       /\ (IsClassification cCompilerClasses = true ->
           sum_hessians s (aBins st) = fadd (sum_hessians s bins0) (hessians_of s))
       /\ (zeroed bins0 ->
           sum_gradients s (aBins st) = gradients_of s
           /\ (IsClassification cCompilerClasses = true ->
               sum_hessians s (aBins st) = hessians_of s))).
Proof.
  intros Hs. split.
  - intros Hok. exists fuel0. intros fuel Hfuel.
    exists (zero_result cCompilerClasses pBoosterShell pInnerBag).
    split; [apply BinSumsBoostingZeroDimensions_run; auto; lia |].
    rewrite zero_result_eq by exact Hok. cbn [aBins].
    pose proof (ok_samples Hok). pose proof (ok_bins Hok).
    apply sums_after; auto.
    + apply Forall_replicate. lia.
    + rewrite length_replicate. lia.
  - intros Hix. exists fuel0. intros fuel Hfuel.
    exists (indexed_result cCompilerClasses pBoosterShell pInnerBag compilerBitPack iTerm).
    split; [apply BinSumsBoostingInternal_run; auto; lia |].
    rewrite indexed_result_eq by exact Hix. cbn [aBins].
    apply sums_after.
    + exact (ok_call Hix).
    + exact Hs.
    + exact (ok_indices Hix).
    + exact (length_call_indices _ _ _ _ _ Hix).
Qed.

End SumClaim.

(** Three classes, score 1: the gradients 2 and 5 with weights 2 and 3
    sum to 19, the hessians 20 and 50 to 190. *)
Lemma weighted_sums_accumulate_witness :
  (exists fuelMin : nat, forall fuel : nat, (fuelMin <= fuel)%nat ->
     exists st : Locals Z,
       BinSumsBoostingZeroDimensions fuel 3 scenario3_shell scenario3_bag = Some st
       /\ sum_gradients 1 (aBins st) = 0 + 19
       /\ (true = true -> sum_hessians 1 (aBins st) = 0 + 190)
       /\ (zeroed (m_aBoostingFastBinsTemp scenario3_shell) ->
           sum_gradients 1 (aBins st) = 19
           /\ (true = true -> sum_hessians 1 (aBins st) = 190)))
  /\
  (exists fuelMin : nat, forall fuel : nat, (fuelMin <= fuel)%nat ->
     exists st : Locals Z,
       BinSumsBoostingInternal fuel 3 0 scenario3_shell 0 scenario3_bag = Some st
       /\ sum_gradients 1 (aBins st) = 0 + 19
       /\ (true = true -> sum_hessians 1 (aBins st) = 0 + 190)
       /\ (zeroed (m_aBoostingFastBinsTemp scenario3_shell) ->
           sum_gradients 1 (aBins st) = 19
           /\ (true = true -> sum_hessians 1 (aBins st) = 190))).
Proof.
  destruct (weighted_sums_accumulate 3 scenario3_shell scenario3_bag 0 0 1)
    as [Hzero Hindexed]; [vm_compute; split; [discriminate | reflexivity] |].
  split; [exact (Hzero ltac:(contract)) | exact (Hindexed ltac:(contract))].
Defined.

(** C1 as stated fails on a buffer that is not zeroed: the kernel adds
    to what the bin holds. *)
Lemma carried_sum_counterexample :
  call_ok (-1) carried_shell carried_bag
  /\ exists st : Locals Z,
       BinSumsBoostingZeroDimensions 1 (-1) carried_shell carried_bag = Some st
       /\ sum_gradients 0 (aBins st) = 8
       /\ sum_samples
            (weighted_gradient false 1 (m_aWeights carried_bag)
               (call_gradients carried_shell) 0) 0 1 = 3
       /\ sum_gradients 0 (aBins st)
          <> sum_samples
               (weighted_gradient false 1 (m_aWeights carried_bag)
                  (call_gradients carried_shell) 0) 0 1.
Proof.
  split; [contract |].
  eexists. split; [vm_compute; reflexivity |].
  vm_compute. repeat split; discriminate.
Qed.

(** ** The two kernels on a single-cell term *)

Lemma all_zero_replicate (l : list Z) :
  Forall (fun idx => 0 <= idx < 1) l -> l = replicate (length l) 0.
Proof.
  induction 1 as [| x l Hx _ IH]; [reflexivity |].
  cbn [length replicate]. rewrite <- IH. f_equal. lia.
Qed.

Section SingleCell.
Context {F : Type} `{FloatOps F} `{EbmInternal}.

Variable cCompilerClasses : Z.
Variable pBoosterShell : BoosterShell F.
Variable pInnerBag : InnerBag F.
Variable compilerBitPack : Z.
Variable iTerm : Z.

Local Abbreviation cSam := (call_samples pBoosterShell).
Local Abbreviation cSco := (call_scores cCompilerClasses pBoosterShell).
Local Abbreviation okIdx :=
  (indexed_ok cCompilerClasses pBoosterShell pInnerBag compilerBitPack iTerm).
Local Abbreviation bins0 := (m_aBoostingFastBinsTemp pBoosterShell).
Local Abbreviation fuel0 := (Z.to_nat cSam + Z.to_nat cSco)%nat.

(** C6. When the buffer has one bin, so that every sample's decoded bin
    index is 0, the indexed kernel and the zero-dimension kernel leave the
    same buffer: the same [countSamples], [weight] and gradient pairs,
    computed by the same operations in the same order (no law of the
    arithmetic is used). *)
Theorem single_cell_paths_agree :
  okIdx ->
  length bins0 = 1%nat ->
  exists fuelMin : nat, forall fuel : nat, (fuelMin <= fuel)%nat ->
    exists stIndexed stZero : Locals F,
      BinSumsBoostingInternal fuel cCompilerClasses compilerBitPack pBoosterShell
        iTerm pInnerBag
      = Some stIndexed
      /\ BinSumsBoostingZeroDimensions fuel cCompilerClasses pBoosterShell pInnerBag
         = Some stZero
      /\ Forall (fun idx => idx = 0) (call_indices pBoosterShell compilerBitPack iTerm)
      /\ aBins stIndexed = aBins stZero.
Proof.
  intros Hix Hone. pose proof (ok_call Hix) as Hok.
  exists fuel0. intros fuel Hfuel.
  exists (indexed_result cCompilerClasses pBoosterShell pInnerBag compilerBitPack iTerm),
         (zero_result cCompilerClasses pBoosterShell pInnerBag).
  split; [apply BinSumsBoostingInternal_run; auto; lia |].
  split; [apply BinSumsBoostingZeroDimensions_run; auto; lia |].
  pose proof (ok_indices Hix) as Hvalid. rewrite Hone in Hvalid.
  pose proof (all_zero_replicate _ Hvalid) as Hzeros.
  pose proof (length_call_indices _ _ _ _ _ Hix) as Hlen.
  split.
  - eapply Forall_impl; [exact Hvalid |]. simpl. intros idx Hidx. lia.
  - rewrite indexed_result_eq, zero_result_eq by assumption. cbn [aBins].
    rewrite Hzeros. do 2 f_equal. lia.
Qed.

End SingleCell.

Lemma single_cell_paths_agree_witness :
  exists fuelMin : nat, forall fuel : nat, (fuelMin <= fuel)%nat ->
    exists stIndexed stZero : Locals Z,
      BinSumsBoostingInternal fuel 3 0 single_shell 0 single_bag = Some stIndexed
      /\ BinSumsBoostingZeroDimensions fuel 3 single_shell single_bag = Some stZero
      /\ Forall (fun idx => idx = 0) (call_indices single_shell 0 0)
      /\ aBins stIndexed = aBins stZero.
Proof.
  apply (single_cell_paths_agree 3 single_shell single_bag 0 0);
    [contract | reflexivity].
Defined.

(** ** More fuel *)

Section Fuel.
Context {F : Type} `{FloatOps F} `{EbmInternal}.

(** More fuel never changes a result. *)
Lemma score_loop_fuel (fuel : nat) :
  forall (fuel' : nat) bClassification cScores (aGH : list F) weight iScore pGH
         aPairs rd r,
    (fuel <= fuel')%nat ->
    score_loop fuel bClassification cScores aGH weight iScore pGH aPairs rd = Some r ->
    score_loop fuel' bClassification cScores aGH weight iScore pGH aPairs rd = Some r.
Proof.
  induction fuel as [| fuel IH]; intros fuel' bC cS aGH w iS pGH aP rd r Hle Hrun;
    [discriminate |].
  destruct fuel' as [| fuel']; [lia |]. cbn [score_loop] in *.
  destruct (score_body bC aGH w iS pGH aP rd) as [[aP1 rd1] |]; [| discriminate].
  destruct (iS + 1 <? cS); [| exact Hrun].
  apply (IH fuel'); [lia | exact Hrun].
Qed.

Lemma sample_body_fuel (fuel fuel' : nat) bClassification cScores aCountOccurrences
    (aWeights aGH : list F) iTensorBin st r :
  (fuel <= fuel')%nat ->
  sample_body fuel bClassification cScores aCountOccurrences aWeights aGH iTensorBin st
  = Some r ->
  sample_body fuel' bClassification cScores aCountOccurrences aWeights aGH iTensorBin st
  = Some r.
Proof.
  intros Hle. unfold sample_body.
  destruct (deref aCountOccurrences (pCountOccurrences st)); [| discriminate].
  destruct (deref aWeights (pWeight st)); [| discriminate].
  destruct (deref (aBins st) iTensorBin); [| discriminate].
  destruct (score_loop fuel _ _ _ _ _ _ _ _) as [[[aPairs pGH] rd2] |] eqn:Hloop;
    [| discriminate].
  rewrite (score_loop_fuel _ _ _ _ _ _ _ _ _ _ _ Hle Hloop). auto.
Qed.

Lemma zero_loop_fuel (fuel : nat) :
  forall (fuel' fuelIn fuelIn' : nat) bClassification cScores aCountOccurrences
         (aWeights aGH : list F) pEnd st r,
    (fuel <= fuel')%nat -> (fuelIn <= fuelIn')%nat ->
    zero_loop fuel fuelIn bClassification cScores aCountOccurrences aWeights aGH pEnd st
    = Some r ->
    zero_loop fuel' fuelIn' bClassification cScores aCountOccurrences aWeights aGH pEnd st
    = Some r.
Proof.
  induction fuel as [| fuel IH]; intros fuel' fi fi' bC cS aO aW aGH pEnd st r Hle Hin Hrun;
    [discriminate |].
  destruct fuel' as [| fuel']; [lia |]. cbn [zero_loop] in *.
  destruct (sample_body fi bC cS aO aW aGH 0 st) as [st1 |] eqn:Hbody; [| discriminate].
  rewrite (sample_body_fuel _ _ _ _ _ _ _ _ _ _ Hin Hbody).
  destruct (negb (pEnd =? pGradientAndHessian st1)); [| exact Hrun].
  apply (IH fuel' fi fi'); [lia | exact Hin | exact Hrun].
Qed.

Lemma item_loop_fuel (fuel : nat) :
  forall (fuel' fuelIn fuelIn' : nat) bClassification cScores aCountOccurrences
         (aWeights aGH : list F) maskBits cBitsPerItemMax cItemsRemaining w st r,
    (fuel <= fuel')%nat -> (fuelIn <= fuelIn')%nat ->
    item_loop fuel fuelIn bClassification cScores aCountOccurrences aWeights aGH
      maskBits cBitsPerItemMax cItemsRemaining w st = Some r ->
    item_loop fuel' fuelIn' bClassification cScores aCountOccurrences aWeights aGH
      maskBits cBitsPerItemMax cItemsRemaining w st = Some r.
Proof.
  induction fuel as [| fuel IH];
    intros fuel' fi fi' bC cS aO aW aGH mask bits c w st r Hle Hin Hrun;
    [discriminate |].
  destruct fuel' as [| fuel']; [lia |]. cbn [item_loop] in *.
  destruct (sample_body fi bC cS aO aW aGH (Z.land mask w) st) as [st1 |] eqn:Hbody;
    [| discriminate].
  rewrite (sample_body_fuel _ _ _ _ _ _ _ _ _ _ Hin Hbody).
  destruct (negb (0 =? size_t_wrap (c - 1))); [| exact Hrun].
  apply (IH fuel' fi fi'); [lia | exact Hin | exact Hrun].
Qed.

Lemma word_pass_fuel (fuel fuel' : nat) bClassification cScores aCountOccurrences
    (aWeights aGH : list F) aInputData maskBits cBitsPerItemMax cItemsRemaining st r :
  (fuel <= fuel')%nat ->
  word_pass fuel bClassification cScores aCountOccurrences aWeights aGH aInputData
    maskBits cBitsPerItemMax cItemsRemaining st = Some r ->
  word_pass fuel' bClassification cScores aCountOccurrences aWeights aGH aInputData
    maskBits cBitsPerItemMax cItemsRemaining st = Some r.
Proof.
  intros Hle. unfold word_pass.
  destruct (deref aInputData (pInputData st)); [| discriminate].
  apply item_loop_fuel; exact Hle.
Qed.

Lemma pack_loop_fuel (fuel : nat) :
  forall (fuel' fuelIn fuelIn' : nat) bClassification cScores aCountOccurrences
         (aWeights aGH : list F) aInputData maskBits cBitsPerItemMax cItemsPerBitPack
         pTrueEnd pExit cItemsRemaining st r,
    (fuel <= fuel')%nat -> (fuelIn <= fuelIn')%nat ->
    pack_loop fuel fuelIn bClassification cScores aCountOccurrences aWeights aGH
      aInputData maskBits cBitsPerItemMax cItemsPerBitPack pTrueEnd pExit
      cItemsRemaining st = Some r ->
    pack_loop fuel' fuelIn' bClassification cScores aCountOccurrences aWeights aGH
      aInputData maskBits cBitsPerItemMax cItemsPerBitPack pTrueEnd pExit
      cItemsRemaining st = Some r.
Proof.
  induction fuel as [| fuel IH];
    intros fuel' fi fi' bC cS aO aW aGH aIn mask bits q pEnd pExit c st r Hle Hin Hrun;
    [discriminate |].
  destruct fuel' as [| fuel']; [lia |]. cbn [pack_loop] in *.
  destruct (word_pass fi bC cS aO aW aGH aIn mask bits c st) as [st1 |] eqn:Hword;
    [| discriminate].
  rewrite (word_pass_fuel _ _ _ _ _ _ _ _ _ _ _ _ _ Hin Hword).
  destruct (negb (pExit =? pGradientAndHessian st1)).
  - apply (IH fuel' fi fi'); [lia | exact Hin | exact Hrun].
  - destruct (negb (pEnd =? pGradientAndHessian st1)); [| exact Hrun].
    apply (IH fuel' fi fi'); [lia | exact Hin | exact Hrun].
Qed.

Lemma BinSumsBoostingZeroDimensions_fuel (fuel fuel' : nat) cCompilerClasses
    (pBoosterShell : BoosterShell F) pInnerBag r :
  (fuel <= fuel')%nat ->
  BinSumsBoostingZeroDimensions fuel cCompilerClasses pBoosterShell pInnerBag = Some r ->
  BinSumsBoostingZeroDimensions fuel' cCompilerClasses pBoosterShell pInnerBag = Some r.
Proof. intros Hle. apply zero_loop_fuel; exact Hle. Qed.

Lemma BinSumsBoostingInternal_fuel (fuel fuel' : nat) cCompilerClasses compilerBitPack
    (pBoosterShell : BoosterShell F) iTerm pInnerBag r :
  (fuel <= fuel')%nat ->
  BinSumsBoostingInternal fuel cCompilerClasses compilerBitPack pBoosterShell iTerm
    pInnerBag = Some r ->
  BinSumsBoostingInternal fuel' cCompilerClasses compilerBitPack pBoosterShell iTerm
    pInnerBag = Some r.
Proof.
  intros Hle. unfold BinSumsBoostingInternal.
  destruct (deref (m_apTerms (m_pBoosterCore pBoosterShell)) iTerm); [| discriminate].
  destruct (deref (m_aaInputData (m_trainingSet (m_pBoosterCore pBoosterShell))) iTerm);
    [| discriminate].
  destruct (_ <=? _); apply pack_loop_fuel; exact Hle.
Qed.

Lemma BinSumsBoostingZeroDimensionsTarget_fuel (depth : nat) :
  forall (depth' fuel fuel' : nat) cPossibleClasses (pBoosterShell : BoosterShell F)
         pInnerBag r,
    (depth <= depth')%nat -> (fuel <= fuel')%nat ->
    BinSumsBoostingZeroDimensionsTarget depth fuel cPossibleClasses pBoosterShell
      pInnerBag = Some r ->
    BinSumsBoostingZeroDimensionsTarget depth' fuel' cPossibleClasses pBoosterShell
      pInnerBag = Some r.
Proof.
  induction depth as [| depth IH]; intros depth' fuel fuel' c shell bag r Hd Hf Hrun;
    [discriminate |].
  destruct depth' as [| depth']; [lia |].
  cbn [BinSumsBoostingZeroDimensionsTarget] in *.
  destruct (c =? k_cCompilerClassesMax + 1);
    [exact (BinSumsBoostingZeroDimensions_fuel _ _ _ _ _ _ Hf Hrun) |].
  destruct (c =? m_cClasses (m_pBoosterCore shell));
    [exact (BinSumsBoostingZeroDimensions_fuel _ _ _ _ _ _ Hf Hrun) |].
  apply (IH depth' fuel fuel'); [lia | exact Hf | exact Hrun].
Qed.

Lemma BinSumsBoostingNormalTarget_fuel (depth : nat) :
  forall (depth' fuel fuel' : nat) cPossibleClasses (pBoosterShell : BoosterShell F)
         iTerm pInnerBag r,
    (depth <= depth')%nat -> (fuel <= fuel')%nat ->
    BinSumsBoostingNormalTarget depth fuel cPossibleClasses pBoosterShell iTerm
      pInnerBag = Some r ->
    BinSumsBoostingNormalTarget depth' fuel' cPossibleClasses pBoosterShell iTerm
      pInnerBag = Some r.
Proof.
  induction depth as [| depth IH]; intros depth' fuel fuel' c shell iTerm bag r Hd Hf Hrun;
    [discriminate |].
  destruct depth' as [| depth']; [lia |].
  cbn [BinSumsBoostingNormalTarget] in *.
  destruct (c =? k_cCompilerClassesMax + 1);
    [exact (BinSumsBoostingInternal_fuel _ _ _ _ _ _ _ _ Hf Hrun) |].
  destruct (c =? m_cClasses (m_pBoosterCore shell));
    [exact (BinSumsBoostingInternal_fuel _ _ _ _ _ _ _ _ Hf Hrun) |].
  apply (IH depth' fuel fuel'); [lia | exact Hf | exact Hrun].
Qed.

Lemma BinSumsBoostingSIMDPacking_fuel (depth : nat) :
  forall (depth' fuel fuel' : nat) cCompilerClasses compilerBitPack
         (pBoosterShell : BoosterShell F) iTerm pInnerBag r,
    (depth <= depth')%nat -> (fuel <= fuel')%nat ->
    BinSumsBoostingSIMDPacking depth fuel cCompilerClasses compilerBitPack
      pBoosterShell iTerm pInnerBag = Some r ->
    BinSumsBoostingSIMDPacking depth' fuel' cCompilerClasses compilerBitPack
      pBoosterShell iTerm pInnerBag = Some r.
Proof.
  induction depth as [| depth IH];
    intros depth' fuel fuel' c b shell iTerm bag r Hd Hf Hrun; [discriminate |].
  destruct depth' as [| depth']; [lia |].
  cbn [BinSumsBoostingSIMDPacking] in *.
  destruct (b =? k_cItemsPerBitPackDynamic);
    [exact (BinSumsBoostingInternal_fuel _ _ _ _ _ _ _ _ Hf Hrun) |].
  destruct (deref (m_apTerms (m_pBoosterCore shell)) iTerm) as [pTerm |];
    [| discriminate].
  destruct (b =? m_cBitPack pTerm);
    [exact (BinSumsBoostingInternal_fuel _ _ _ _ _ _ _ _ Hf Hrun) |].
  apply (IH depth' fuel fuel'); [lia | exact Hf | exact Hrun].
Qed.

Lemma BinSumsBoostingSIMDTarget_fuel (depth : nat) :
  forall (depth' fuel fuel' : nat) cPossibleClasses (pBoosterShell : BoosterShell F)
         iTerm pInnerBag r,
    (depth <= depth')%nat -> (fuel <= fuel')%nat ->
    BinSumsBoostingSIMDTarget depth fuel cPossibleClasses pBoosterShell iTerm
      pInnerBag = Some r ->
    BinSumsBoostingSIMDTarget depth' fuel' cPossibleClasses pBoosterShell iTerm
      pInnerBag = Some r.
Proof.
  induction depth as [| depth IH]; intros depth' fuel fuel' c shell iTerm bag r Hd Hf Hrun;
    [discriminate |].
  destruct depth' as [| depth']; [lia |].
  cbn [BinSumsBoostingSIMDTarget] in *.
  destruct (c =? k_cCompilerClassesMax + 1);
    [exact (BinSumsBoostingSIMDPacking_fuel _ _ _ _ _ _ _ _ _ _ Hf Hf Hrun) |].
  destruct (c =? m_cClasses (m_pBoosterCore shell));
    [exact (BinSumsBoostingSIMDPacking_fuel _ _ _ _ _ _ _ _ _ _ Hf Hf Hrun) |].
  apply (IH depth' fuel fuel'); [lia | exact Hf | exact Hrun].
Qed.

Lemma BinSumsBoosting_fuel (fuel fuel' : nat) (pBoosterShell : BoosterShell F)
    iTerm pInnerBag r :
  (fuel <= fuel')%nat ->
  BinSumsBoosting fuel pBoosterShell iTerm pInnerBag = Some r ->
  BinSumsBoosting fuel' pBoosterShell iTerm pInnerBag = Some r.
Proof.
  intros Hle. unfold BinSumsBoosting.
  destruct (k_illegalTermIndex =? iTerm), k_bUseSIMD,
    (IsClassification (m_cClasses (m_pBoosterCore pBoosterShell)));
    first [ apply BinSumsBoostingZeroDimensionsTarget_fuel
          | apply BinSumsBoostingZeroDimensions_fuel
          | apply BinSumsBoostingSIMDTarget_fuel
          | apply BinSumsBoostingSIMDPacking_fuel
          | apply BinSumsBoostingNormalTarget_fuel
          | apply BinSumsBoostingInternal_fuel ]; exact Hle.
Qed.

End Fuel.

(** ** Selection *)

Section Walks.
Context `{EbmInternal}.

Lemma classes_walked_stop (c cRuntimeClasses : Z) :
  c = k_cCompilerClassesMax + 1 \/ (c <= k_cCompilerClassesMax /\ c = cRuntimeClasses) ->
  classes_walked c cRuntimeClasses = [c].
Proof.
  intros Hc. unfold classes_walked.
  destruct (Z.leb_spec c cRuntimeClasses),
           (Z.leb_spec cRuntimeClasses k_cCompilerClassesMax); cbn [andb].
  all: try (exfalso; lia).
  all: first [ replace (cRuntimeClasses - c + 1) with 1 by lia
             | replace (k_cCompilerClassesMax + 1 - c + 1) with 1 by lia ].
  all: reflexivity.
Qed.

Lemma classes_walked_step (c cRuntimeClasses : Z) :
  c <= k_cCompilerClassesMax -> c <> cRuntimeClasses ->
  classes_walked c cRuntimeClasses = c :: classes_walked (c + 1) cRuntimeClasses.
Proof.
  intros Hc Hne. unfold classes_walked.
  destruct (Z.leb_spec c cRuntimeClasses), (Z.leb_spec (c + 1) cRuntimeClasses),
           (Z.leb_spec cRuntimeClasses k_cCompilerClassesMax); cbn [andb]; try lia.
  all: match goal with
       | |- consecutive _ (Z.to_nat ?a) = _ :: consecutive _ (Z.to_nat ?b) =>
           replace (Z.to_nat a) with (S (Z.to_nat b)) by lia; reflexivity
       end.
Qed.

End Walks.

Section PackWalk.
Context `{EbmInternal}.

(** An enumeration that reaches the dynamic width stops, at the latest
    there. *)
Lemma pack_walk_stops (rt : Z) (n : nat) :
  forall b : Z,
    next_pack n b = k_cItemsPerBitPackDynamic ->
    exists m : nat,
      (m <= n)%nat
      /\ (next_pack m b = k_cItemsPerBitPackDynamic \/ next_pack m b = rt)
      /\ forall j : nat, (j < m)%nat ->
           next_pack j b <> k_cItemsPerBitPackDynamic /\ next_pack j b <> rt.
Proof.
  induction n as [| n IH]; intros b Hreach.
  - exists 0%nat. split; [lia |]. split; [left; exact Hreach | intros j Hj; lia].
  - destruct (Z.eq_dec b k_cItemsPerBitPackDynamic) as [Hdyn | Hndyn];
      [exists 0%nat; split; [lia |]; split; [left; exact Hdyn | intros j Hj; lia] |].
    destruct (Z.eq_dec b rt) as [Hrt | Hnrt];
      [exists 0%nat; split; [lia |]; split; [right; exact Hrt | intros j Hj; lia] |].
    destruct (IH (GetNextCountItemsBitPacked b) Hreach) as (m & Hm & Hstop & Hbefore).
    exists (S m). split; [lia |]. split; [exact Hstop |].
    intros [| j] Hj; [split; assumption | apply Hbefore; lia].
Qed.

Lemma walk_stops_before (rt : Z) (m n : nat) :
  walk_stops rt m ->
  next_pack n k_cItemsPerBitPackMax = k_cItemsPerBitPackDynamic ->
  (m <= n)%nat.
Proof.
  intros [_ Hbefore] Hreach.
  destruct (le_lt_dec m n) as [Hle | Hlt]; [exact Hle |].
  destruct (Hbefore n Hlt) as [Hndyn _]. contradiction.
Qed.

End PackWalk.

Section Selection.
Context {F : Type} `{FloatOps F} `{EbmInternal}.

Variable pBoosterShell : BoosterShell F.
Variable pInnerBag : InnerBag F.
Variable iTerm : Z.

Local Abbreviation cRuntimeClasses := (m_cClasses (m_pBoosterCore pBoosterShell)).
Local Abbreviation runtimeBitPack := (m_cBitPack (call_term pBoosterShell iTerm)).

Lemma classes_from_top (c : Z) :
  c = k_cCompilerClassesMax + 1 -> classes_from c cRuntimeClasses = k_dynamicClassification.
Proof.
  intros Hc. unfold classes_from.
  destruct (Z.leb_spec c cRuntimeClasses),
           (Z.leb_spec cRuntimeClasses k_cCompilerClassesMax);
    cbn [andb]; try reflexivity; lia.
Qed.

Lemma classes_from_hit (c : Z) :
  c <= k_cCompilerClassesMax -> c = cRuntimeClasses -> classes_from c cRuntimeClasses = c.
Proof.
  intros Hc Heq. unfold classes_from.
  destruct (Z.leb_spec c cRuntimeClasses),
           (Z.leb_spec cRuntimeClasses k_cCompilerClassesMax);
    cbn [andb]; lia.
Qed.

Lemma classes_from_step (c : Z) :
  c <> cRuntimeClasses -> classes_from (c + 1) cRuntimeClasses = classes_from c cRuntimeClasses.
Proof.
  intros Hne. unfold classes_from.
  destruct (Z.leb_spec c cRuntimeClasses), (Z.leb_spec (c + 1) cRuntimeClasses),
           (Z.leb_spec cRuntimeClasses k_cCompilerClassesMax);
    cbn [andb]; try reflexivity; lia.
Qed.

Lemma BinSumsBoostingZeroDimensionsTarget_selects (fuel depth : nat) :
  forall cPossibleClasses : Z,
    cPossibleClasses <= k_cCompilerClassesMax + 1 ->
    k_cCompilerClassesMax + 1 - cPossibleClasses < Z.of_nat depth ->
    BinSumsBoostingZeroDimensionsTarget depth fuel cPossibleClasses pBoosterShell
      pInnerBag
    = BinSumsBoostingZeroDimensions fuel (classes_from cPossibleClasses cRuntimeClasses)
        pBoosterShell pInnerBag.
Proof.
  induction depth as [| depth IH]; intros c Hc Hd; [lia |].
  cbn [BinSumsBoostingZeroDimensionsTarget].
  destruct (Z.eqb_spec c (k_cCompilerClassesMax + 1)) as [Htop | Hntop];
    [rewrite classes_from_top by exact Htop; reflexivity |].
  destruct (Z.eqb_spec c cRuntimeClasses) as [Heq | Hne];
    [rewrite classes_from_hit by lia; reflexivity |].
  rewrite IH by lia. rewrite classes_from_step by exact Hne. reflexivity.
Qed.

Lemma BinSumsBoostingNormalTarget_selects (fuel depth : nat) :
  forall cPossibleClasses : Z,
    cPossibleClasses <= k_cCompilerClassesMax + 1 ->
    k_cCompilerClassesMax + 1 - cPossibleClasses < Z.of_nat depth ->
    BinSumsBoostingNormalTarget depth fuel cPossibleClasses pBoosterShell iTerm
      pInnerBag
    = BinSumsBoostingInternal fuel (classes_from cPossibleClasses cRuntimeClasses)
        k_cItemsPerBitPackDynamic pBoosterShell iTerm pInnerBag.
Proof.
  induction depth as [| depth IH]; intros c Hc Hd; [lia |].
  cbn [BinSumsBoostingNormalTarget].
  destruct (Z.eqb_spec c (k_cCompilerClassesMax + 1)) as [Htop | Hntop];
    [rewrite classes_from_top by exact Htop; reflexivity |].
  destruct (Z.eqb_spec c cRuntimeClasses) as [Heq | Hne];
    [rewrite classes_from_hit by lia; reflexivity |].
  rewrite IH by lia. rewrite classes_from_step by exact Hne. reflexivity.
Qed.

Lemma BinSumsBoostingSIMDTarget_selects (fuel depth : nat) :
  forall cPossibleClasses : Z,
    cPossibleClasses <= k_cCompilerClassesMax + 1 ->
    k_cCompilerClassesMax + 1 - cPossibleClasses < Z.of_nat depth ->
    BinSumsBoostingSIMDTarget depth fuel cPossibleClasses pBoosterShell iTerm
      pInnerBag
    = BinSumsBoostingSIMDPacking fuel fuel
        (classes_from cPossibleClasses cRuntimeClasses) k_cItemsPerBitPackMax
        pBoosterShell iTerm pInnerBag.
Proof.
  induction depth as [| depth IH]; intros c Hc Hd; [lia |].
  cbn [BinSumsBoostingSIMDTarget].
  destruct (Z.eqb_spec c (k_cCompilerClassesMax + 1)) as [Htop | Hntop];
    [rewrite classes_from_top by exact Htop; reflexivity |].
  destruct (Z.eqb_spec c cRuntimeClasses) as [Heq | Hne];
    [rewrite classes_from_hit by lia; reflexivity |].
  rewrite IH by lia. rewrite classes_from_step by exact Hne. reflexivity.
Qed.

Lemma BinSumsBoostingSIMDPacking_selects (fuel : nat) (cCompilerClasses : Z)
    (depth : nat) :
  forall (n : nat) (compilerBitPack : Z),
    (n < depth)%nat ->
    next_pack n compilerBitPack = k_cItemsPerBitPackDynamic ->
    BinSumsBoostingSIMDPacking depth fuel cCompilerClasses compilerBitPack
      pBoosterShell iTerm pInnerBag
    = BinSumsBoostingInternal fuel cCompilerClasses
        (selected_pack depth compilerBitPack runtimeBitPack)
        pBoosterShell iTerm pInnerBag.
Proof.
  induction depth as [| depth IH]; intros n b Hn Hreach; [lia |].
  cbn [BinSumsBoostingSIMDPacking selected_pack].
  destruct (Z.eqb_spec b k_cItemsPerBitPackDynamic) as [Hdyn | Hndyn]; [reflexivity |].
  destruct (deref (m_apTerms (m_pBoosterCore pBoosterShell)) iTerm) as [pTerm |]
    eqn:Hterm.
  - assert (Hrt : runtimeBitPack = m_cBitPack pTerm)
      by (unfold call_term, at0; rewrite Hterm; reflexivity).
    rewrite Hrt in *.
    destruct (b =? m_cBitPack pTerm); [reflexivity |].
    destruct n as [| n]; [cbn [next_pack] in Hreach; contradiction |].
    apply (IH n (GetNextCountItemsBitPacked b)); [lia | exact Hreach].
  - unfold BinSumsBoostingInternal. rewrite Hterm. reflexivity.
Qed.

Lemma selected_pack_cases (depth : nat) :
  forall compilerBitPack rt : Z,
    selected_pack depth compilerBitPack rt = k_cItemsPerBitPackDynamic
    \/ selected_pack depth compilerBitPack rt = rt.
Proof.
  induction depth as [| depth IH]; intros b rt; cbn [selected_pack]; [left; reflexivity |].
  destruct (Z.eqb_spec b k_cItemsPerBitPackDynamic); [left; reflexivity |].
  destruct (Z.eqb_spec b rt); [right; assumption | apply IH].
Qed.

(** A pack-width specialization that matches the term computes what the
    dynamic one computes. *)
Lemma BinSumsBoostingInternal_pack (fuel : nat) (cCompilerClasses compilerBitPack : Z) :
  compilerBitPack = k_cItemsPerBitPackDynamic \/ compilerBitPack = runtimeBitPack ->
  BinSumsBoostingInternal fuel cCompilerClasses compilerBitPack pBoosterShell iTerm
    pInnerBag
  = BinSumsBoostingInternal fuel cCompilerClasses k_cItemsPerBitPackDynamic
      pBoosterShell iTerm pInnerBag.
Proof.
  intros [Hdyn | Hrt]; [rewrite Hdyn; reflexivity |].
  unfold BinSumsBoostingInternal. unfold call_term, at0 in Hrt.
  destruct (deref (m_apTerms (m_pBoosterCore pBoosterShell)) iTerm) as [pTerm |];
    [| reflexivity].
  cbn [default] in Hrt. unfold id in Hrt.
  assert (Hitems :
    GET_ITEMS_PER_BIT_PACK compilerBitPack (m_cBitPack pTerm)
    = GET_ITEMS_PER_BIT_PACK k_cItemsPerBitPackDynamic (m_cBitPack pTerm)).
  { unfold GET_ITEMS_PER_BIT_PACK. rewrite Z.eqb_refl.
    destruct (compilerBitPack =? k_cItemsPerBitPackDynamic); [reflexivity | exact Hrt]. }
  rewrite Hitems. reflexivity.
Qed.

(** A class-count specialization that matches the run computes what the
    dynamic one computes. *)
Lemma GET_COUNT_CLASSES_matching (cCompilerClasses : Z) :
  cCompilerClasses = k_dynamicClassification \/ cCompilerClasses = cRuntimeClasses ->
  GET_COUNT_CLASSES cCompilerClasses cRuntimeClasses = cRuntimeClasses.
Proof.
  intros Hc. unfold GET_COUNT_CLASSES.
  destruct (Z.eqb_spec cCompilerClasses k_dynamicClassification); [reflexivity |].
  destruct Hc; [contradiction | assumption].
Qed.

Lemma classes_from_cases (c : Z) :
  classes_from c cRuntimeClasses = k_dynamicClassification
  \/ classes_from c cRuntimeClasses = cRuntimeClasses.
Proof. unfold classes_from. destruct (_ && _); [right | left]; reflexivity. Qed.

Lemma BinSumsBoostingInternal_classes (fuel : nat) (cCompilerClasses compilerBitPack : Z) :
  IsClassification cCompilerClasses = IsClassification k_dynamicClassification ->
  cCompilerClasses = k_dynamicClassification \/ cCompilerClasses = cRuntimeClasses ->
  BinSumsBoostingInternal fuel cCompilerClasses compilerBitPack pBoosterShell iTerm
    pInnerBag
  = BinSumsBoostingInternal fuel k_dynamicClassification compilerBitPack pBoosterShell
      iTerm pInnerBag.
Proof.
  intros Hcls Hc. unfold BinSumsBoostingInternal.
  rewrite Hcls, (GET_COUNT_CLASSES_matching _ Hc),
    (GET_COUNT_CLASSES_matching k_dynamicClassification) by (left; reflexivity).
  reflexivity.
Qed.

Lemma BinSumsBoostingZeroDimensions_classes (fuel : nat) (cCompilerClasses : Z) :
  IsClassification cCompilerClasses = IsClassification k_dynamicClassification ->
  cCompilerClasses = k_dynamicClassification \/ cCompilerClasses = cRuntimeClasses ->
  BinSumsBoostingZeroDimensions fuel cCompilerClasses pBoosterShell pInnerBag
  = BinSumsBoostingZeroDimensions fuel k_dynamicClassification pBoosterShell pInnerBag.
Proof.
  intros Hcls Hc. unfold BinSumsBoostingZeroDimensions.
  rewrite Hcls, (GET_COUNT_CLASSES_matching _ Hc),
    (GET_COUNT_CLASSES_matching k_dynamicClassification) by (left; reflexivity).
  reflexivity.
Qed.

(** *** The log beside the result changes nothing of the result *)

Lemma call_ZeroDimensionsTarget_result (depth : nat) :
  forall (fuel : nat) (cPossibleClasses : Z),
    snd (call_ZeroDimensionsTarget depth fuel cPossibleClasses pBoosterShell pInnerBag)
    = BinSumsBoostingZeroDimensionsTarget depth fuel cPossibleClasses pBoosterShell
        pInnerBag.
Proof.
  induction depth as [| depth IH]; intros fuel c; [reflexivity |].
  cbn [call_ZeroDimensionsTarget BinSumsBoostingZeroDimensionsTarget enter snd].
  repeat destruct (_ =? _)%Z; [reflexivity | reflexivity | apply IH].
Qed.

Lemma call_NormalTarget_result (depth : nat) :
  forall (fuel : nat) (cPossibleClasses : Z),
    snd (call_NormalTarget depth fuel cPossibleClasses pBoosterShell iTerm pInnerBag)
    = BinSumsBoostingNormalTarget depth fuel cPossibleClasses pBoosterShell iTerm
        pInnerBag.
Proof.
  induction depth as [| depth IH]; intros fuel c; [reflexivity |].
  cbn [call_NormalTarget BinSumsBoostingNormalTarget enter snd].
  repeat destruct (_ =? _)%Z; [reflexivity | reflexivity | apply IH].
Qed.

Lemma call_SIMDPacking_result (depth : nat) :
  forall (fuel : nat) (cCompilerClasses compilerBitPack : Z),
    snd (call_SIMDPacking depth fuel cCompilerClasses compilerBitPack pBoosterShell
           iTerm pInnerBag)
    = BinSumsBoostingSIMDPacking depth fuel cCompilerClasses compilerBitPack
        pBoosterShell iTerm pInnerBag.
Proof.
  induction depth as [| depth IH]; intros fuel c b; [reflexivity |].
  cbn [call_SIMDPacking BinSumsBoostingSIMDPacking enter snd].
  destruct (b =? k_cItemsPerBitPackDynamic); [reflexivity |].
  destruct (deref (m_apTerms (m_pBoosterCore pBoosterShell)) iTerm) as [pTerm |];
    [| reflexivity].
  destruct (b =? m_cBitPack pTerm); [reflexivity | apply IH].
Qed.

Lemma call_SIMDTarget_result (depth : nat) :
  forall (fuel : nat) (cPossibleClasses : Z),
    snd (call_SIMDTarget depth fuel cPossibleClasses pBoosterShell iTerm pInnerBag)
    = BinSumsBoostingSIMDTarget depth fuel cPossibleClasses pBoosterShell iTerm
        pInnerBag.
Proof.
  induction depth as [| depth IH]; intros fuel c; [reflexivity |].
  cbn [call_SIMDTarget BinSumsBoostingSIMDTarget enter snd].
  repeat destruct (_ =? _)%Z; [apply call_SIMDPacking_result .. | apply IH].
Qed.

Lemma call_BinSumsBoosting_result (fuel : nat) :
  snd (call_BinSumsBoosting fuel pBoosterShell iTerm pInnerBag)
  = BinSumsBoosting fuel pBoosterShell iTerm pInnerBag.
Proof.
  unfold call_BinSumsBoosting, BinSumsBoosting.
  destruct (k_illegalTermIndex =? iTerm), k_bUseSIMD,
    (IsClassification cRuntimeClasses);
    first [ apply call_ZeroDimensionsTarget_result
          | apply call_NormalTarget_result
          | apply call_SIMDTarget_result
          | apply call_SIMDPacking_result
          | reflexivity ].
Qed.

(** *** The walk over the class counts *)

Lemma call_ZeroDimensionsTarget_walk (fuel depth : nat) :
  forall cPossibleClasses : Z,
    cPossibleClasses <= k_cCompilerClassesMax + 1 ->
    k_cCompilerClassesMax + 1 - cPossibleClasses < Z.of_nat depth ->
    fst (call_ZeroDimensionsTarget depth fuel cPossibleClasses pBoosterShell pInnerBag)
    = map ZeroDimensionsTargetFunc (classes_walked cPossibleClasses cRuntimeClasses)
      ++ [ZeroDimensionsFunc (classes_from cPossibleClasses cRuntimeClasses)].
Proof.
  induction depth as [| depth IH]; intros c Hc Hd; [lia |].
  cbn [call_ZeroDimensionsTarget enter fst].
  destruct (Z.eqb_spec c (k_cCompilerClassesMax + 1)) as [Htop | Hntop].
  - rewrite classes_walked_stop by lia. rewrite classes_from_top by (try assumption; lia). reflexivity.
  - destruct (Z.eqb_spec c cRuntimeClasses) as [Heq | Hne].
    + rewrite classes_walked_stop by lia. rewrite classes_from_hit by (try assumption; lia). reflexivity.
    + rewrite (classes_walked_step c) by lia. rewrite IH by lia.
      rewrite classes_from_step by (try assumption; lia). reflexivity.
Qed.

Lemma call_NormalTarget_walk (fuel depth : nat) :
  forall cPossibleClasses : Z,
    cPossibleClasses <= k_cCompilerClassesMax + 1 ->
    k_cCompilerClassesMax + 1 - cPossibleClasses < Z.of_nat depth ->
    fst (call_NormalTarget depth fuel cPossibleClasses pBoosterShell iTerm pInnerBag)
    = map NormalTargetFunc (classes_walked cPossibleClasses cRuntimeClasses)
      ++ [InternalFunc (classes_from cPossibleClasses cRuntimeClasses)
            k_cItemsPerBitPackDynamic].
Proof.
  induction depth as [| depth IH]; intros c Hc Hd; [lia |].
  cbn [call_NormalTarget enter fst].
  destruct (Z.eqb_spec c (k_cCompilerClassesMax + 1)) as [Htop | Hntop].
  - rewrite classes_walked_stop by lia. rewrite classes_from_top by (try assumption; lia). reflexivity.
  - destruct (Z.eqb_spec c cRuntimeClasses) as [Heq | Hne].
    + rewrite classes_walked_stop by lia. rewrite classes_from_hit by (try assumption; lia). reflexivity.
    + rewrite (classes_walked_step c) by lia. rewrite IH by lia.
      rewrite classes_from_step by (try assumption; lia). reflexivity.
Qed.

Lemma call_SIMDTarget_walk (fuel depth : nat) :
  forall cPossibleClasses : Z,
    cPossibleClasses <= k_cCompilerClassesMax + 1 ->
    k_cCompilerClassesMax + 1 - cPossibleClasses < Z.of_nat depth ->
    fst (call_SIMDTarget depth fuel cPossibleClasses pBoosterShell iTerm pInnerBag)
    = map SIMDTargetFunc (classes_walked cPossibleClasses cRuntimeClasses)
      ++ fst (call_SIMDPacking fuel fuel
                (classes_from cPossibleClasses cRuntimeClasses) k_cItemsPerBitPackMax
                pBoosterShell iTerm pInnerBag).
Proof.
  induction depth as [| depth IH]; intros c Hc Hd; [lia |].
  cbn [call_SIMDTarget enter fst].
  destruct (Z.eqb_spec c (k_cCompilerClassesMax + 1)) as [Htop | Hntop].
  - rewrite classes_walked_stop by lia. rewrite classes_from_top by (try assumption; lia). reflexivity.
  - destruct (Z.eqb_spec c cRuntimeClasses) as [Heq | Hne].
    + rewrite classes_walked_stop by lia. rewrite classes_from_hit by (try assumption; lia). reflexivity.
    + rewrite (classes_walked_step c) by lia. rewrite IH by lia.
      rewrite classes_from_step by (try assumption; lia). reflexivity.
Qed.

(** *** The walk over the pack widths *)

Lemma call_SIMDPacking_walk (fuel : nat) (cCompilerClasses : Z) (m : nat) :
  forall (depth : nat) (compilerBitPack : Z),
    (m < depth)%nat ->
    0 <= iTerm < Z.of_nat (length (m_apTerms (m_pBoosterCore pBoosterShell))) ->
    next_pack m compilerBitPack = k_cItemsPerBitPackDynamic
    \/ next_pack m compilerBitPack = runtimeBitPack ->
    (forall j : nat, (j < m)%nat ->
       next_pack j compilerBitPack <> k_cItemsPerBitPackDynamic
       /\ next_pack j compilerBitPack <> runtimeBitPack) ->
    fst (call_SIMDPacking depth fuel cCompilerClasses compilerBitPack pBoosterShell
           iTerm pInnerBag)
    = map (SIMDPackingFunc cCompilerClasses)
        (map (fun j => next_pack j compilerBitPack) (seq 0 (S m)))
      ++ [InternalFunc cCompilerClasses (next_pack m compilerBitPack)].
Proof.
  induction m as [| m IH]; intros depth b Hd Hterm Hstop Hbefore;
    (destruct depth as [| depth]; [lia |]).
  all: cbn [call_SIMDPacking enter fst].
  all: unfold call_term in *.
  all: rewrite (deref_at0 {| m_cBitPack := 0; m_cRealDimensions := 0 |}) by exact Hterm.
  - cbn [next_pack] in Hstop.
    destruct (Z.eqb_spec b k_cItemsPerBitPackDynamic) as [Hdyn | Hndyn].
    + rewrite Hdyn. reflexivity.
    + destruct (Z.eqb_spec b
                  (m_cBitPack
                     (at0 {| m_cBitPack := 0; m_cRealDimensions := 0 |}
                        (m_apTerms (m_pBoosterCore pBoosterShell)) iTerm)))
        as [_ | Hnrt]; [reflexivity |].
      destruct Hstop; contradiction.
  - destruct (Hbefore 0%nat ltac:(lia)) as [Hndyn Hnrt]. cbn [next_pack] in Hndyn, Hnrt.
    destruct (Z.eqb_spec b k_cItemsPerBitPackDynamic); [contradiction |].
    destruct (Z.eqb_spec b
                (m_cBitPack
                   (at0 {| m_cBitPack := 0; m_cRealDimensions := 0 |}
                      (m_apTerms (m_pBoosterCore pBoosterShell)) iTerm)));
      [contradiction |].
    rewrite (IH depth (GetNextCountItemsBitPacked b)); try lia; auto.
    + replace (seq 0 (S (S m))) with (0%nat :: map S (seq 0 (S m)))
        by (rewrite seq_shift; reflexivity).
      cbn [map app]. rewrite !map_map. reflexivity.
    + intros j Hj. exact (Hbefore (S j) ltac:(lia)).
Qed.

Lemma selected_pack_stops (m : nat) :
  forall (depth : nat) (compilerBitPack : Z),
    (m < depth)%nat ->
    next_pack m compilerBitPack = k_cItemsPerBitPackDynamic
    \/ next_pack m compilerBitPack = runtimeBitPack ->
    (forall j : nat, (j < m)%nat ->
       next_pack j compilerBitPack <> k_cItemsPerBitPackDynamic
       /\ next_pack j compilerBitPack <> runtimeBitPack) ->
    selected_pack depth compilerBitPack runtimeBitPack = next_pack m compilerBitPack.
Proof.
  induction m as [| m IH]; intros depth b Hd Hstop Hbefore;
    (destruct depth as [| depth]; [lia |]); cbn [selected_pack].
  - cbn [next_pack] in *.
    destruct (Z.eqb_spec b k_cItemsPerBitPackDynamic) as [Hdyn | Hndyn]; [auto |].
    destruct (Z.eqb_spec b runtimeBitPack); [reflexivity |].
    destruct Hstop; contradiction.
  - destruct (Hbefore 0%nat ltac:(lia)) as [Hndyn Hnrt]. cbn [next_pack] in Hndyn, Hnrt.
    destruct (Z.eqb_spec b k_cItemsPerBitPackDynamic); [contradiction |].
    destruct (Z.eqb_spec b runtimeBitPack); [contradiction |].
    rewrite (IH depth (GetNextCountItemsBitPacked b)); try lia; auto.
    intros j Hj. exact (Hbefore (S j) ltac:(lia)).
Qed.

Local Abbreviation selectedPack fuel :=
  (if k_bUseSIMD
   then selected_pack fuel k_cItemsPerBitPackMax runtimeBitPack
   else k_cItemsPerBitPackDynamic).

(** C7. The entry point selects exhaustively, by the stated decision
    tree.  With the no-term sentinel it runs the zero-dimension kernel;
    otherwise the indexed kernel, through the pack-width family when the
    vector-instruction flag is set and at the dynamic pack width when it is
    not.  In both cases the class-count specialization is the run's class
    count when it is one of [2 .. k_cCompilerClassesMax], the dynamic one
    for another classification and the regression one for a regression;
    the pack width selected is the term's or the dynamic one.  The selected
    instance computes what the fully dynamic instance computes (for a
    regression: the regression instance at the dynamic pack width).

    The route itself is stated on the log of the instantiations entered,
    which changes nothing of the result: the log of a call is the list
    [stated_selection] of the specification's decision tree, instantiation
    by instantiation and in call order (the class counts walked from 2, then
    with the flag set the pack widths walked from [k_cItemsPerBitPackMax],
    then the kernel), and the call returns what the kernel at the end of
    that list returns.  With the flag set the walk over the pack widths is
    followed up to its [m]-th width, the first that is the term's or the
    dynamic one; there is such an [m], and it is the selected pack width.
    The term is then assumed to exist: the walk reads its pack width.

    The header is a parameter: its enumeration of pack widths is assumed to
    reach the dynamic width in [n] steps, its dynamic class count to be a
    classification. *)
Theorem entry_point_selects (fuel n : nat) :
  1 <= k_cCompilerClassesMax ->
  IsClassification k_dynamicClassification = true ->
  next_pack n k_cItemsPerBitPackMax = k_cItemsPerBitPackDynamic ->
  (Z.to_nat k_cCompilerClassesMax <= fuel)%nat ->
  (n < fuel)%nat ->
  (k_illegalTermIndex = iTerm ->
   BinSumsBoosting fuel pBoosterShell iTerm pInnerBag
   = BinSumsBoostingZeroDimensions fuel (selected_classes cRuntimeClasses)
       pBoosterShell pInnerBag)
  /\ (k_illegalTermIndex <> iTerm ->
      BinSumsBoosting fuel pBoosterShell iTerm pInnerBag
      = BinSumsBoostingInternal fuel (selected_classes cRuntimeClasses)
          (selectedPack fuel) pBoosterShell iTerm pInnerBag)
  /\ (k_illegalTermIndex <> iTerm -> k_bUseSIMD = true ->
      BinSumsBoosting fuel pBoosterShell iTerm pInnerBag
      = BinSumsBoostingSIMDPacking fuel fuel (selected_classes cRuntimeClasses)
          k_cItemsPerBitPackMax pBoosterShell iTerm pInnerBag)
  /\ (selectedPack fuel = k_cItemsPerBitPackDynamic
      \/ selectedPack fuel = runtimeBitPack)
  /\ (k_bUseSIMD = false -> selectedPack fuel = k_cItemsPerBitPackDynamic)
  /\ (IsClassification cRuntimeClasses = true ->
      selected_classes cRuntimeClasses
      = (if (2 <=? cRuntimeClasses) && (cRuntimeClasses <=? k_cCompilerClassesMax)
         then cRuntimeClasses else k_dynamicClassification)
      /\ BinSumsBoostingZeroDimensions fuel (selected_classes cRuntimeClasses)
           pBoosterShell pInnerBag
         = BinSumsBoostingZeroDimensions fuel k_dynamicClassification
             pBoosterShell pInnerBag
      /\ BinSumsBoostingInternal fuel (selected_classes cRuntimeClasses)
           (selectedPack fuel) pBoosterShell iTerm pInnerBag
         = BinSumsBoostingInternal fuel k_dynamicClassification
             k_cItemsPerBitPackDynamic pBoosterShell iTerm pInnerBag)
  /\ (IsClassification cRuntimeClasses = false ->
      selected_classes cRuntimeClasses = k_regression
      /\ BinSumsBoostingInternal fuel k_regression (selectedPack fuel)
           pBoosterShell iTerm pInnerBag
         = BinSumsBoostingInternal fuel k_regression k_cItemsPerBitPackDynamic
             pBoosterShell iTerm pInnerBag)
  /\ snd (call_BinSumsBoosting fuel pBoosterShell iTerm pInnerBag)
     = BinSumsBoosting fuel pBoosterShell iTerm pInnerBag
  /\ (exists m : nat, (m <= n)%nat /\ walk_stops runtimeBitPack m)
  /\ (forall m : nat,
        (k_illegalTermIndex <> iTerm -> k_bUseSIMD = true ->
         walk_stops runtimeBitPack m
         /\ 0 <= iTerm < Z.of_nat (length (m_apTerms (m_pBoosterCore pBoosterShell)))) ->
        fst (call_BinSumsBoosting fuel pBoosterShell iTerm pInnerBag)
        = stated_selection cRuntimeClasses iTerm runtimeBitPack m
        /\ (exists i : Instance,
              last (stated_selection cRuntimeClasses iTerm runtimeBitPack m) = Some i
              /\ BinSumsBoosting fuel pBoosterShell iTerm pInnerBag
                 = kernel_of fuel i pBoosterShell iTerm pInnerBag)
        /\ (k_illegalTermIndex <> iTerm -> k_bUseSIMD = true ->
            selectedPack fuel = next_pack m k_cItemsPerBitPackMax)).
Proof.
  intros Hmax Hdyn Hreach Hfuel Hn.
  assert (Hpack : selectedPack fuel = k_cItemsPerBitPackDynamic
                  \/ selectedPack fuel = runtimeBitPack)
    by (destruct k_bUseSIMD; [apply selected_pack_cases | left; reflexivity]).
  assert (Hdepth : k_cCompilerClassesMax + 1 - 2 < Z.of_nat fuel) by lia.
  assert (Htop : 2 <= k_cCompilerClassesMax + 1) by lia.
  assert (Hzero : k_illegalTermIndex = iTerm ->
    BinSumsBoosting fuel pBoosterShell iTerm pInnerBag
    = BinSumsBoostingZeroDimensions fuel (selected_classes cRuntimeClasses)
        pBoosterShell pInnerBag).
  { intros Hterm. unfold BinSumsBoosting, selected_classes.
    destruct (Z.eqb_spec k_illegalTermIndex iTerm); [| contradiction].
    destruct (IsClassification cRuntimeClasses); [| reflexivity].
    apply BinSumsBoostingZeroDimensionsTarget_selects; assumption. }
  assert (Hindexed : k_illegalTermIndex <> iTerm ->
    BinSumsBoosting fuel pBoosterShell iTerm pInnerBag
    = BinSumsBoostingInternal fuel (selected_classes cRuntimeClasses)
        (selectedPack fuel) pBoosterShell iTerm pInnerBag).
  { intros Hterm. unfold BinSumsBoosting, selected_classes.
    destruct (Z.eqb_spec k_illegalTermIndex iTerm); [contradiction |].
    destruct k_bUseSIMD, (IsClassification cRuntimeClasses); try reflexivity.
    + rewrite BinSumsBoostingSIMDTarget_selects by assumption.
      apply (BinSumsBoostingSIMDPacking_selects fuel _ fuel n); assumption.
    + apply (BinSumsBoostingSIMDPacking_selects fuel _ fuel n); assumption.
    + apply BinSumsBoostingNormalTarget_selects; assumption. }
  split; [exact Hzero |]. split; [exact Hindexed |].
  split; [| split; [| split; [| split; [| split; [| split; [| split]]]]]].
  - intros Hterm Hsimd. unfold BinSumsBoosting, selected_classes.
    destruct (Z.eqb_spec k_illegalTermIndex iTerm); [contradiction |].
    rewrite Hsimd.
    destruct (IsClassification cRuntimeClasses); [| reflexivity].
    apply BinSumsBoostingSIMDTarget_selects; assumption.
  - exact Hpack.
  - intros Hsimd. rewrite Hsimd. reflexivity.
  - intros Hcls. unfold selected_classes. rewrite Hcls.
    assert (Hsame : IsClassification (classes_from 2 cRuntimeClasses)
                    = IsClassification k_dynamicClassification)
      by (destruct (classes_from_cases 2) as [Hc | Hc]; rewrite Hc; congruence).
    split; [reflexivity |]. split.
    + apply BinSumsBoostingZeroDimensions_classes;
        [exact Hsame | apply classes_from_cases].
    + rewrite BinSumsBoostingInternal_pack by exact Hpack.
      apply BinSumsBoostingInternal_classes;
        [exact Hsame | apply classes_from_cases].
  - intros Hreg. unfold selected_classes. rewrite Hreg.
    split; [reflexivity |].
    apply BinSumsBoostingInternal_pack. exact Hpack.
  - apply call_BinSumsBoosting_result.
  - destruct (pack_walk_stops runtimeBitPack n k_cItemsPerBitPackMax Hreach)
      as (m & Hm & Hstop & Hbefore).
    exists m. split; [exact Hm | split; assumption].
  - intros m Hwalk.
    assert (Hroute :
      fst (call_BinSumsBoosting fuel pBoosterShell iTerm pInnerBag)
      = stated_selection cRuntimeClasses iTerm runtimeBitPack m
      /\ (k_illegalTermIndex <> iTerm -> k_bUseSIMD = true ->
          selectedPack fuel = next_pack m k_cItemsPerBitPackMax)).
    { unfold call_BinSumsBoosting, stated_selection, selected_classes, packs_walked.
      destruct (Z.eqb_spec k_illegalTermIndex iTerm) as [Hterm | Hterm].
      - split; [| intros; contradiction].
        destruct (IsClassification cRuntimeClasses); [| reflexivity].
        apply call_ZeroDimensionsTarget_walk; assumption.
      - destruct k_bUseSIMD eqn:Hsimd.
        + destruct (Hwalk Hterm eq_refl) as [[Hstop Hbefore] Hrange].
          assert (Hm : (m < fuel)%nat).
          { enough (m <= n)%nat by lia.
            apply (walk_stops_before runtimeBitPack); [split; assumption | exact Hreach]. }
          split.
          * destruct (IsClassification cRuntimeClasses).
            -- rewrite call_SIMDTarget_walk by assumption.
               rewrite (call_SIMDPacking_walk fuel _ m) by assumption.
               reflexivity.
            -- rewrite (call_SIMDPacking_walk fuel _ m) by assumption.
               reflexivity.
          * intros _ _. apply selected_pack_stops; assumption.
        + split; [| intros _ Hflag; discriminate].
          destruct (IsClassification cRuntimeClasses); [| reflexivity].
          apply call_NormalTarget_walk; assumption. }
    destruct Hroute as [Hlog Hwidth].
    split; [exact Hlog |]. split; [| exact Hwidth].
    unfold stated_selection.
    destruct (Z.eqb_spec k_illegalTermIndex iTerm) as [Hterm | Hterm].
    + exists (ZeroDimensionsFunc (selected_classes cRuntimeClasses)).
      split; [| exact (Hzero Hterm)].
      unfold selected_classes.
      destruct (IsClassification cRuntimeClasses);
        [apply last_snoc | reflexivity].
    + destruct k_bUseSIMD eqn:Hsimd.
      * exists (InternalFunc (selected_classes cRuntimeClasses)
                  (next_pack m k_cItemsPerBitPackMax)).
        split; [rewrite app_assoc; apply last_snoc |].
        rewrite (Hindexed Hterm), (Hwidth Hterm eq_refl). reflexivity.
      * exists (InternalFunc (selected_classes cRuntimeClasses)
                  k_cItemsPerBitPackDynamic).
        split; [apply last_snoc |].
        exact (Hindexed Hterm).
Qed.

End Selection.

(** With the vector-instruction flag set, three classes and a term of two
    items per word: the class-count walk stops at 3, the pack-width walk
    64, 32, 21, 16, 12, 10, 9, 8, 7, 6, 5, 4, 3, 2 stops at 2. *)
Lemma entry_point_selects_witness :
  BinSumsBoosting (H0 := header64_simd) 20 scenario3_shell 0 scenario3_bag
  = BinSumsBoostingInternal (H0 := header64_simd) 20 3 2 scenario3_shell 0
      scenario3_bag
  /\ BinSumsBoostingInternal (H0 := header64_simd) 20 3 2 scenario3_shell 0
       scenario3_bag
     = BinSumsBoostingInternal (H0 := header64_simd) 20 0 0 scenario3_shell 0
         scenario3_bag
  /\ fst (call_BinSumsBoosting (H0 := header64_simd) 20 scenario3_shell 0
            scenario3_bag)
     = [SIMDTargetFunc 2; SIMDTargetFunc 3]
       ++ map (SIMDPackingFunc 3) [64; 32; 21; 16; 12; 10; 9; 8; 7; 6; 5; 4; 3; 2]
       ++ [InternalFunc 3 2].
Proof.
  destruct (entry_point_selects (H0 := header64_simd) scenario3_shell scenario3_bag 0
              20 15)
    as (_ & Hindexed & _ & _ & _ & Hclassification & _ & _ & _ & Hroute);
    [vm_compute; discriminate | reflexivity | reflexivity | vm_compute; lia | lia |].
  split; [| split].
  - apply Hindexed. vm_compute. discriminate.
  - apply (Hclassification eq_refl).
  - destruct (Hroute 13%nat) as [Hlog _]; [| exact Hlog].
    intros _ _. split; [split |].
    + right. reflexivity.
    + intros j Hj.
      do 13 (destruct j as [| j]; [vm_compute; split; discriminate |]).
      lia.
    + vm_compute. split; [discriminate | reflexivity].
Defined.

(** ** Decoding of the packed words *)

Lemma maskBitsOf_ones `{EbmInternal} (cBitsPerItemMax : Z) :
  0 <= cBitsPerItemMax <= k_cBitsForStorageType ->
  maskBitsOf cBitsPerItemMax = Z.ones cBitsPerItemMax.
Proof.
  intros Hbits. unfold maskBitsOf. apply Z.bits_inj'. intros b Hb.
  rewrite Z.shiftr_spec by exact Hb.
  rewrite !Z.testbit_ones_nonneg by lia.
  destruct (Z.ltb_spec (b + (k_cBitsForStorageType - cBitsPerItemMax))
              k_cBitsForStorageType),
           (Z.ltb_spec b cBitsPerItemMax); try reflexivity; lia.
Qed.

Lemma testbit_field_of (cBitsPerItemMax w j b : Z) :
  0 <= cBitsPerItemMax -> 0 <= j -> 0 <= b ->
  Z.testbit (field_of cBitsPerItemMax w j) b
  = (b <? cBitsPerItemMax) && Z.testbit w (cBitsPerItemMax * j + b).
Proof.
  intros Hbits Hj Hb. unfold field_of.
  rewrite Z.land_spec, Z.testbit_ones_nonneg, Z.shiftr_spec by lia.
  f_equal. f_equal. lia.
Qed.

Lemma field_of_range (cBitsPerItemMax w j : Z) :
  0 <= cBitsPerItemMax -> 0 <= field_of cBitsPerItemMax w j < 2 ^ cBitsPerItemMax.
Proof.
  intros Hbits. unfold field_of. rewrite Z.land_comm, Z.land_ones by exact Hbits.
  apply Z.mod_pos_bound. apply Z.pow_pos_nonneg; lia.
Qed.

Lemma decode_word_lookup (maskBits cBitsPerItemMax : Z) (c : nat) :
  forall (w : Z) (j : nat),
    0 <= cBitsPerItemMax ->
    (j < c)%nat ->
    decode_word maskBits cBitsPerItemMax c w !! j
    = Some (Z.land maskBits (Z.shiftr w (cBitsPerItemMax * Z.of_nat j))).
Proof.
  induction c as [| c IH]; intros w j Hbits Hj; [lia |].
  destruct j as [| j]; cbn [decode_word].
  - change (Z.of_nat 0) with 0. rewrite Z.mul_0_r, Z.shiftr_0_r. reflexivity.
  - change ((Z.land maskBits w
               :: decode_word maskBits cBitsPerItemMax c (Z.shiftr w cBitsPerItemMax))
              !! S j)
      with (decode_word maskBits cBitsPerItemMax c (Z.shiftr w cBitsPerItemMax) !! j).
    rewrite IH by (auto; lia).
    rewrite Z.shiftr_shiftr by lia.
    do 3 f_equal. lia.
Qed.

Lemma decode_stream_lookup (maskBits cBitsPerItemMax : Z) (aInputData : list Z)
    (q r : nat) (m : nat) :
  forall (k : Z) (i : nat),
    0 <= cBitsPerItemMax ->
    (1 <= q)%nat -> (r <= q)%nat ->
    (i < m * q + r)%nat ->
    decode_stream maskBits cBitsPerItemMax aInputData q r m k !! i
    = Some (Z.land maskBits
              (Z.shiftr (at0 0 aInputData (k + Z.of_nat (i / q)))
                 (cBitsPerItemMax * Z.of_nat (i mod q)))).
Proof.
  induction m as [| m IH]; intros k i Hbits Hq Hr Hi; cbn [decode_stream].
  - rewrite decode_word_lookup by (auto; lia).
    rewrite Nat.div_small, Nat.mod_small by lia.
    change (Z.of_nat 0) with 0. rewrite Z.add_0_r. reflexivity.
  - destruct (Nat.lt_ge_cases i q) as [Hlt | Hge].
    + rewrite lookup_app_l by (rewrite length_decode_word; exact Hlt).
      rewrite decode_word_lookup by (auto; lia).
      rewrite Nat.div_small, Nat.mod_small by lia.
      change (Z.of_nat 0) with 0. rewrite Z.add_0_r. reflexivity.
    + rewrite lookup_app_r by (rewrite length_decode_word; exact Hge).
      rewrite length_decode_word. rewrite IH by (auto; lia).
      replace i with ((i - q) + 1 * q)%nat at 3 4 by lia.
      rewrite Nat.div_add, Nat.Div0.mod_add by lia.
      do 4 f_equal. lia.
Qed.

Section Decoding.
Context {F : Type} `{FloatOps F} `{EbmInternal}.

Variable cCompilerClasses : Z.
Variable pBoosterShell : BoosterShell F.
Variable pInnerBag : InnerBag F.
Variable compilerBitPack : Z.
Variable iTerm : Z.

Local Abbreviation cSam := (call_samples pBoosterShell).
Local Abbreviation cSco := (call_scores cCompilerClasses pBoosterShell).
Local Abbreviation cItm := (call_items pBoosterShell compilerBitPack iTerm).
Local Abbreviation cBit := (call_bits pBoosterShell compilerBitPack iTerm).
Local Abbreviation aWrd := (call_words pBoosterShell iTerm).
Local Abbreviation aIdx := (call_indices pBoosterShell compilerBitPack iTerm).
Local Abbreviation okIdx :=
  (indexed_ok cCompilerClasses pBoosterShell pInnerBag compilerBitPack iTerm).
Local Abbreviation fuel0 := (Z.to_nat cSam + Z.to_nat cSco)%nat.

(** C4, amended. On an indexed call that satisfies the contract, with
    [cBitsPerItemMax = GetCountBits(cItemsPerBitPack)] between 1 and the bit
    count of the storage word as the code asserts: the mask is
    [cBitsPerItemMax] one-bits; the bin index of sample [i] is field
    [i mod cItemsPerBitPack] of word [i / cItemsPerBitPack], so the decoder
    moves to the next word after [cItemsPerBitPack] fields; field [j] is
    made of the bits [cBitsPerItemMax * j ..] of the word, lowest field
    first, and is below [2 ^ cBitsPerItemMax]; and the kernel adds every
    sample to the bin of that index, having fetched one word per
    [cItemsPerBitPack] samples. *)
Theorem decoder_reads_fields :
  okIdx ->
  maskBitsOf cBit = Z.ones cBit
  /\ Z.ones cBit = 2 ^ cBit - 1
  /\ (forall i : Z, 0 <= i < cSam ->
      aIdx !! Z.to_nat i
      = Some (field_of cBit (at0 0 aWrd (i / cItm)) (i mod cItm)))
  /\ (forall w j b : Z, 0 <= j -> 0 <= b ->
      Z.testbit (field_of cBit w j) b
      = (b <? cBit) && Z.testbit w (cBit * j + b))
  /\ (forall w j : Z, 0 <= field_of cBit w j < 2 ^ cBit)
  /\ exists fuelMin : nat, forall fuel : nat, (fuelMin <= fuel)%nat ->
       exists st : Locals F,
         BinSumsBoostingInternal fuel cCompilerClasses compilerBitPack pBoosterShell
           iTerm pInnerBag
         = Some st
         /\ aBins st
            = bins_effect (call_classification cCompilerClasses) cSco
                (m_aCountOccurrences pInnerBag) (m_aWeights pInnerBag)
                (call_gradients pBoosterShell) 0 aIdx
                (m_aBoostingFastBinsTemp pBoosterShell)
         /\ pInputData st = (cSam - 1) / cItm + 1.
Proof.
  intros Hix. pose proof (ok_call Hix) as Hok.
  pose proof (ok_samples Hok) as Hn. pose proof (ok_items Hix) as Hq.
  pose proof (ok_bits Hix) as Hbits.
  pose proof (tail_items_bounds _ _ _ (proj1 Hq)) as Hr.
  pose proof (words_and_tail _ _ _ (proj1 Hq)) as Hsum.
  assert (Hm : 0 <= full_words cSam cItm)
    by (unfold full_words; apply Z.div_pos; lia).
  assert (Hmask : maskBitsOf cBit = Z.ones cBit) by (apply maskBitsOf_ones; lia).
  split; [exact Hmask |].
  split; [rewrite Z.ones_equiv; lia |].
  split; [| split; [| split]].
  - intros i Hi. unfold call_indices.
    rewrite decode_stream_lookup by (try lia; nia).
    rewrite Hmask, Nat2Z.inj_div, Nat2Z.inj_mod, !Z2Nat.id by lia.
    rewrite Z.add_0_l. reflexivity.
  - intros w j b Hj Hb. apply testbit_field_of; lia.
  - intros w j. apply field_of_range. lia.
  - exists fuel0. intros fuel Hfuel.
    exists (indexed_result cCompilerClasses pBoosterShell pInnerBag compilerBitPack iTerm).
    split; [apply BinSumsBoostingInternal_run; auto; lia |].
    rewrite indexed_result_eq by exact Hix. cbn [aBins pInputData].
    split; reflexivity.
Qed.

End Decoding.

(** The scenario of the specification: four fields of 16 bits per word. *)
Lemma decoder_reads_fields_witness :
  maskBitsOf 16 = Z.ones 16
  /\ (forall i : Z, 0 <= i < 5 ->
      call_indices scenario_shell 0 0 !! Z.to_nat i
      = Some (field_of 16 (at0 0 (call_words scenario_shell 0) (i / 4)) (i mod 4)))
  /\ exists fuelMin : nat, forall fuel : nat, (fuelMin <= fuel)%nat ->
       exists st : Locals Z,
         BinSumsBoostingInternal fuel (-1) 0 scenario_shell 0 scenario_bag = Some st
         /\ aBins st
            = bins_effect false 1 (m_aCountOccurrences scenario_bag)
                (m_aWeights scenario_bag) (call_gradients scenario_shell) 0
                [0; 1; 3; 1; 2] (m_aBoostingFastBinsTemp scenario_shell)
         /\ pInputData st = 2.
Proof.
  destruct (decoder_reads_fields (-1) scenario_shell scenario_bag 0 0)
    as (Hmask & _ & Hfields & _ & _ & Hrun); [contract |].
  split; [exact Hmask |]. split; [exact Hfields | exact Hrun].
Defined.

(** C4 as stated fails on the width of a field.  The minimal number of
    bits for [itemsPerWord - 1] values is 0 at a pack width of 1, below the
    one bit the code asserts; and it is 6 at a pack width of 64, where a
    64-bit storage word read by the decoder has nothing but zero in its
    fields 11 to 63: such a word cannot hold 64 fields of that width. *)
Lemma spec_width_counterexample :
  (1 <= 1 <= k_cBitsForStorageType /\ GetCountBits_spec 1 = 0
   /\ ~ 1 <= GetCountBits_spec 1)
  /\ (1 <= 64 <= k_cBitsForStorageType /\ GetCountBits_spec 64 = 6
      /\ 64 * GetCountBits_spec 64 > k_cBitsForStorageType
      /\ forall w j : Z, 0 <= w < 2 ^ k_cBitsForStorageType -> 11 <= j ->
           field_of (GetCountBits_spec 64) w j = 0).
Proof.
  split.
  - change k_cBitsForStorageType with 64. change (GetCountBits_spec 1) with 0.
    repeat split; lia.
  - split; [change k_cBitsForStorageType with 64; lia |].
    split; [reflexivity |]. split; [reflexivity |].
    intros w j Hw Hj. change (GetCountBits_spec 64) with 6.
    change k_cBitsForStorageType with 64 in Hw.
    unfold field_of. rewrite Z.shiftr_div_pow2 by lia.
    rewrite Z.div_small; [reflexivity |].
    split; [lia |].
    apply Z.lt_le_trans with (2 ^ 64); [lia |].
    apply Z.pow_le_mono_r; lia.
Qed.

(** ** The weights of the bins *)

Section WeightClaim.
Context {F : Type} `{ExactArith F} `{EbmInternal}.

Variable cCompilerClasses : Z.
Variable pBoosterShell : BoosterShell F.
Variable pInnerBag : InnerBag F.
Variable compilerBitPack : Z.
Variable iTerm : Z.

Local Abbreviation cSam := (call_samples pBoosterShell).
Local Abbreviation cSco := (call_scores cCompilerClasses pBoosterShell).
Local Abbreviation bCls := (call_classification cCompilerClasses).
Local Abbreviation okCall := (call_ok cCompilerClasses pBoosterShell pInnerBag).
Local Abbreviation okIdx :=
  (indexed_ok cCompilerClasses pBoosterShell pInnerBag compilerBitPack iTerm).
Local Abbreviation bins0 := (m_aBoostingFastBinsTemp pBoosterShell).
Local Abbreviation fuel0 := (Z.to_nat cSam + Z.to_nat cSco)%nat.
Local Abbreviation weights_of :=
  (sum_samples (at0 fzero (m_aWeights pInnerBag)) 0 (Z.to_nat cSam)).

Lemma sum_weights_effect (idxs : list Z) :
  forall (i : Z) (bins : list (Bin F)),
    valid_indices (length bins) idxs ->
    sum_weights
      (bins_effect bCls cSco (m_aCountOccurrences pInnerBag) (m_aWeights pInnerBag)
         (call_gradients pBoosterShell) i idxs bins)
    = fadd (sum_weights bins)
        (sum_samples (at0 fzero (m_aWeights pInnerBag)) i (length idxs)).
Proof.
  induction idxs as [| idx idxs IH]; intros i bins Hvalid;
    cbn [bins_effect length sum_samples].
  - symmetry. apply fadd_zero_r.
  - apply Forall_cons in Hvalid as [Hidx Hrest].
    destruct (lookup_lt_is_Some_2 bins (Z.to_nat idx)) as [b Hb]; [lia |].
    rewrite IH by (rewrite length_alter; exact Hrest).
    rewrite fadd_assoc. f_equal. unfold sum_weights.
    apply (fsum_alter _ _ _ bins _ b Hb). reflexivity.
Qed.

(** In an arithmetic whose addition is associative and commutative with
    unit 0, after one pass of either kernel the sum of [weight] over the
    bins is the sum it had at entry plus the sum of the weights of the
    samples. *)
Theorem weights_accumulate :
  (okCall ->
   exists fuelMin : nat, forall fuel : nat, (fuelMin <= fuel)%nat ->
     exists st : Locals F,
       BinSumsBoostingZeroDimensions fuel cCompilerClasses pBoosterShell pInnerBag
       = Some st
       /\ sum_weights (aBins st) = fadd (sum_weights bins0) weights_of)
  /\
  (okIdx ->
   exists fuelMin : nat, forall fuel : nat, (fuelMin <= fuel)%nat ->
     exists st : Locals F,
       BinSumsBoostingInternal fuel cCompilerClasses compilerBitPack pBoosterShell
         iTerm pInnerBag
       = Some st
       /\ sum_weights (aBins st) = fadd (sum_weights bins0) weights_of).
Proof.
  split.
  - intros Hok. exists fuel0. intros fuel Hfuel.
    exists (zero_result cCompilerClasses pBoosterShell pInnerBag).
    split; [apply BinSumsBoostingZeroDimensions_run; auto; lia |].
    rewrite zero_result_eq by exact Hok. cbn [aBins].
    pose proof (ok_samples Hok). pose proof (ok_bins Hok).
    rewrite sum_weights_effect, length_replicate; [reflexivity |].
    apply Forall_replicate. lia.
  - intros Hix. exists fuel0. intros fuel Hfuel.
    exists (indexed_result cCompilerClasses pBoosterShell pInnerBag compilerBitPack iTerm).
    split; [apply BinSumsBoostingInternal_run; auto; lia |].
    rewrite indexed_result_eq by exact Hix. cbn [aBins].
    pose proof (length_call_indices _ _ _ _ _ Hix) as Hlen.
    rewrite sum_weights_effect by exact (ok_indices Hix).
    do 2 f_equal. lia.
Qed.

End WeightClaim.

Lemma weights_accumulate_witness :
  (exists fuelMin : nat, forall fuel : nat, (fuelMin <= fuel)%nat ->
     exists st : Locals Z,
       BinSumsBoostingZeroDimensions fuel 3 scenario3_shell scenario3_bag = Some st
       /\ sum_weights (aBins st) = 0 + 5)
  /\
  (exists fuelMin : nat, forall fuel : nat, (fuelMin <= fuel)%nat ->
     exists st : Locals Z,
       BinSumsBoostingInternal fuel 3 0 scenario3_shell 0 scenario3_bag = Some st
       /\ sum_weights (aBins st) = 0 + 5).
Proof.
  destruct (weights_accumulate 3 scenario3_shell scenario3_bag 0 0)
    as [Hzero Hindexed].
  split; [exact (Hzero ltac:(contract)) | exact (Hindexed ltac:(contract))].
Defined.

(** ** Rounding *)

(** In IEEE binary64 the laws of an exact arithmetic fail, and with them
    the equality of the sum over the bins and the sum over the samples: on
    a zeroed buffer the indexed kernel leaves a gradient sum of 0 in bin 0
    and of 1 in bin 1, while the gradients added in sample order give 0. *)
Lemma binary64_sum_depends_on_order :
  exists st : Locals float,
    BinSumsBoostingInternal 3 (-1) 0 rounding_shell 0 rounding_bag = Some st
    /\ sum_gradients 0 (aBins st) = 1%float
    /\ fadd (fadd (fadd fzero (fmul 1e16%float 1%float)) (fmul 1%float 1%float))
         (fmul (-1e16)%float 1%float) = 0%float.
Proof.
  eexists. split; [vm_compute; reflexivity |].
  split; vm_compute; reflexivity.
Qed.

(** * Further properties of the kernels *)

(** ** Bin by bin *)

Lemma samples_of_replicate (n : nat) :
  forall i : Z, samples_of 0 i (replicate n 0) = consecutive i n.
Proof.
  induction n as [| n IH]; intros i; cbn [replicate samples_of consecutive];
    [reflexivity |].
  rewrite IH. reflexivity.
Qed.

Lemma samples_of_absent (j : Z) (idxs : list Z) :
  forall i : Z, ~ In j idxs -> samples_of j i idxs = [].
Proof.
  induction idxs as [| idx idxs IH]; intros i Hj; cbn [samples_of]; [reflexivity |].
  destruct (Z.eqb_spec idx j) as [Heq | _]; [exfalso; apply Hj; left; exact Heq |].
  apply IH. intros Hin. apply Hj. right. exact Hin.
Qed.

Lemma map_at0_consecutive {A : Type} (d : A) (l : list A) :
  forall pre : list A,
    map (at0 d (pre ++ l)) (consecutive (Z.of_nat (length pre)) (length l)) = l.
Proof.
  induction l as [| x l IH]; intros pre; cbn [length consecutive map]; [reflexivity |].
  specialize (IH (pre ++ [x])). rewrite <- app_assoc, length_app in IH.
  cbn [app length] in IH.
  replace (Z.of_nat (length pre) + 1) with (Z.of_nat (length pre + 1)) by lia.
  rewrite IH. f_equal.
  unfold at0. rewrite deref_nat, lookup_app_r by lia.
  rewrite Nat.sub_diag. reflexivity.
Qed.

Section BinByBin.
Context {F : Type} `{FloatOps F}.
Variable bClassification : bool.
Variable cScores : Z.
Variable aCountOccurrences : list Z.
Variables aWeights aGH : list F.

Local Abbreviation effect :=
  (bins_effect bClassification cScores aCountOccurrences aWeights aGH).
Local Abbreviation add_sample :=
  (fun (b : Bin F) (i : Z) =>
     bin_effect bClassification cScores aCountOccurrences aWeights aGH i b).

(** Bin [j] after the samples: the samples of the bin were added to it,
    in sample order. *)
Lemma lookup_bins_effect (idxs : list Z) :
  forall (i : Z) (bins : list (Bin F)) (j : nat),
    Forall (fun idx => 0 <= idx) idxs ->
    effect i idxs bins !! j
    = (fun b => fold_left add_sample (samples_of (Z.of_nat j) i idxs) b) <$> bins !! j.
Proof.
  induction idxs as [| idx idxs IH]; intros i bins j Hpos; cbn [bins_effect samples_of].
  - destruct (bins !! j); reflexivity.
  - apply Forall_cons in Hpos as [Hidx Hrest].
    rewrite IH by exact Hrest.
    destruct (Z.eqb_spec idx (Z.of_nat j)) as [Heq | Hne].
    + replace (Z.to_nat idx) with j by lia.
      rewrite list_lookup_alter_eq. destruct (bins !! j); reflexivity.
    + rewrite list_lookup_alter_ne by lia. reflexivity.
Qed.

Lemma weight_fold (l : list Z) :
  forall b : Bin F,
    m_weight (fold_left add_sample l b)
    = fsum_from (m_weight b) (map (at0 fzero aWeights) l).
Proof.
  induction l as [| i l IH]; intros b; cbn [fold_left map]; [reflexivity |].
  rewrite IH. reflexivity.
Qed.

Lemma gradient_fold (s : Z) (l : list Z) :
  forall b : Bin F,
    0 <= s < cScores ->
    cScores <= Z.of_nat (length (m_aGradientPairs b)) ->
    m_sumGradients (pair_at s (fold_left add_sample l b))
    = fsum_from (m_sumGradients (pair_at s b))
        (map (weighted_gradient bClassification cScores aWeights aGH s) l).
Proof.
  induction l as [| i l IH]; intros b Hs Hlen; cbn [fold_left map]; [reflexivity |].
  rewrite IH; [| exact Hs |].
  - rewrite pair_at_bin_effect by assumption. reflexivity.
  - cbn [bin_effect m_aGradientPairs]. rewrite length_scores_effect. exact Hlen.
Qed.

Lemma hessian_fold (s : Z) (l : list Z) :
  forall b : Bin F,
    0 <= s < cScores ->
    cScores <= Z.of_nat (length (m_aGradientPairs b)) ->
    m_sumHessians (pair_at s (fold_left add_sample l b))
    = if bClassification
      then fsum_from (m_sumHessians (pair_at s b))
             (map (weighted_hessian bClassification cScores aWeights aGH s) l)
      else m_sumHessians (pair_at s b).
Proof.
  induction l as [| i l IH]; intros b Hs Hlen; cbn [fold_left map].
  - destruct bClassification; reflexivity.
  - rewrite IH; [| exact Hs |].
    + rewrite pair_at_bin_effect by assumption.
      unfold pair_effect, weighted_hessian. cbn [m_sumHessians].
      destruct bClassification; reflexivity.
    + cbn [bin_effect m_aGradientPairs]. rewrite length_scores_effect. exact Hlen.
Qed.

(** Modulo the word size, the count of a bin grows by the occurrences of
    its samples. *)
Lemma count_fold_congruent (l : list Z) :
  forall b : Bin F,
    exists k : Z,
      m_cSamples (fold_left add_sample l b)
      = m_cSamples b + sum_Z (map (at0 0 aCountOccurrences) l) + k * 2 ^ size_t_bits.
Proof.
  induction l as [| i l IH]; intros b; cbn [fold_left map].
  - exists 0. change (sum_Z []) with 0. lia.
  - destruct (IH (add_sample b i)) as [k Hk]. rewrite Hk.
    cbn [bin_effect m_cSamples]. unfold size_t_wrap.
    change (sum_Z (at0 0 aCountOccurrences i :: map (at0 0 aCountOccurrences) l))
      with (at0 0 aCountOccurrences i + sum_Z (map (at0 0 aCountOccurrences) l)).
    set (z := m_cSamples b + at0 0 aCountOccurrences i).
    exists (k - z / 2 ^ size_t_bits).
    pose proof (Z.div_mod z (2 ^ size_t_bits)) as Hdm.
    assert (Hpos : 2 ^ size_t_bits <> 0) by (vm_compute; discriminate).
    specialize (Hdm Hpos). subst z. lia.
Qed.

Lemma count_fold_exact (l : list Z) :
  forall b : Bin F,
    Forall (fun c => 0 <= c) aCountOccurrences ->
    0 <= m_cSamples b ->
    m_cSamples b + sum_Z (map (at0 0 aCountOccurrences) l) < 2 ^ size_t_bits ->
    m_cSamples (fold_left add_sample l b)
    = m_cSamples b + sum_Z (map (at0 0 aCountOccurrences) l).
Proof.
  intros b Hocc. revert b.
  assert (Ho : forall j, 0 <= at0 0 aCountOccurrences j)
    by (intros j; apply (at0_Forall (fun c => 0 <= c)); [lia | exact Hocc]).
  assert (Hsum : forall l' : list Z, 0 <= sum_Z (map (at0 0 aCountOccurrences) l')).
  { induction l' as [| x l' IH']; [reflexivity |].
    change (sum_Z (map (at0 0 aCountOccurrences) (x :: l')))
      with (at0 0 aCountOccurrences x + sum_Z (map (at0 0 aCountOccurrences) l')).
    specialize (Ho x). lia. }
  induction l as [| i l IH]; intros b Hb Hsmall; cbn [fold_left map] in *.
  - change (sum_Z []) with 0. lia.
  - change (sum_Z (at0 0 aCountOccurrences i :: map (at0 0 aCountOccurrences) l))
      with (at0 0 aCountOccurrences i + sum_Z (map (at0 0 aCountOccurrences) l)) in *.
    specialize (Ho i). specialize (Hsum l).
    assert (Hstep : m_cSamples (add_sample b i) = m_cSamples b + at0 0 aCountOccurrences i)
      by (cbn [bin_effect m_cSamples]; apply size_t_wrap_small; lia).
    rewrite IH; rewrite Hstep; lia.
Qed.

End BinByBin.
Section BinClaims.
Context {F : Type} `{FloatOps F} `{EbmInternal}.

Variable cCompilerClasses : Z.
Variable pBoosterShell : BoosterShell F.
Variable pInnerBag : InnerBag F.
Variable compilerBitPack : Z.
Variable iTerm : Z.

Local Abbreviation cSam := (call_samples pBoosterShell).
Local Abbreviation cSco := (call_scores cCompilerClasses pBoosterShell).
Local Abbreviation bCls := (call_classification cCompilerClasses).
Local Abbreviation okCall := (call_ok cCompilerClasses pBoosterShell pInnerBag).
Local Abbreviation okIdx :=
  (indexed_ok cCompilerClasses pBoosterShell pInnerBag compilerBitPack iTerm).
Local Abbreviation bins0 := (m_aBoostingFastBinsTemp pBoosterShell).
Local Abbreviation fuel0 := (Z.to_nat cSam + Z.to_nat cSco)%nat.
Local Abbreviation occurrences := (m_aCountOccurrences pInnerBag).
Local Abbreviation weights := (m_aWeights pInnerBag).
Local Abbreviation gradients := (call_gradients pBoosterShell).
Local Abbreviation aIdx := (call_indices pBoosterShell compilerBitPack iTerm).
Local Abbreviation effect := (bins_effect bCls cSco occurrences weights gradients).
Local Abbreviation add_sample :=
  (fun (b : Bin F) (i : Z) => bin_effect bCls cSco occurrences weights gradients i b).
Local Abbreviation all_samples := (consecutive 0 (Z.to_nat cSam)).
Local Abbreviation samples_in j := (samples_of (Z.of_nat j) 0 aIdx).

Lemma bin_after (idxs : list Z) (j : nat) (b0 : Bin F) :
  valid_indices (length bins0) idxs ->
  bins0 !! j = Some b0 ->
  effect 0 idxs bins0 !! j
  = Some (fold_left add_sample (samples_of (Z.of_nat j) 0 idxs) b0).
Proof.
  intros Hvalid Hb0. rewrite lookup_bins_effect.
  - rewrite Hb0. reflexivity.
  - eapply Forall_impl; [exact Hvalid |]. simpl. intros idx Hidx. lia.
Qed.

Lemma first_bin_after (b0 : Bin F) :
  okCall ->
  bins0 !! 0%nat = Some b0 ->
  effect 0 (replicate (Z.to_nat cSam) 0) bins0 !! 0%nat
  = Some (fold_left add_sample all_samples b0).
Proof.
  intros Hok Hb0. pose proof (ok_bins Hok).
  rewrite (bin_after _ 0 b0); [| apply Forall_replicate; lia | exact Hb0].
  change (Z.of_nat 0) with 0. rewrite samples_of_replicate. reflexivity.
Qed.

Lemma occurrences_of_all :
  okCall -> map (at0 0 occurrences) all_samples = occurrences.
Proof.
  intros Hok. pose proof (ok_occurrences Hok) as Hlen.
  replace (Z.to_nat cSam) with (length occurrences) by lia.
  exact (map_at0_consecutive 0 occurrences []).
Qed.

Lemma weights_of_all :
  okCall -> map (at0 fzero weights) all_samples = weights.
Proof.
  intros Hok. pose proof (ok_weights Hok) as Hlen.
  replace (Z.to_nat cSam) with (length weights) by lia.
  exact (map_at0_consecutive fzero weights []).
Qed.

Lemma pairs_of_bin (j : nat) (b0 : Bin F) :
  okCall -> bins0 !! j = Some b0 ->
  cSco <= Z.of_nat (length (m_aGradientPairs b0)).
Proof.
  intros Hok Hb0.
  pose proof (Forall_lookup_1 _ _ _ _ (ok_pairs Hok) Hb0) as Hlen. simpl in Hlen. lia.
Qed.

(** The count of a bin grows by the occurrence counts of the samples
    that fall into it, and of no other sample: modulo [2^64], the word in
    which it is kept, and exactly while it stays below [2^64].  The single
    bin of the zero-dimension kernel receives every sample. *)
Theorem bin_counts_its_samples :
  (okCall ->
   exists fuelMin : nat, forall fuel : nat, (fuelMin <= fuel)%nat ->
     exists st : Locals F,
       BinSumsBoostingZeroDimensions fuel cCompilerClasses pBoosterShell pInnerBag
       = Some st
       /\ forall b0 : Bin F, bins0 !! 0%nat = Some b0 ->
            exists b : Bin F,
              aBins st !! 0%nat = Some b
              /\ m_cSamples b mod 2 ^ size_t_bits
                 = (m_cSamples b0 + sum_Z occurrences) mod 2 ^ size_t_bits
              /\ (0 <= m_cSamples b0 ->
                  m_cSamples b0 + sum_Z occurrences < 2 ^ size_t_bits ->
                  m_cSamples b = m_cSamples b0 + sum_Z occurrences))
  /\
  (okIdx ->
   exists fuelMin : nat, forall fuel : nat, (fuelMin <= fuel)%nat ->
     exists st : Locals F,
       BinSumsBoostingInternal fuel cCompilerClasses compilerBitPack pBoosterShell
         iTerm pInnerBag
       = Some st
       /\ forall (j : nat) (b0 : Bin F), bins0 !! j = Some b0 ->
            exists b : Bin F,
              aBins st !! j = Some b
              /\ m_cSamples b mod 2 ^ size_t_bits
                 = (m_cSamples b0 + sum_Z (map (at0 0 occurrences) (samples_in j)))
                   mod 2 ^ size_t_bits
              /\ (0 <= m_cSamples b0 ->
                  m_cSamples b0 + sum_Z (map (at0 0 occurrences) (samples_in j))
                  < 2 ^ size_t_bits ->
                  m_cSamples b
                  = m_cSamples b0 + sum_Z (map (at0 0 occurrences) (samples_in j)))).
Proof.
  assert (Hnonneg : okCall -> Forall (fun c => 0 <= c) occurrences).
  { intros Hok. eapply Forall_impl; [apply (ok_occurrence_range Hok) |].
    simpl. intros c Hc. lia. }
  split.
  - intros Hok. exists fuel0. intros fuel Hfuel.
    exists (zero_result cCompilerClasses pBoosterShell pInnerBag).
    split; [apply BinSumsBoostingZeroDimensions_run; auto; lia |].
    rewrite zero_result_eq by exact Hok. cbn [aBins].
    intros b0 Hb0. eexists. split; [exact (first_bin_after b0 Hok Hb0) |].
    rewrite <- (occurrences_of_all Hok) at 1 2 3. split.
    + destruct (count_fold_congruent bCls cSco occurrences weights gradients
                  all_samples b0) as [k Hk].
      rewrite Hk. apply Z_mod_plus_full.
    + intros Hb Hsmall. apply count_fold_exact; auto.
  - intros Hix. pose proof (ok_call Hix) as Hok.
    exists fuel0. intros fuel Hfuel.
    exists (indexed_result cCompilerClasses pBoosterShell pInnerBag compilerBitPack iTerm).
    split; [apply BinSumsBoostingInternal_run; auto; lia |].
    rewrite indexed_result_eq by exact Hix. cbn [aBins].
    intros j b0 Hb0. eexists.
    split; [exact (bin_after _ j b0 (ok_indices Hix) Hb0) |]. split.
    + destruct (count_fold_congruent bCls cSco occurrences weights gradients
                  (samples_in j) b0) as [k Hk].
      rewrite Hk. apply Z_mod_plus_full.
    + intros Hb Hsmall. apply count_fold_exact; auto.
Qed.

(** In any arithmetic, IEEE floating point included, the weight of a bin
    is the weight it had at entry with the weights of its samples added
    one by one in sample order; the single bin of the zero-dimension kernel
    receives every weight of the bag. *)
Theorem bin_weight_is_ordered_sum :
  (okCall ->
   exists fuelMin : nat, forall fuel : nat, (fuelMin <= fuel)%nat ->
     exists st : Locals F,
       BinSumsBoostingZeroDimensions fuel cCompilerClasses pBoosterShell pInnerBag
       = Some st
       /\ forall b0 : Bin F, bins0 !! 0%nat = Some b0 ->
            exists b : Bin F,
              aBins st !! 0%nat = Some b
              /\ m_weight b = fsum_from (m_weight b0) weights)
  /\
  (okIdx ->
   exists fuelMin : nat, forall fuel : nat, (fuelMin <= fuel)%nat ->
     exists st : Locals F,
       BinSumsBoostingInternal fuel cCompilerClasses compilerBitPack pBoosterShell
         iTerm pInnerBag
       = Some st
       /\ forall (j : nat) (b0 : Bin F), bins0 !! j = Some b0 ->
            exists b : Bin F,
              aBins st !! j = Some b
              /\ m_weight b
                 = fsum_from (m_weight b0) (map (at0 fzero weights) (samples_in j))).
Proof.
  split.
  - intros Hok. exists fuel0. intros fuel Hfuel.
    exists (zero_result cCompilerClasses pBoosterShell pInnerBag).
    split; [apply BinSumsBoostingZeroDimensions_run; auto; lia |].
    rewrite zero_result_eq by exact Hok. cbn [aBins].
    intros b0 Hb0. eexists. split; [exact (first_bin_after b0 Hok Hb0) |].
    rewrite weight_fold, (weights_of_all Hok). reflexivity.
  - intros Hix. exists fuel0. intros fuel Hfuel.
    exists (indexed_result cCompilerClasses pBoosterShell pInnerBag compilerBitPack iTerm).
    split; [apply BinSumsBoostingInternal_run; auto; lia |].
    rewrite indexed_result_eq by exact Hix. cbn [aBins].
    intros j b0 Hb0. eexists.
    split; [exact (bin_after _ j b0 (ok_indices Hix) Hb0) |].
    apply weight_fold.
Qed.

Local Abbreviation gradient_of s := (weighted_gradient bCls cSco weights gradients s).
Local Abbreviation hessian_of s := (weighted_hessian bCls cSco weights gradients s).

(** In any arithmetic, IEEE floating point included, the gradient sum of
    score [s] of a bin is the sum it had at entry with
    [gradient(i,s) * weight[i]] added for each of its samples [i] in sample
    order; for a classification the hessian sum likewise, with the hessian
    read at the position that follows the gradient; for a regression the
    hessian sum is the one at entry. *)
Theorem bin_gradients_are_ordered_sums (s : Z) :
  0 <= s < cSco ->
  (okCall ->
   exists fuelMin : nat, forall fuel : nat, (fuelMin <= fuel)%nat ->
     exists st : Locals F,
       BinSumsBoostingZeroDimensions fuel cCompilerClasses pBoosterShell pInnerBag
       = Some st
       /\ forall b0 : Bin F, bins0 !! 0%nat = Some b0 ->
            exists b : Bin F,
              aBins st !! 0%nat = Some b
              /\ m_sumGradients (pair_at s b)
                 = fsum_from (m_sumGradients (pair_at s b0))
                     (map (gradient_of s) all_samples)
              /\ m_sumHessians (pair_at s b)
                 = if IsClassification cCompilerClasses
                   then fsum_from (m_sumHessians (pair_at s b0))
                          (map (hessian_of s) all_samples)
                   else m_sumHessians (pair_at s b0))
  /\
  (okIdx ->
   exists fuelMin : nat, forall fuel : nat, (fuelMin <= fuel)%nat ->
     exists st : Locals F,
       BinSumsBoostingInternal fuel cCompilerClasses compilerBitPack pBoosterShell
         iTerm pInnerBag
       = Some st
       /\ forall (j : nat) (b0 : Bin F), bins0 !! j = Some b0 ->
            exists b : Bin F,
              aBins st !! j = Some b
              /\ m_sumGradients (pair_at s b)
                 = fsum_from (m_sumGradients (pair_at s b0))
                     (map (gradient_of s) (samples_in j))
              /\ m_sumHessians (pair_at s b)
                 = if IsClassification cCompilerClasses
                   then fsum_from (m_sumHessians (pair_at s b0))
                          (map (hessian_of s) (samples_in j))
                   else m_sumHessians (pair_at s b0)).
Proof.
  intros Hs. split.
  - intros Hok. exists fuel0. intros fuel Hfuel.
    exists (zero_result cCompilerClasses pBoosterShell pInnerBag).
    split; [apply BinSumsBoostingZeroDimensions_run; auto; lia |].
    rewrite zero_result_eq by exact Hok. cbn [aBins].
    intros b0 Hb0. pose proof (pairs_of_bin _ _ Hok Hb0) as Hpairs.
    eexists. split; [exact (first_bin_after b0 Hok Hb0) |].
    split; [apply gradient_fold | apply hessian_fold]; assumption.
  - intros Hix. pose proof (ok_call Hix) as Hok.
    exists fuel0. intros fuel Hfuel.
    exists (indexed_result cCompilerClasses pBoosterShell pInnerBag compilerBitPack iTerm).
    split; [apply BinSumsBoostingInternal_run; auto; lia |].
    rewrite indexed_result_eq by exact Hix. cbn [aBins].
    intros j b0 Hb0. pose proof (pairs_of_bin _ _ Hok Hb0) as Hpairs.
    eexists. split; [exact (bin_after _ j b0 (ok_indices Hix) Hb0) |].
    split; [apply gradient_fold | apply hessian_fold]; assumption.
Qed.

(** The kernels keep the number of bins and the number of gradient
    pairs of every bin, and change no bin but those that receive a sample:
    the zero-dimension kernel only the first bin of the buffer, the indexed
    kernel only the bins whose index is decoded from the packed words. *)
Theorem other_bins_are_untouched :
  (okCall ->
   exists fuelMin : nat, forall fuel : nat, (fuelMin <= fuel)%nat ->
     exists st : Locals F,
       BinSumsBoostingZeroDimensions fuel cCompilerClasses pBoosterShell pInnerBag
       = Some st
       /\ length (aBins st) = length bins0
       /\ buffer_shape (aBins st) = buffer_shape bins0
       /\ forall j : nat, j <> 0%nat -> aBins st !! j = bins0 !! j)
  /\
  (okIdx ->
   exists fuelMin : nat, forall fuel : nat, (fuelMin <= fuel)%nat ->
     exists st : Locals F,
       BinSumsBoostingInternal fuel cCompilerClasses compilerBitPack pBoosterShell
         iTerm pInnerBag
       = Some st
       /\ length (aBins st) = length bins0
       /\ buffer_shape (aBins st) = buffer_shape bins0
       /\ forall j : nat, ~ In (Z.of_nat j) aIdx -> aBins st !! j = bins0 !! j).
Proof.
  assert (Hframe : forall (idxs : list Z) (j : nat),
    valid_indices (length bins0) idxs -> ~ In (Z.of_nat j) idxs ->
    effect 0 idxs bins0 !! j = bins0 !! j).
  { intros idxs j Hvalid Hj. rewrite lookup_bins_effect.
    - rewrite samples_of_absent by exact Hj. destruct (bins0 !! j); reflexivity.
    - eapply Forall_impl; [exact Hvalid |]. simpl. intros idx Hidx. lia. }
  split.
  - intros Hok. exists fuel0. intros fuel Hfuel.
    exists (zero_result cCompilerClasses pBoosterShell pInnerBag).
    split; [apply BinSumsBoostingZeroDimensions_run; auto; lia |].
    rewrite zero_result_eq by exact Hok. cbn [aBins].
    split; [apply length_bins_effect |].
    split; [apply shape_bins_effect |].
    intros j Hj. pose proof (ok_bins Hok). apply Hframe.
    + apply Forall_replicate. lia.
    + intros Hin. apply list_elem_of_In, elem_of_replicate_inv in Hin. lia.
  - intros Hix. exists fuel0. intros fuel Hfuel.
    exists (indexed_result cCompilerClasses pBoosterShell pInnerBag compilerBitPack iTerm).
    split; [apply BinSumsBoostingInternal_run; auto; lia |].
    rewrite indexed_result_eq by exact Hix. cbn [aBins].
    split; [apply length_bins_effect |].
    split; [apply shape_bins_effect |].
    intros j Hj. apply Hframe; [exact (ok_indices Hix) | exact Hj].
Qed.

End BinClaims.

(** The scenario of the specification, bin indices 0, 1, 3, 1, 2 with one
    occurrence each: the single bin of the zero-dimension kernel counts 5,
    bin 1 of the indexed kernel counts its samples 1 and 3. *)
Lemma bin_counts_its_samples_witness :
  (exists fuelMin : nat, forall fuel : nat, (fuelMin <= fuel)%nat ->
     exists (st : Locals Z) (b : Bin Z),
       BinSumsBoostingZeroDimensions fuel (-1) scenario_shell scenario_bag = Some st
       /\ aBins st !! 0%nat = Some b /\ m_cSamples b = 5)
  /\
  (exists fuelMin : nat, forall fuel : nat, (fuelMin <= fuel)%nat ->
     exists (st : Locals Z) (b : Bin Z),
       BinSumsBoostingInternal fuel (-1) 0 scenario_shell 0 scenario_bag = Some st
       /\ samples_of 1 0 (call_indices scenario_shell 0 0) = [1; 3]
       /\ aBins st !! 1%nat = Some b /\ m_cSamples b = 2).
Proof.
  destruct (bin_counts_its_samples (-1) scenario_shell scenario_bag 0 0)
    as [Hzero Hindexed].
  split.
  - destruct (Hzero ltac:(contract)) as [fuelMin Hrun]. exists fuelMin.
    intros fuel Hfuel. destruct (Hrun fuel Hfuel) as (st & Hst & Hbin).
    destruct (Hbin _ eq_refl) as (b & Hb & _ & Hexact).
    exists st, b. split; [exact Hst |]. split; [exact Hb |].
    rewrite Hexact; [reflexivity | vm_compute; discriminate | vm_compute; reflexivity].
  - destruct (Hindexed ltac:(contract)) as [fuelMin Hrun]. exists fuelMin.
    intros fuel Hfuel. destruct (Hrun fuel Hfuel) as (st & Hst & Hbin).
    destruct (Hbin 1%nat _ eq_refl) as (b & Hb & _ & Hexact).
    exists st, b. split; [exact Hst |]. split; [reflexivity |]. split; [exact Hb |].
    rewrite Hexact; [reflexivity | vm_compute; discriminate | vm_compute; reflexivity].
Defined.

(** Three classes, weights 2 and 3, both samples in bin 1 of two. *)
Lemma bin_weight_is_ordered_sum_witness :
  (exists fuelMin : nat, forall fuel : nat, (fuelMin <= fuel)%nat ->
     exists (st : Locals Z) (b : Bin Z),
       BinSumsBoostingZeroDimensions fuel 3 scenario3_shell scenario3_bag = Some st
       /\ aBins st !! 0%nat = Some b /\ m_weight b = 5)
  /\
  (exists fuelMin : nat, forall fuel : nat, (fuelMin <= fuel)%nat ->
     exists (st : Locals Z) (b : Bin Z),
       BinSumsBoostingInternal fuel 3 0 scenario3_shell 0 scenario3_bag = Some st
       /\ aBins st !! 1%nat = Some b /\ m_weight b = 5).
Proof.
  destruct (bin_weight_is_ordered_sum 3 scenario3_shell scenario3_bag 0 0)
    as [Hzero Hindexed].
  split.
  - destruct (Hzero ltac:(contract)) as [fuelMin Hrun]. exists fuelMin.
    intros fuel Hfuel. destruct (Hrun fuel Hfuel) as (st & Hst & Hbin).
    destruct (Hbin _ eq_refl) as (b & Hb & Hw).
    exists st, b. split; [exact Hst |]. split; [exact Hb |].
    rewrite Hw. reflexivity.
  - destruct (Hindexed ltac:(contract)) as [fuelMin Hrun]. exists fuelMin.
    intros fuel Hfuel. destruct (Hrun fuel Hfuel) as (st & Hst & Hbin).
    destruct (Hbin 1%nat _ eq_refl) as (b & Hb & Hw).
    exists st, b. split; [exact Hst |]. split; [exact Hb |].
    rewrite Hw. reflexivity.
Defined.

(** Three classes, score 1: the gradients 2 and 5 with weights 2 and 3
    give 19, the hessians 20 and 50 give 190. *)
Lemma bin_gradients_are_ordered_sums_witness :
  (exists fuelMin : nat, forall fuel : nat, (fuelMin <= fuel)%nat ->
     exists (st : Locals Z) (b : Bin Z),
       BinSumsBoostingZeroDimensions fuel 3 scenario3_shell scenario3_bag = Some st
       /\ aBins st !! 0%nat = Some b
       /\ m_sumGradients (pair_at 1 b) = 19 /\ m_sumHessians (pair_at 1 b) = 190)
  /\
  (exists fuelMin : nat, forall fuel : nat, (fuelMin <= fuel)%nat ->
     exists (st : Locals Z) (b : Bin Z),
       BinSumsBoostingInternal fuel 3 0 scenario3_shell 0 scenario3_bag = Some st
       /\ aBins st !! 1%nat = Some b
       /\ m_sumGradients (pair_at 1 b) = 19 /\ m_sumHessians (pair_at 1 b) = 190).
Proof.
  destruct (bin_gradients_are_ordered_sums 3 scenario3_shell scenario3_bag 0 0 1)
    as [Hzero Hindexed]; [vm_compute; split; [discriminate | reflexivity] |].
  split.
  - destruct (Hzero ltac:(contract)) as [fuelMin Hrun]. exists fuelMin.
    intros fuel Hfuel. destruct (Hrun fuel Hfuel) as (st & Hst & Hbin).
    destruct (Hbin _ eq_refl) as (b & Hb & Hg & Hh).
    exists st, b. split; [exact Hst |]. split; [exact Hb |].
    rewrite Hg, Hh. split; reflexivity.
  - destruct (Hindexed ltac:(contract)) as [fuelMin Hrun]. exists fuelMin.
    intros fuel Hfuel. destruct (Hrun fuel Hfuel) as (st & Hst & Hbin).
    destruct (Hbin 1%nat _ eq_refl) as (b & Hb & Hg & Hh).
    exists st, b. split; [exact Hst |]. split; [exact Hb |].
    rewrite Hg, Hh. split; reflexivity.
Defined.

(** Three classes, both samples in bin 1 of two: the zero-dimension
    kernel leaves bin 1 as it was, the indexed kernel bin 0. *)
Lemma other_bins_are_untouched_witness :
  (exists fuelMin : nat, forall fuel : nat, (fuelMin <= fuel)%nat ->
     exists st : Locals Z,
       BinSumsBoostingZeroDimensions fuel 3 scenario3_shell scenario3_bag = Some st
       /\ length (aBins st) = 2%nat
       /\ aBins st !! 1%nat = m_aBoostingFastBinsTemp scenario3_shell !! 1%nat)
  /\
  (exists fuelMin : nat, forall fuel : nat, (fuelMin <= fuel)%nat ->
     exists st : Locals Z,
       BinSumsBoostingInternal fuel 3 0 scenario3_shell 0 scenario3_bag = Some st
       /\ length (aBins st) = 2%nat
       /\ aBins st !! 0%nat = m_aBoostingFastBinsTemp scenario3_shell !! 0%nat).
Proof.
  destruct (other_bins_are_untouched 3 scenario3_shell scenario3_bag 0 0)
    as [Hzero Hindexed].
  split.
  - destruct (Hzero ltac:(contract)) as [fuelMin Hrun]. exists fuelMin.
    intros fuel Hfuel. destruct (Hrun fuel Hfuel) as (st & Hst & Hlen & _ & Hframe).
    exists st. split; [exact Hst |]. split; [exact Hlen |].
    apply Hframe. discriminate.
  - destruct (Hindexed ltac:(contract)) as [fuelMin Hrun]. exists fuelMin.
    intros fuel Hfuel. destruct (Hrun fuel Hfuel) as (st & Hst & Hlen & _ & Hframe).
    exists st. split; [exact Hst |]. split; [exact Hlen |].
    apply Hframe. vm_compute. intros [Hin | [Hin | []]]; discriminate Hin.
Defined.

(** ** The access pattern *)

Lemma offsets_read_app (a : Input) (rd1 rd2 : list Read) :
  offsets_read a (rd1 ++ rd2) = offsets_read a rd1 ++ offsets_read a rd2.
Proof. apply omap_app. Qed.

Section Offsets.
Variable bClassification : bool.
Variable cScores : Z.
Hypothesis scores_nonneg : 0 <= cScores.

Local Abbreviation cPer := (cPerScore bClassification).

Lemma score_reads_offsets (k : nat) :
  forall p : Z,
    offsets_read InGradientsAndHessians (score_reads bClassification k p)
    = consecutive p (Z.to_nat (cPer * Z.of_nat k)).
Proof.
  unfold cPerScore. destruct bClassification.
  - induction k as [| k IH]; intros p; cbn [score_reads]; [reflexivity |].
    rewrite offsets_read_app, IH.
    replace (Z.to_nat (2 * Z.of_nat (S k)))
      with (S (S (Z.to_nat (2 * Z.of_nat k)))) by lia.
    cbn [consecutive]. change (cPerScore true) with 2.
    replace (p + 1 + 1) with (p + 2) by lia. reflexivity.
  - induction k as [| k IH]; intros p; cbn [score_reads]; [reflexivity |].
    rewrite offsets_read_app, IH.
    replace (Z.to_nat (1 * Z.of_nat (S k)))
      with (S (Z.to_nat (1 * Z.of_nat k))) by lia.
    reflexivity.
Qed.

Lemma score_reads_elsewhere (a : Input) (k : nat) :
  forall p : Z,
    a <> InGradientsAndHessians ->
    offsets_read a (score_reads bClassification k p) = [].
Proof.
  induction k as [| k IH]; intros p Ha; cbn [score_reads]; [reflexivity |].
  rewrite offsets_read_app, IH by exact Ha.
  destruct a, bClassification; try reflexivity; contradiction.
Qed.

(** The reads of [k] samples from sample [i] on, array by array. *)
Lemma samples_reads_offsets (k : nat) :
  forall i : Z,
    offsets_read InCountOccurrences (samples_reads bClassification cScores i k)
    = consecutive i k
    /\ offsets_read InWeights (samples_reads bClassification cScores i k)
       = consecutive i k
    /\ offsets_read InInputData (samples_reads bClassification cScores i k) = []
    /\ offsets_read InGradientsAndHessians (samples_reads bClassification cScores i k)
       = consecutive (cPer * cScores * i) (Z.to_nat (cPer * cScores * Z.of_nat k)).
Proof.
  assert (Hper : 1 <= cPer) by (unfold cPerScore; destruct bClassification; lia).
  induction k as [| k IH]; intros i; cbn [samples_reads].
  - rewrite Z.mul_0_r. repeat split; reflexivity.
  - destruct (IH (i + 1)) as (Ho & Hw & Hd & Hg).
    unfold sample_reads. rewrite <- !app_assoc. rewrite !offsets_read_app.
    rewrite Ho, Hw, Hd, Hg.
    rewrite !score_reads_elsewhere by discriminate.
    rewrite score_reads_offsets.
    repeat split; try reflexivity.
    replace (Z.to_nat (cPer * cScores * Z.of_nat (S k)))
      with (Z.to_nat (cPer * Z.of_nat (Z.to_nat cScores))
            + Z.to_nat (cPer * cScores * Z.of_nat k))%nat by nia.
    rewrite consecutive_add. unfold gradient_position.
    change (offsets_read InGradientsAndHessians [RdCountOccurrences i; RdWeight i])
      with (@nil Z).
    cbn [app].
    replace (cPer * (cScores * i + 0)) with (cPer * cScores * i) by lia.
    replace (cPer * cScores * i
             + Z.of_nat (Z.to_nat (cPer * Z.of_nat (Z.to_nat cScores))))
      with (cPer * cScores * (i + 1)) by nia.
    reflexivity.
Qed.

Lemma samples_reads_split (k1 k2 : nat) :
  forall i : Z,
    samples_reads bClassification cScores i (k1 + k2)
    = samples_reads bClassification cScores i k1
      ++ samples_reads bClassification cScores (i + Z.of_nat k1) k2.
Proof.
  induction k1 as [| k1 IH]; intros i; cbn [Nat.add samples_reads app].
  - f_equal. lia.
  - rewrite IH, <- app_assoc. do 3 f_equal. lia.
Qed.

(** The reads of [m] full words and a last word, array by array: the
    words are fetched one after the other, the samples as without words. *)
Lemma stream_reads_offsets (q r m : nat) :
  forall (k i : Z) (a : Input),
    offsets_read a (stream_reads bClassification cScores q r m k i)
    = match a with
      | InInputData => consecutive k (S m)
      | _ => offsets_read a (samples_reads bClassification cScores i (m * q + r))
      end.
Proof.
  induction m as [| m IH]; intros k i a; cbn [stream_reads].
  - destruct (samples_reads_offsets r i) as (_ & _ & Hd & _).
    destruct a; cbn [Nat.mul Nat.add]; try reflexivity.
    change (offsets_read InInputData
              (RdInputData k :: samples_reads bClassification cScores i r))
      with (k :: offsets_read InInputData (samples_reads bClassification cScores i r)).
    rewrite Hd. reflexivity.
  - destruct (samples_reads_offsets q i) as (_ & _ & Hd & _).
    change ((RdInputData k :: samples_reads bClassification cScores i q)
            ++ stream_reads bClassification cScores q r m (k + 1) (i + Z.of_nat q))
      with ([RdInputData k]
            ++ samples_reads bClassification cScores i q
            ++ stream_reads bClassification cScores q r m (k + 1) (i + Z.of_nat q)).
    replace (S m * q + r)%nat with (q + (m * q + r))%nat by lia.
    rewrite (samples_reads_split q (m * q + r)).
    rewrite !offsets_read_app, IH.
    destruct a; try reflexivity.
    rewrite Hd. reflexivity.
Qed.

End Offsets.

Section AccessPattern.
Context {F : Type} `{FloatOps F} `{EbmInternal}.

Variable cCompilerClasses : Z.
Variable pBoosterShell : BoosterShell F.
Variable pInnerBag : InnerBag F.
Variable compilerBitPack : Z.
Variable iTerm : Z.

Local Abbreviation cSam := (call_samples pBoosterShell).
Local Abbreviation cSco := (call_scores cCompilerClasses pBoosterShell).
Local Abbreviation cItm := (call_items pBoosterShell compilerBitPack iTerm).
Local Abbreviation bCls := (call_classification cCompilerClasses).
Local Abbreviation okCall := (call_ok cCompilerClasses pBoosterShell pInnerBag).
Local Abbreviation okIdx :=
  (indexed_ok cCompilerClasses pBoosterShell pInnerBag compilerBitPack iTerm).
Local Abbreviation fuel0 := (Z.to_nat cSam + Z.to_nat cSco)%nat.

Lemma samples_offsets_of_call :
  okCall ->
  let rd := samples_reads bCls cSco 0 (Z.to_nat cSam) in
  offsets_read InCountOccurrences rd
  = consecutive 0 (length (m_aCountOccurrences pInnerBag))
  /\ offsets_read InWeights rd = consecutive 0 (length (m_aWeights pInnerBag))
  /\ offsets_read InGradientsAndHessians rd
     = consecutive 0 (length (call_gradients pBoosterShell))
  /\ offsets_read InInputData rd = [].
Proof.
  intros Hok rd. subst rd.
  pose proof (ok_samples Hok). pose proof (ok_scores Hok) as Hsc.
  pose proof (ok_occurrences Hok). pose proof (ok_weights Hok).
  pose proof (ok_gradients Hok) as Hg.
  assert (Hsc0 : 0 <= cSco) by lia.
  destruct (samples_reads_offsets bCls cSco Hsc0 (Z.to_nat cSam) 0)
    as (Ho & Hw & Hd & Hgr).
  rewrite Ho, Hw, Hd, Hgr. rewrite Z2Nat.id by lia.
  repeat split; f_equal; lia.
Qed.

(** Every element of the occurrence, weight and gradient arrays, and for
    the indexed kernel every packed word of the term, is read exactly once
    and in increasing order, whatever the values read; the zero-dimension
    kernel reads no packed word. *)
Theorem inputs_are_read_once_in_order :
  (okCall ->
   exists fuelMin : nat, forall fuel : nat, (fuelMin <= fuel)%nat ->
     exists st : Locals F,
       BinSumsBoostingZeroDimensions fuel cCompilerClasses pBoosterShell pInnerBag
       = Some st
       /\ offsets_read InCountOccurrences (reads st)
          = consecutive 0 (length (m_aCountOccurrences pInnerBag))
       /\ offsets_read InWeights (reads st)
          = consecutive 0 (length (m_aWeights pInnerBag))
       /\ offsets_read InGradientsAndHessians (reads st)
          = consecutive 0 (length (call_gradients pBoosterShell))
       /\ offsets_read InInputData (reads st) = [])
  /\
  (okIdx ->
   exists fuelMin : nat, forall fuel : nat, (fuelMin <= fuel)%nat ->
     exists st : Locals F,
       BinSumsBoostingInternal fuel cCompilerClasses compilerBitPack pBoosterShell
         iTerm pInnerBag
       = Some st
       /\ offsets_read InCountOccurrences (reads st)
          = consecutive 0 (length (m_aCountOccurrences pInnerBag))
       /\ offsets_read InWeights (reads st)
          = consecutive 0 (length (m_aWeights pInnerBag))
       /\ offsets_read InGradientsAndHessians (reads st)
          = consecutive 0 (length (call_gradients pBoosterShell))
       /\ offsets_read InInputData (reads st)
          = consecutive 0 (length (call_words pBoosterShell iTerm))).
Proof.
  split.
  - intros Hok. exists fuel0. intros fuel Hfuel.
    exists (zero_result cCompilerClasses pBoosterShell pInnerBag).
    split; [apply BinSumsBoostingZeroDimensions_run; auto; lia |].
    rewrite zero_result_eq by exact Hok. cbn [reads].
    exact (samples_offsets_of_call Hok).
  - intros Hix. pose proof (ok_call Hix) as Hok.
    exists fuel0. intros fuel Hfuel.
    exists (indexed_result cCompilerClasses pBoosterShell pInnerBag compilerBitPack iTerm).
    split; [apply BinSumsBoostingInternal_run; auto; lia |].
    rewrite indexed_result_eq by exact Hix. cbn [reads].
    pose proof (ok_samples Hok) as Hn. pose proof (ok_scores Hok) as Hsc.
    pose proof (ok_items Hix) as Hq. pose proof (ok_words Hix) as Hwords.
    pose proof (tail_items_bounds _ _ _ (proj1 Hq)) as Hr.
    pose proof (words_and_tail _ _ _ (proj1 Hq)) as Hsum.
    assert (Hm : 0 <= full_words cSam cItm)
      by (unfold full_words; apply Z.div_pos; lia).
    assert (Hsc0 : 0 <= cSco) by lia.
    rewrite !(stream_reads_offsets bCls cSco Hsc0).
    replace (Z.to_nat (full_words cSam cItm) * Z.to_nat cItm
             + Z.to_nat (tail_items cSam cItm))%nat
      with (Z.to_nat cSam) by nia.
    destruct (samples_offsets_of_call Hok) as (Ho & Hw & Hg & _).
    repeat split; try assumption.
    f_equal. lia.
Qed.

End AccessPattern.

(** Three classes and two samples: two occurrence counts, two weights,
    twelve gradients and hessians, one packed word. *)
Lemma inputs_are_read_once_in_order_witness :
  (exists fuelMin : nat, forall fuel : nat, (fuelMin <= fuel)%nat ->
     exists st : Locals Z,
       BinSumsBoostingZeroDimensions fuel 3 scenario3_shell scenario3_bag = Some st
       /\ offsets_read InCountOccurrences (reads st) = [0; 1]
       /\ offsets_read InWeights (reads st) = [0; 1]
       /\ offsets_read InGradientsAndHessians (reads st)
          = [0; 1; 2; 3; 4; 5; 6; 7; 8; 9; 10; 11]
       /\ offsets_read InInputData (reads st) = [])
  /\
  (exists fuelMin : nat, forall fuel : nat, (fuelMin <= fuel)%nat ->
     exists st : Locals Z,
       BinSumsBoostingInternal fuel 3 0 scenario3_shell 0 scenario3_bag = Some st
       /\ offsets_read InCountOccurrences (reads st) = [0; 1]
       /\ offsets_read InWeights (reads st) = [0; 1]
       /\ offsets_read InGradientsAndHessians (reads st)
          = [0; 1; 2; 3; 4; 5; 6; 7; 8; 9; 10; 11]
       /\ offsets_read InInputData (reads st) = [0]).
Proof.
  destruct (inputs_are_read_once_in_order 3 scenario3_shell scenario3_bag 0 0)
    as [Hzero Hindexed].
  split; [exact (Hzero ltac:(contract)) | exact (Hindexed ltac:(contract))].
Defined.

(** ** The entry point *)

Section EntryPoint.
Context {F : Type} `{FloatOps F} `{EbmInternal}.

Variable pBoosterShell : BoosterShell F.
Variable pInnerBag : InnerBag F.
Variable iTerm : Z.

Local Abbreviation cRuntimeClasses := (m_cClasses (m_pBoosterCore pBoosterShell)).
Local Abbreviation cSelected := (selected_classes cRuntimeClasses).

(** With a term, the entry point runs the indexed kernel of the selected
    class count, at a pack width whose result is the one of the dynamic
    pack width. *)
Lemma BinSumsBoosting_indexed (fuel n : nat) :
  1 <= k_cCompilerClassesMax ->
  next_pack n k_cItemsPerBitPackMax = k_cItemsPerBitPackDynamic ->
  (Z.to_nat k_cCompilerClassesMax <= fuel)%nat ->
  (n < fuel)%nat ->
  k_illegalTermIndex <> iTerm ->
  BinSumsBoosting fuel pBoosterShell iTerm pInnerBag
  = BinSumsBoostingInternal fuel cSelected k_cItemsPerBitPackDynamic
      pBoosterShell iTerm pInnerBag.
Proof.
  intros Hmax Hreach Hfuel Hn Hterm.
  assert (Hdepth : k_cCompilerClassesMax + 1 - 2 < Z.of_nat fuel) by lia.
  assert (Htop : 2 <= k_cCompilerClassesMax + 1) by lia.
  unfold BinSumsBoosting, selected_classes.
  destruct (Z.eqb_spec k_illegalTermIndex iTerm); [contradiction |].
  destruct k_bUseSIMD, (IsClassification cRuntimeClasses); try reflexivity.
  - rewrite BinSumsBoostingSIMDTarget_selects by assumption.
    rewrite (BinSumsBoostingSIMDPacking_selects _ _ _ fuel _ fuel n) by assumption.
    apply BinSumsBoostingInternal_pack, selected_pack_cases.
  - rewrite (BinSumsBoostingSIMDPacking_selects _ _ _ fuel _ fuel n) by assumption.
    apply BinSumsBoostingInternal_pack, selected_pack_cases.
  - apply BinSumsBoostingNormalTarget_selects; assumption.
Qed.

(** Without a term, it runs the zero-dimension kernel of the selected
    class count. *)
Lemma BinSumsBoosting_zero (fuel : nat) :
  1 <= k_cCompilerClassesMax ->
  (Z.to_nat k_cCompilerClassesMax <= fuel)%nat ->
  k_illegalTermIndex = iTerm ->
  BinSumsBoosting fuel pBoosterShell iTerm pInnerBag
  = BinSumsBoostingZeroDimensions fuel cSelected pBoosterShell pInnerBag.
Proof.
  intros Hmax Hfuel Hterm. unfold BinSumsBoosting, selected_classes.
  destruct (Z.eqb_spec k_illegalTermIndex iTerm); [| contradiction].
  destruct (IsClassification cRuntimeClasses); [| reflexivity].
  apply BinSumsBoostingZeroDimensionsTarget_selects; lia.
Qed.

Local Abbreviation cSam := (call_samples pBoosterShell).
Local Abbreviation cSco := (call_scores cSelected pBoosterShell).
Local Abbreviation bins0 := (m_aBoostingFastBinsTemp pBoosterShell).

(** End to end.  A call of the entry point that satisfies the contract of
    the kernel it selects returns, and leaves in the buffer the bins with
    every sample added, in sample order, to the bin of its index: the first
    bin when there is no term, else the bin decoded from the packed words of
    the term at the term's pack width, whether or not the
    vector-instruction flag is set.  The header's enumeration of pack widths
    is assumed to reach the dynamic width in [n] steps. *)
Theorem entry_point_accumulates (n : nat) :
  1 <= k_cCompilerClassesMax ->
  next_pack n k_cItemsPerBitPackMax = k_cItemsPerBitPackDynamic ->
  (k_illegalTermIndex = iTerm ->
   call_ok cSelected pBoosterShell pInnerBag ->
   exists fuelMin : nat, forall fuel : nat, (fuelMin <= fuel)%nat ->
     exists st : Locals F,
       BinSumsBoosting fuel pBoosterShell iTerm pInnerBag = Some st
       /\ aBins st
          = bins_effect (IsClassification cSelected) cSco
              (m_aCountOccurrences pInnerBag) (m_aWeights pInnerBag)
              (call_gradients pBoosterShell) 0
              (replicate (Z.to_nat cSam) 0) bins0)
  /\
  (k_illegalTermIndex <> iTerm ->
   indexed_ok cSelected pBoosterShell pInnerBag k_cItemsPerBitPackDynamic iTerm ->
   exists fuelMin : nat, forall fuel : nat, (fuelMin <= fuel)%nat ->
     exists st : Locals F,
       BinSumsBoosting fuel pBoosterShell iTerm pInnerBag = Some st
       /\ call_items pBoosterShell k_cItemsPerBitPackDynamic iTerm
          = m_cBitPack (call_term pBoosterShell iTerm)
       /\ aBins st
          = bins_effect (IsClassification cSelected) cSco
              (m_aCountOccurrences pInnerBag) (m_aWeights pInnerBag)
              (call_gradients pBoosterShell) 0
              (call_indices pBoosterShell k_cItemsPerBitPackDynamic iTerm) bins0).
Proof.
  intros Hmax Hreach. split.
  - intros Hterm Hok.
    exists (Z.to_nat cSam + Z.to_nat cSco + Z.to_nat k_cCompilerClassesMax)%nat.
    intros fuel Hfuel.
    exists (zero_result cSelected pBoosterShell pInnerBag).
    rewrite BinSumsBoosting_zero by (auto; lia).
    split; [apply BinSumsBoostingZeroDimensions_run; auto; lia |].
    rewrite zero_result_eq by exact Hok. reflexivity.
  - intros Hterm Hix.
    exists (Z.to_nat cSam + Z.to_nat cSco + Z.to_nat k_cCompilerClassesMax + S n)%nat.
    intros fuel Hfuel.
    exists (indexed_result cSelected pBoosterShell pInnerBag k_cItemsPerBitPackDynamic
              iTerm).
    rewrite (BinSumsBoosting_indexed fuel n) by (auto; lia).
    split; [apply BinSumsBoostingInternal_run; auto; lia |].
    split.
    + unfold call_items, GET_ITEMS_PER_BIT_PACK. rewrite Z.eqb_refl. reflexivity.
    + rewrite indexed_result_eq by exact Hix. reflexivity.
Qed.

End EntryPoint.

Lemma next_pack_with_simd (b : bool) (E : EbmInternal) (n : nat) :
  forall compilerBitPack : Z,
    @next_pack (with_simd b E) n compilerBitPack = @next_pack E n compilerBitPack.
Proof.
  induction n as [| n IH]; intros compilerBitPack; [reflexivity |].
  cbn [next_pack]. rewrite IH. reflexivity.
Qed.

(** The vector-instruction flag changes the walk through the
    specializations, never the result: with the flag set or cleared the
    entry point returns the same locals, or fails alike.  The header's
    enumeration of pack widths is assumed to reach the dynamic width in [n]
    steps. *)
Theorem simd_flag_is_transparent {F : Type} `{FloatOps F} (E : EbmInternal)
    (fuel n : nat) (pBoosterShell : BoosterShell F) (iTerm : Z)
    (pInnerBag : InnerBag F) :
  1 <= @k_cCompilerClassesMax E ->
  @next_pack E n (@k_cItemsPerBitPackMax E) = @k_cItemsPerBitPackDynamic E ->
  (Z.to_nat (@k_cCompilerClassesMax E) <= fuel)%nat ->
  (n < fuel)%nat ->
  @BinSumsBoosting F _ (with_simd true E) fuel pBoosterShell iTerm pInnerBag
  = @BinSumsBoosting F _ (with_simd false E) fuel pBoosterShell iTerm pInnerBag.
Proof.
  intros Hmax Hreach Hfuel Hn.
  assert (Hreach' : forall b : bool,
    @next_pack (with_simd b E) n (@k_cItemsPerBitPackMax (with_simd b E))
    = @k_cItemsPerBitPackDynamic (with_simd b E))
    by (intros b; rewrite next_pack_with_simd; exact Hreach).
  destruct (Z.eq_dec (@k_illegalTermIndex E) iTerm) as [Hterm | Hterm].
  - rewrite (@BinSumsBoosting_zero F _ (with_simd true E) _ _ _ fuel Hmax Hfuel Hterm).
    rewrite (@BinSumsBoosting_zero F _ (with_simd false E) _ _ _ fuel Hmax Hfuel Hterm).
    reflexivity.
  - rewrite (@BinSumsBoosting_indexed F _ (with_simd true E) _ _ _ fuel n
               Hmax (Hreach' true) Hfuel Hn Hterm).
    rewrite (@BinSumsBoosting_indexed F _ (with_simd false E) _ _ _ fuel n
               Hmax (Hreach' false) Hfuel Hn Hterm).
    reflexivity.
Qed.

(** With the vector-instruction flag set, three classes and a term of two
    items per word. *)
Lemma entry_point_accumulates_witness :
  exists fuelMin : nat, forall fuel : nat, (fuelMin <= fuel)%nat ->
    exists st : Locals Z,
      BinSumsBoosting (H0 := header64_simd) fuel scenario3_shell 0 scenario3_bag
      = Some st
      /\ call_items (H0 := header64_simd) scenario3_shell 0 0 = 2
      /\ aBins st
         = bins_effect true 3 [1; 2] [2; 3] (call_gradients scenario3_shell) 0 [1; 1]
             (m_aBoostingFastBinsTemp scenario3_shell).
Proof.
  destruct (entry_point_accumulates (H0 := header64_simd) scenario3_shell
              scenario3_bag 0 15) as [_ Hindexed];
    [vm_compute; discriminate | reflexivity |].
  apply Hindexed; [vm_compute; discriminate | contract].
Defined.

Lemma simd_flag_is_transparent_witness :
  BinSumsBoosting (H0 := with_simd true header64) 20 scenario3_shell 0 scenario3_bag
  = BinSumsBoosting (H0 := with_simd false header64) 20 scenario3_shell 0 scenario3_bag.
Proof.
  apply (simd_flag_is_transparent header64 20 15);
    [vm_compute; discriminate | reflexivity | vm_compute; lia | lia].
Defined.

(** ** Calls outside the contract *)

Section Overrun.
Context {F : Type} `{FloatOps F}.

(** Every pass of a loop moves the gradient pointer forward. *)
Lemma score_loop_advances (fuel : nat) :
  forall bClassification cScores (aGH : list F) weight iScore pGH aPairs rd
         aPairs' pGH' rd',
    score_loop fuel bClassification cScores aGH weight iScore pGH aPairs rd
    = Some (aPairs', pGH', rd') ->
    pGH < pGH'.
Proof.
  induction fuel as [| fuel IH]; intros bC cS aGH w iS pGH aP rd aP' pGH' rd' Hrun;
    [discriminate |].
  cbn [score_loop] in Hrun.
  destruct (score_body bC aGH w iS pGH aP rd) as [[aP1 rd1] |]; [| discriminate].
  destruct (iS + 1 <? cS).
  - apply IH in Hrun. destruct bC; lia.
  - injection Hrun as _ Hp _. destruct bC; lia.
Qed.

Lemma sample_body_advances (fuel : nat) bClassification cScores aCountOccurrences
    (aWeights aGH : list F) iTensorBin st st' :
  sample_body fuel bClassification cScores aCountOccurrences aWeights aGH iTensorBin st
  = Some st' ->
  pGradientAndHessian st < pGradientAndHessian st'.
Proof.
  unfold sample_body.
  destruct (deref aCountOccurrences (pCountOccurrences st)); [| discriminate].
  destruct (deref aWeights (pWeight st)); [| discriminate].
  destruct (deref (aBins st) iTensorBin); [| discriminate].
  destruct (score_loop fuel _ _ _ _ _ _ _ _) as [[[aPairs pGH] rd2] |] eqn:Hloop;
    [| discriminate].
  intros Hrun. injection Hrun as <-. cbn [pGradientAndHessian].
  exact (score_loop_advances _ _ _ _ _ _ _ _ _ _ _ _ Hloop).
Qed.

(** The zero-dimension loop leaves only when the pointer is equal to the
    end: from the end or beyond it never does. *)
Lemma zero_loop_overrun (fuel : nat) :
  forall (fuelIn : nat) bClassification cScores aCountOccurrences
         (aWeights aGH : list F) pGradientAndHessiansEnd st,
    pGradientAndHessiansEnd <= pGradientAndHessian st ->
    zero_loop fuel fuelIn bClassification cScores aCountOccurrences aWeights aGH
      pGradientAndHessiansEnd st
    = None.
Proof.
  induction fuel as [| fuel IH]; intros fi bC cS aO aW aGH pEnd st Hpast;
    [reflexivity |].
  cbn [zero_loop].
  destruct (sample_body fi bC cS aO aW aGH 0 st) as [st1 |] eqn:Hbody; [| reflexivity].
  apply sample_body_advances in Hbody.
  destruct (Z.eqb_spec pEnd (pGradientAndHessian st1)) as [Heq | _]; [lia |].
  cbn [negb]. apply IH. lia.
Qed.

Lemma item_loop_advances (fuel : nat) :
  forall (fuelIn : nat) bClassification cScores aCountOccurrences
         (aWeights aGH : list F) maskBits cBitsPerItemMax cItemsRemaining w st st',
    item_loop fuel fuelIn bClassification cScores aCountOccurrences aWeights aGH
      maskBits cBitsPerItemMax cItemsRemaining w st = Some st' ->
    pGradientAndHessian st < pGradientAndHessian st'.
Proof.
  induction fuel as [| fuel IH];
    intros fi bC cS aO aW aGH mask bits c w st st' Hrun; [discriminate |].
  cbn [item_loop] in Hrun.
  destruct (sample_body fi bC cS aO aW aGH (Z.land mask w) st) as [st1 |] eqn:Hbody;
    [| discriminate].
  apply sample_body_advances in Hbody.
  destruct (negb (0 =? size_t_wrap (c - 1))).
  - apply IH in Hrun. lia.
  - injection Hrun as <-. exact Hbody.
Qed.

Lemma word_pass_advances (fuel : nat) bClassification cScores aCountOccurrences
    (aWeights aGH : list F) aInputData maskBits cBitsPerItemMax cItemsRemaining st st' :
  word_pass fuel bClassification cScores aCountOccurrences aWeights aGH aInputData
    maskBits cBitsPerItemMax cItemsRemaining st = Some st' ->
  pGradientAndHessian st < pGradientAndHessian st'.
Proof.
  unfold word_pass.
  destruct (deref aInputData (pInputData st)); [| discriminate].
  intros Hrun. apply item_loop_advances in Hrun. exact Hrun.
Qed.

(** Nor does the loop over the packed words, which leaves only when the
    pointer is equal to the true end. *)
Lemma pack_loop_overrun (fuel : nat) :
  forall (fuelIn : nat) bClassification cScores aCountOccurrences
         (aWeights aGH : list F) aInputData maskBits cBitsPerItemMax cItemsPerBitPack
         pGradientAndHessiansTrueEnd pGradientAndHessiansExit cItemsRemaining st,
    pGradientAndHessiansTrueEnd <= pGradientAndHessian st ->
    pack_loop fuel fuelIn bClassification cScores aCountOccurrences aWeights aGH
      aInputData maskBits cBitsPerItemMax cItemsPerBitPack
      pGradientAndHessiansTrueEnd pGradientAndHessiansExit cItemsRemaining st
    = None.
Proof.
  induction fuel as [| fuel IH];
    intros fi bC cS aO aW aGH aIn mask bits q pEnd pExit c st Hpast; [reflexivity |].
  cbn [pack_loop].
  destruct (word_pass fi bC cS aO aW aGH aIn mask bits c st) as [st1 |] eqn:Hword;
    [| reflexivity].
  apply word_pass_advances in Hword.
  destruct (negb (pExit =? pGradientAndHessian st1)); [apply IH; lia |].
  destruct (Z.eqb_spec pEnd (pGradientAndHessian st1)) as [Heq | _]; [lia |].
  cbn [negb]. apply IH. lia.
Qed.

Context `{EbmInternal}.

(** The loops run their body before they test, and test the gradient
    pointer for equality with the end.  On a training set with no sample,
    which only a debug build asserts against, the end is the start: the
    kernels process a first sample all the same and are then past the end
    for good.  No call returns, whatever the fuel and whatever the arrays
    hold. *)
Theorem empty_training_set_never_returns (cCompilerClasses compilerBitPack : Z)
    (pBoosterShell : BoosterShell F) (iTerm : Z) (pInnerBag : InnerBag F) :
  call_samples pBoosterShell = 0 ->
  forall fuel : nat,
    BinSumsBoostingZeroDimensions fuel cCompilerClasses pBoosterShell pInnerBag = None
    /\ BinSumsBoostingInternal fuel cCompilerClasses compilerBitPack pBoosterShell
         iTerm pInnerBag = None.
Proof.
  unfold call_samples. intros Hempty fuel. split.
  - unfold BinSumsBoostingZeroDimensions. rewrite Hempty.
    apply zero_loop_overrun. cbn [entry pGradientAndHessian]. lia.
  - unfold BinSumsBoostingInternal. rewrite Hempty.
    destruct (deref (m_apTerms (m_pBoosterCore pBoosterShell)) iTerm); [| reflexivity].
    destruct (deref (m_aaInputData (m_trainingSet (m_pBoosterCore pBoosterShell)))
                iTerm); [| reflexivity].
    destruct (_ <=? _); apply pack_loop_overrun; cbn [entry pGradientAndHessian]; lia.
Qed.

(** A term index that is neither the no-term value nor the index of a
    term is not checked either (only a debug build asserts on it): the
    entry point reads the term outside the array of terms, on every path. *)
Theorem term_index_is_not_checked (pBoosterShell : BoosterShell F) (iTerm : Z)
    (pInnerBag : InnerBag F) :
  k_illegalTermIndex <> iTerm ->
  ~ 0 <= iTerm < Z.of_nat (length (m_apTerms (m_pBoosterCore pBoosterShell))) ->
  forall fuel : nat, BinSumsBoosting fuel pBoosterShell iTerm pInnerBag = None.
Proof.
  intros Hterm Hout fuel.
  assert (Hnone : deref (m_apTerms (m_pBoosterCore pBoosterShell)) iTerm = None).
  { unfold deref. destruct (Z.ltb_spec iTerm 0); [reflexivity |].
    apply lookup_ge_None_2. lia. }
  assert (Hint : forall f c b,
    BinSumsBoostingInternal f c b pBoosterShell iTerm pInnerBag = None)
    by (intros; unfold BinSumsBoostingInternal; rewrite Hnone; reflexivity).
  assert (Hnormal : forall d f c,
    BinSumsBoostingNormalTarget d f c pBoosterShell iTerm pInnerBag = None).
  { induction d as [| d IH]; intros f c; [reflexivity |].
    cbn [BinSumsBoostingNormalTarget]. rewrite !Hint, IH.
    repeat destruct (_ =? _)%Z; reflexivity. }
  assert (Hpack : forall d f c b,
    BinSumsBoostingSIMDPacking d f c b pBoosterShell iTerm pInnerBag = None).
  { induction d as [| d IH]; intros f c b; [reflexivity |].
    cbn [BinSumsBoostingSIMDPacking]. rewrite Hint, Hnone.
    repeat destruct (_ =? _)%Z; reflexivity. }
  assert (Hsimd : forall d f c,
    BinSumsBoostingSIMDTarget d f c pBoosterShell iTerm pInnerBag = None).
  { induction d as [| d IH]; intros f c; [reflexivity |].
    cbn [BinSumsBoostingSIMDTarget]. rewrite !Hpack, IH.
    repeat destruct (_ =? _)%Z; reflexivity. }
  unfold BinSumsBoosting.
  destruct (Z.eqb_spec k_illegalTermIndex iTerm); [contradiction |].
  rewrite Hsimd, Hpack, Hnormal, Hint.
  destruct k_bUseSIMD, (IsClassification _); reflexivity.
Qed.

End Overrun.

Lemma empty_training_set_never_returns_witness :
  call_samples empty_shell = 0
  /\ forall fuel : nat,
       BinSumsBoostingZeroDimensions fuel (-1) empty_shell empty_bag = None
       /\ BinSumsBoostingInternal fuel (-1) 0 empty_shell 0 empty_bag = None.
Proof.
  split; [reflexivity |].
  apply (empty_training_set_never_returns (-1) 0 empty_shell 0 empty_bag).
  reflexivity.
Defined.

(** The scenario of the specification has one term: 1 is not the index
    of a term. *)
Lemma term_index_is_not_checked_witness :
  k_illegalTermIndex <> 1
  /\ forall fuel : nat, BinSumsBoosting fuel scenario_shell 1 scenario_bag = None.
Proof.
  split; [vm_compute; discriminate |].
  apply (term_index_is_not_checked scenario_shell 1 scenario_bag).
  - vm_compute. discriminate.
  - vm_compute. intros [_ Hlt]. discriminate Hlt.
Defined.

(** *** Bin indices outside the buffer *)

Section Returns.
Context {F : Type} `{FloatOps F}.
Variable bClassification : bool.
Variable cScores : Z.
Variable aCountOccurrences : list Z.
Variable aWeights : list F.
Variable aGH : list F.
Variable cSamples : Z.

Hypothesis scores_pos : 1 <= cScores.
Hypothesis occurrences_length :
  Z.of_nat (length aCountOccurrences) = cSamples.
Hypothesis weights_length :
  Z.of_nat (length aWeights) = cSamples.
Hypothesis gradients_length :
  Z.of_nat (length aGH) = cPerScore bClassification * cScores * cSamples.

Local Abbreviation at_sample := (at_sample bClassification cScores).
Local Abbreviation after :=
  (after_samples bClassification cScores aCountOccurrences aWeights aGH).


Variables maskBits cBitsPerItemMax : Z.
Hypothesis samples_size_t : cSamples < 2 ^ size_t_bits.

Local Abbreviation decode := (decode_word maskBits cBitsPerItemMax).


Variable aInputData : list Z.


Variable cItemsPerBitPack : Z.
Hypothesis items_pos : 1 <= cItemsPerBitPack.

Local Abbreviation cPer := (cPerScore bClassification).
Local Abbreviation stream q r m :=
  (decode_stream maskBits cBitsPerItemMax aInputData q r m).



End Returns.

Section BinIndex.
Context {F : Type} `{FloatOps F} `{EbmInternal}.

Variable cCompilerClasses : Z.
Variable pBoosterShell : BoosterShell F.
Variable pInnerBag : InnerBag F.
Variable compilerBitPack : Z.
Variable iTerm : Z.

Local Abbreviation bCls := (call_classification cCompilerClasses).
Local Abbreviation cSco := (call_scores cCompilerClasses pBoosterShell).
Local Abbreviation cSam := (call_samples pBoosterShell).
Local Abbreviation aGrad := (call_gradients pBoosterShell).
Local Abbreviation cItm := (call_items pBoosterShell compilerBitPack iTerm).
Local Abbreviation cBit := (call_bits pBoosterShell compilerBitPack iTerm).
Local Abbreviation aWrd := (call_words pBoosterShell iTerm).
Local Abbreviation aIdx := (call_indices pBoosterShell compilerBitPack iTerm).
Local Abbreviation bins0 := (m_aBoostingFastBinsTemp pBoosterShell).


End BinIndex.


(** ** The two kernels on the same buffer *)

Section Totals.
Context {F : Type} `{ExactArith F} `{EbmInternal}.

Variable cCompilerClasses : Z.
Variable pBoosterShell : BoosterShell F.
Variable pInnerBag : InnerBag F.
Variable compilerBitPack : Z.
Variable iTerm : Z.

Local Abbreviation cSam := (call_samples pBoosterShell).
Local Abbreviation cSco := (call_scores cCompilerClasses pBoosterShell).
Local Abbreviation bCls := (call_classification cCompilerClasses).
Local Abbreviation okIdx :=
  (indexed_ok cCompilerClasses pBoosterShell pInnerBag compilerBitPack iTerm).
Local Abbreviation bins0 := (m_aBoostingFastBinsTemp pBoosterShell).
Local Abbreviation fuel0 := (Z.to_nat cSam + Z.to_nat cSco)%nat.
Local Abbreviation effect :=
  (bins_effect bCls cSco (m_aCountOccurrences pInnerBag) (m_aWeights pInnerBag)
     (call_gradients pBoosterShell)).

(** A regression leaves the sum of the hessians as it was. *)
Lemma sum_hessians_regression (s : Z) (idxs : list Z) :
  forall (i : Z) (bins : list (Bin F)),
    bCls = false ->
    0 <= s < cSco ->
    valid_indices (length bins) idxs ->
    pairs_ok cSco bins ->
    sum_hessians s (effect i idxs bins) = sum_hessians s bins.
Proof.
  induction idxs as [| idx idxs IH]; intros i bins Hreg Hs Hvalid Hok;
    cbn [bins_effect]; [reflexivity |].
  apply Forall_cons in Hvalid as [Hidx Hrest].
  destruct (lookup_lt_is_Some_2 bins (Z.to_nat idx)) as [b Hb]; [lia |].
  rewrite IH; auto.
  - rewrite <- (fadd_zero_r (sum_hessians s bins)). unfold sum_hessians.
    apply (fsum_alter _ _ _ bins _ b Hb).
    rewrite pair_at_bin_effect; [| exact Hs | exact (Forall_lookup_1 _ _ _ _ Hok Hb)].
    unfold pair_effect. rewrite Hreg. cbn [m_sumHessians].
    symmetry. apply fadd_zero_r.
  - rewrite length_alter. exact Hrest.
  - apply pairs_ok_alter. exact Hok.
Qed.

(** In an arithmetic whose addition is associative and commutative with
    unit 0, the indexed kernel spreads over the bins what the
    zero-dimension kernel puts into the first bin: run on the same buffer,
    whatever it holds, the two leave the same sum over the bins of the
    weights, of the gradient sums and of the hessian sums of every score, and
    the same sum of the counts modulo [2^64]. *)
Theorem bins_sum_to_the_zero_dimension_totals :
  okIdx ->
  exists fuelMin : nat, forall fuel : nat, (fuelMin <= fuel)%nat ->
    exists stIndexed stZero : Locals F,
      BinSumsBoostingInternal fuel cCompilerClasses compilerBitPack pBoosterShell
        iTerm pInnerBag
      = Some stIndexed
      /\ BinSumsBoostingZeroDimensions fuel cCompilerClasses pBoosterShell pInnerBag
         = Some stZero
      /\ sum_counts (aBins stIndexed) mod 2 ^ size_t_bits
         = sum_counts (aBins stZero) mod 2 ^ size_t_bits
      /\ sum_weights (aBins stIndexed) = sum_weights (aBins stZero)
      /\ forall s : Z, 0 <= s < cSco ->
           sum_gradients s (aBins stIndexed) = sum_gradients s (aBins stZero)
           /\ sum_hessians s (aBins stIndexed) = sum_hessians s (aBins stZero).
Proof.
  intros Hix. pose proof (ok_call Hix) as Hok.
  pose proof (ok_samples Hok) as Hn. pose proof (ok_bins Hok) as Hbins.
  pose proof (ok_indices Hix) as Hvalid.
  pose proof (length_call_indices _ _ _ _ _ Hix) as Hlen.
  assert (Hzeros : valid_indices (length bins0) (replicate (Z.to_nat cSam) 0))
    by (apply Forall_replicate; lia).
  assert (Hsame : length (call_indices pBoosterShell compilerBitPack iTerm)
                  = length (replicate (Z.to_nat cSam) 0))
    by (rewrite length_replicate; lia).
  assert (Hpairs : pairs_ok cSco bins0).
  { eapply Forall_impl; [apply (ok_pairs Hok) |]. simpl. intros b Hb. lia. }
  exists fuel0. intros fuel Hfuel.
  exists (indexed_result cCompilerClasses pBoosterShell pInnerBag compilerBitPack iTerm),
         (zero_result cCompilerClasses pBoosterShell pInnerBag).
  split; [apply BinSumsBoostingInternal_run; auto; lia |].
  split; [apply BinSumsBoostingZeroDimensions_run; auto; lia |].
  rewrite indexed_result_eq, zero_result_eq by assumption. cbn [aBins].
  split; [| split].
  - destruct (counts_congruent bCls cSco (m_aCountOccurrences pInnerBag)
                (m_aWeights pInnerBag) (call_gradients pBoosterShell) _ 0 bins0 Hvalid)
      as [k1 Hk1].
    destruct (counts_congruent bCls cSco (m_aCountOccurrences pInnerBag)
                (m_aWeights pInnerBag) (call_gradients pBoosterShell) _ 0 bins0 Hzeros)
      as [k2 Hk2].
    rewrite Hk1, Hk2, Hsame, !Z_mod_plus_full. reflexivity.
  - rewrite !sum_weights_effect by assumption. rewrite Hsame. reflexivity.
  - intros s Hs. split.
    + rewrite !sum_gradients_effect by assumption. rewrite Hsame. reflexivity.
    + assert (Hcls : bCls = true \/ bCls = false) by (destruct bCls; auto).
      destruct Hcls as [Hcls | Hcls].
      * rewrite !sum_hessians_effect by assumption.
        rewrite Hsame. reflexivity.
      * rewrite !sum_hessians_regression by assumption. reflexivity.
Qed.

End Totals.

(** The scenario of the specification: four bins, five samples. *)
Lemma bins_sum_to_the_zero_dimension_totals_witness :
  exists fuelMin : nat, forall fuel : nat, (fuelMin <= fuel)%nat ->
    exists stIndexed stZero : Locals Z,
      BinSumsBoostingInternal fuel (-1) 0 scenario_shell 0 scenario_bag = Some stIndexed
      /\ BinSumsBoostingZeroDimensions fuel (-1) scenario_shell scenario_bag
         = Some stZero
      /\ sum_counts (aBins stIndexed) mod 2 ^ size_t_bits
         = sum_counts (aBins stZero) mod 2 ^ size_t_bits
      /\ sum_weights (aBins stIndexed) = sum_weights (aBins stZero)
      /\ forall s : Z, 0 <= s < 1 ->
           sum_gradients s (aBins stIndexed) = sum_gradients s (aBins stZero)
           /\ sum_hessians s (aBins stIndexed) = sum_hessians s (aBins stZero).
Proof.
  assert (Hcontract : indexed_ok (-1) scenario_shell scenario_bag 0 0) by contract.
  exact (bins_sum_to_the_zero_dimension_totals (-1) scenario_shell scenario_bag 0 0
           Hcontract).
Defined.

(** * The result depends on the inputs only *)

Lemma deref_prefix {A : Type} (a a' : list A) (i : Z) (x : A) :
  a `prefix_of` a' -> deref a i = Some x -> deref a' i = Some x.
Proof.
  unfold deref. intros Hpre. destruct (i <? 0); [discriminate |].
  intros Hx. exact (prefix_lookup_Some _ _ _ _ Hx Hpre).
Qed.

Section MoreMemory.
Context {F : Type} `{FloatOps F}.
Variable bClassification : bool.
Variable cScores : Z.
Variables aCountOccurrences aCountOccurrences' : list Z.
Variables aWeights aWeights' aGH aGH' : list F.
Variables aInputData aInputData' : list Z.

Hypothesis more_occurrences : aCountOccurrences `prefix_of` aCountOccurrences'.
Hypothesis more_weights : aWeights `prefix_of` aWeights'.
Hypothesis more_gradients : aGH `prefix_of` aGH'.
Hypothesis more_words : aInputData `prefix_of` aInputData'.

(** A run that finds what it reads inside the arrays finds the same in
    arrays that go on after them. *)
Lemma score_body_more weight iScore pGH aPairs rd r :
  score_body bClassification aGH weight iScore pGH aPairs rd = Some r ->
  score_body bClassification aGH' weight iScore pGH aPairs rd = Some r.
Proof.
  unfold score_body.
  destruct (deref aGH pGH) as [gradient |] eqn:Hg; [| discriminate].
  rewrite (deref_prefix _ _ _ _ more_gradients Hg).
  destruct (deref aPairs iScore); [| discriminate].
  destruct bClassification; [| auto].
  destruct (deref aGH (pGH + 1)) as [hessian |] eqn:Hh; [| discriminate].
  rewrite (deref_prefix _ _ _ _ more_gradients Hh). auto.
Qed.

Lemma score_loop_more (fuel : nat) :
  forall weight iScore pGH aPairs rd r,
    score_loop fuel bClassification cScores aGH weight iScore pGH aPairs rd = Some r ->
    score_loop fuel bClassification cScores aGH' weight iScore pGH aPairs rd = Some r.
Proof.
  induction fuel as [| fuel IH]; intros w iS pGH aP rd r Hrun; [discriminate |].
  cbn [score_loop] in *.
  destruct (score_body bClassification aGH w iS pGH aP rd) as [[aP1 rd1] |] eqn:Hbody;
    [| discriminate].
  rewrite (score_body_more _ _ _ _ _ _ Hbody).
  destruct (iS + 1 <? cScores); [apply IH |]; exact Hrun.
Qed.

Lemma sample_body_more (fuel : nat) iTensorBin st r :
  sample_body fuel bClassification cScores aCountOccurrences aWeights aGH iTensorBin st
  = Some r ->
  sample_body fuel bClassification cScores aCountOccurrences' aWeights' aGH' iTensorBin st
  = Some r.
Proof.
  unfold sample_body.
  destruct (deref aCountOccurrences (pCountOccurrences st)) as [c |] eqn:Hc;
    [| discriminate].
  rewrite (deref_prefix _ _ _ _ more_occurrences Hc).
  destruct (deref aWeights (pWeight st)) as [w |] eqn:Hw; [| discriminate].
  rewrite (deref_prefix _ _ _ _ more_weights Hw).
  destruct (deref (aBins st) iTensorBin); [| discriminate].
  destruct (score_loop fuel _ _ aGH _ _ _ _ _) as [[[aPairs pGH] rd2] |] eqn:Hloop;
    [| discriminate].
  rewrite (score_loop_more _ _ _ _ _ _ _ Hloop). auto.
Qed.

Lemma zero_loop_more (fuel : nat) :
  forall (fuelIn : nat) pEnd st r,
    zero_loop fuel fuelIn bClassification cScores aCountOccurrences aWeights aGH pEnd st
    = Some r ->
    zero_loop fuel fuelIn bClassification cScores aCountOccurrences' aWeights' aGH' pEnd st
    = Some r.
Proof.
  induction fuel as [| fuel IH]; intros fi pEnd st r Hrun; [discriminate |].
  cbn [zero_loop] in *.
  destruct (sample_body fi _ _ aCountOccurrences _ _ 0 st) as [st1 |] eqn:Hbody;
    [| discriminate].
  rewrite (sample_body_more _ _ _ _ Hbody).
  destruct (negb (pEnd =? pGradientAndHessian st1)); [apply IH |]; exact Hrun.
Qed.

Lemma item_loop_more (fuel : nat) :
  forall (fuelIn : nat) maskBits cBitsPerItemMax cItemsRemaining w st r,
    item_loop fuel fuelIn bClassification cScores aCountOccurrences aWeights aGH
      maskBits cBitsPerItemMax cItemsRemaining w st = Some r ->
    item_loop fuel fuelIn bClassification cScores aCountOccurrences' aWeights' aGH'
      maskBits cBitsPerItemMax cItemsRemaining w st = Some r.
Proof.
  induction fuel as [| fuel IH]; intros fi mask bits c w st r Hrun; [discriminate |].
  cbn [item_loop] in *.
  destruct (sample_body fi _ _ aCountOccurrences _ _ (Z.land mask w) st) as [st1 |]
    eqn:Hbody; [| discriminate].
  rewrite (sample_body_more _ _ _ _ Hbody).
  destruct (negb (0 =? size_t_wrap (c - 1))); [apply IH |]; exact Hrun.
Qed.

Lemma word_pass_more (fuel : nat) maskBits cBitsPerItemMax cItemsRemaining st r :
  word_pass fuel bClassification cScores aCountOccurrences aWeights aGH aInputData
    maskBits cBitsPerItemMax cItemsRemaining st = Some r ->
  word_pass fuel bClassification cScores aCountOccurrences' aWeights' aGH' aInputData'
    maskBits cBitsPerItemMax cItemsRemaining st = Some r.
Proof.
  unfold word_pass.
  destruct (deref aInputData (pInputData st)) as [w |] eqn:Hw; [| discriminate].
  rewrite (deref_prefix _ _ _ _ more_words Hw).
  apply item_loop_more.
Qed.

Lemma pack_loop_more (fuel : nat) :
  forall (fuelIn : nat) maskBits cBitsPerItemMax cItemsPerBitPack pTrueEnd pExit
         cItemsRemaining st r,
    pack_loop fuel fuelIn bClassification cScores aCountOccurrences aWeights aGH
      aInputData maskBits cBitsPerItemMax cItemsPerBitPack pTrueEnd pExit
      cItemsRemaining st = Some r ->
    pack_loop fuel fuelIn bClassification cScores aCountOccurrences' aWeights' aGH'
      aInputData' maskBits cBitsPerItemMax cItemsPerBitPack pTrueEnd pExit
      cItemsRemaining st = Some r.
Proof.
  induction fuel as [| fuel IH]; intros fi mask bits q pEnd pExit c st r Hrun;
    [discriminate |].
  cbn [pack_loop] in *.
  destruct (word_pass fi _ _ aCountOccurrences _ _ _ mask bits c st) as [st1 |]
    eqn:Hword; [| discriminate].
  rewrite (word_pass_more _ _ _ _ _ _ Hword).
  destruct (negb (pExit =? pGradientAndHessian st1)); [apply IH; exact Hrun |].
  destruct (negb (pEnd =? pGradientAndHessian st1)); [apply IH |]; exact Hrun.
Qed.

End MoreMemory.

Section SameInputs.
Context {F : Type} `{FloatOps F} `{EbmInternal}.

Variable iTerm : Z.
Variable pBoosterShell : BoosterShell F.
Variable pInnerBag : InnerBag F.

Lemma entry_same_inputs (shell' : BoosterShell F) (bag' : InnerBag F) :
  same_inputs iTerm pBoosterShell pInnerBag shell' bag' ->
  entry shell' = entry pBoosterShell.
Proof. intros Hsame. unfold entry. rewrite (same_bins _ _ _ _ _ Hsame). reflexivity. Qed.

(** A call that has the inputs of a call that returns, returns the same. *)
Lemma BinSumsBoostingZeroDimensions_same_inputs (fuel : nat) (cCompilerClasses : Z)
    (shell' : BoosterShell F) (bag' : InnerBag F) (st : Locals F) :
  same_inputs iTerm pBoosterShell pInnerBag shell' bag' ->
  BinSumsBoostingZeroDimensions fuel cCompilerClasses pBoosterShell pInnerBag = Some st ->
  BinSumsBoostingZeroDimensions fuel cCompilerClasses shell' bag' = Some st.
Proof.
  intros Hsame. unfold BinSumsBoostingZeroDimensions.
  rewrite (same_classes _ _ _ _ _ Hsame), (same_samples _ _ _ _ _ Hsame),
    (entry_same_inputs _ _ Hsame).
  apply zero_loop_more;
    [exact (same_occurrences _ _ _ _ _ Hsame) | exact (same_weights _ _ _ _ _ Hsame)
     | exact (same_gradients _ _ _ _ _ Hsame)].
Qed.

Lemma BinSumsBoostingInternal_same_inputs (fuel : nat)
    (cCompilerClasses compilerBitPack : Z)
    (shell' : BoosterShell F) (bag' : InnerBag F) (st : Locals F) :
  same_inputs iTerm pBoosterShell pInnerBag shell' bag' ->
  BinSumsBoostingInternal fuel cCompilerClasses compilerBitPack pBoosterShell iTerm
    pInnerBag = Some st ->
  BinSumsBoostingInternal fuel cCompilerClasses compilerBitPack shell' iTerm bag'
  = Some st.
Proof.
  intros Hsame. unfold BinSumsBoostingInternal.
  destruct (deref (m_apTerms (m_pBoosterCore pBoosterShell)) iTerm) as [pTerm |]
    eqn:Hterm; [| discriminate].
  destruct (same_pack _ _ _ _ _ Hsame pTerm Hterm) as (pTerm' & Hterm' & Hpack).
  rewrite Hterm', Hpack.
  destruct (deref (m_aaInputData (m_trainingSet (m_pBoosterCore pBoosterShell))) iTerm)
    as [aInputData |] eqn:Hinput; [| discriminate].
  destruct (same_words _ _ _ _ _ Hsame aInputData Hinput)
    as (aInputData' & Hinput' & Hwords).
  rewrite Hinput'.
  rewrite (same_classes _ _ _ _ _ Hsame), (same_samples _ _ _ _ _ Hsame),
    (entry_same_inputs _ _ Hsame).
  destruct (_ <=? _);
    (apply pack_loop_more;
     [exact (same_occurrences _ _ _ _ _ Hsame) | exact (same_weights _ _ _ _ _ Hsame)
      | exact (same_gradients _ _ _ _ _ Hsame) | exact Hwords]).
Qed.

Lemma BinSumsBoostingZeroDimensionsTarget_same_inputs (fuel : nat)
    (shell' : BoosterShell F) (bag' : InnerBag F) (st : Locals F) (depth : nat) :
  forall cPossibleClasses : Z,
    same_inputs iTerm pBoosterShell pInnerBag shell' bag' ->
    BinSumsBoostingZeroDimensionsTarget depth fuel cPossibleClasses pBoosterShell
      pInnerBag = Some st ->
    BinSumsBoostingZeroDimensionsTarget depth fuel cPossibleClasses shell' bag'
    = Some st.
Proof.
  induction depth as [| depth IH]; intros c Hsame; [discriminate |].
  cbn [BinSumsBoostingZeroDimensionsTarget]. rewrite (same_classes _ _ _ _ _ Hsame).
  repeat destruct (_ =? _)%Z;
    [apply BinSumsBoostingZeroDimensions_same_inputs; exact Hsame ..
    | apply IH; exact Hsame].
Qed.

Lemma BinSumsBoostingNormalTarget_same_inputs (fuel : nat)
    (shell' : BoosterShell F) (bag' : InnerBag F) (st : Locals F) (depth : nat) :
  forall cPossibleClasses : Z,
    same_inputs iTerm pBoosterShell pInnerBag shell' bag' ->
    BinSumsBoostingNormalTarget depth fuel cPossibleClasses pBoosterShell iTerm
      pInnerBag = Some st ->
    BinSumsBoostingNormalTarget depth fuel cPossibleClasses shell' iTerm bag' = Some st.
Proof.
  induction depth as [| depth IH]; intros c Hsame; [discriminate |].
  cbn [BinSumsBoostingNormalTarget]. rewrite (same_classes _ _ _ _ _ Hsame).
  repeat destruct (_ =? _)%Z;
    [apply BinSumsBoostingInternal_same_inputs; exact Hsame ..
    | apply IH; exact Hsame].
Qed.

Lemma BinSumsBoostingSIMDPacking_same_inputs (fuel : nat) (cCompilerClasses : Z)
    (shell' : BoosterShell F) (bag' : InnerBag F) (st : Locals F) (depth : nat) :
  forall compilerBitPack : Z,
    same_inputs iTerm pBoosterShell pInnerBag shell' bag' ->
    BinSumsBoostingSIMDPacking depth fuel cCompilerClasses compilerBitPack
      pBoosterShell iTerm pInnerBag = Some st ->
    BinSumsBoostingSIMDPacking depth fuel cCompilerClasses compilerBitPack shell'
      iTerm bag' = Some st.
Proof.
  induction depth as [| depth IH]; intros b Hsame; [discriminate |].
  cbn [BinSumsBoostingSIMDPacking].
  destruct (b =? k_cItemsPerBitPackDynamic);
    [apply BinSumsBoostingInternal_same_inputs; exact Hsame |].
  destruct (deref (m_apTerms (m_pBoosterCore pBoosterShell)) iTerm) as [pTerm |]
    eqn:Hterm; [| discriminate].
  destruct (same_pack _ _ _ _ _ Hsame pTerm Hterm) as (pTerm' & Hterm' & Hpack).
  rewrite Hterm'. cbn beta iota. rewrite Hpack.
  destruct (b =? m_cBitPack pTerm);
    [apply BinSumsBoostingInternal_same_inputs; exact Hsame | apply IH; exact Hsame].
Qed.

Lemma BinSumsBoostingSIMDTarget_same_inputs (fuel : nat)
    (shell' : BoosterShell F) (bag' : InnerBag F) (st : Locals F) (depth : nat) :
  forall cPossibleClasses : Z,
    same_inputs iTerm pBoosterShell pInnerBag shell' bag' ->
    BinSumsBoostingSIMDTarget depth fuel cPossibleClasses pBoosterShell iTerm
      pInnerBag = Some st ->
    BinSumsBoostingSIMDTarget depth fuel cPossibleClasses shell' iTerm bag' = Some st.
Proof.
  induction depth as [| depth IH]; intros c Hsame; [discriminate |].
  cbn [BinSumsBoostingSIMDTarget]. rewrite (same_classes _ _ _ _ _ Hsame).
  repeat destruct (_ =? _)%Z;
    [apply BinSumsBoostingSIMDPacking_same_inputs; exact Hsame ..
    | apply IH; exact Hsame].
Qed.

Lemma BinSumsBoosting_same_inputs (fuel : nat)
    (shell' : BoosterShell F) (bag' : InnerBag F) (st : Locals F) :
  same_inputs iTerm pBoosterShell pInnerBag shell' bag' ->
  BinSumsBoosting fuel pBoosterShell iTerm pInnerBag = Some st ->
  BinSumsBoosting fuel shell' iTerm bag' = Some st.
Proof.
  intros Hsame. unfold BinSumsBoosting. rewrite (same_classes _ _ _ _ _ Hsame).
  destruct (k_illegalTermIndex =? iTerm), k_bUseSIMD,
    (IsClassification (m_cClasses (m_pBoosterCore pBoosterShell)));
    first [ apply BinSumsBoostingZeroDimensionsTarget_same_inputs
          | apply BinSumsBoostingNormalTarget_same_inputs
          | apply BinSumsBoostingSIMDTarget_same_inputs
          | apply BinSumsBoostingSIMDPacking_same_inputs
          | apply BinSumsBoostingZeroDimensions_same_inputs
          | apply BinSumsBoostingInternal_same_inputs ]; exact Hsame.
Qed.

End SameInputs.

Section Determinism.
Context {F : Type} `{FloatOps F} `{EbmInternal}.

Variable cCompilerClasses : Z.
Variable compilerBitPack : Z.
Variable iTerm : Z.
Variable pBoosterShell : BoosterShell F.
Variable pInnerBag : InnerBag F.
Variables shell1 shell2 : BoosterShell F.
Variables bag1 bag2 : InnerBag F.

Local Abbreviation cSam := (call_samples pBoosterShell).
Local Abbreviation cRuntimeClasses := (m_cClasses (m_pBoosterCore pBoosterShell)).
Local Abbreviation cSelected := (selected_classes cRuntimeClasses).

(** C9. The result of a call is determined by its inputs: the
    training-set arrays, the arrays of the inner bag, the pack width and
    the packed words of the term, the class count and the contents of the
    bin buffer.  Two calls that are given the inputs of a call on
    [pBoosterShell] and [pInnerBag] may differ in everything else: what
    follows the arrays in memory, the other terms and their packed words,
    the number of real dimensions of the term, the recorded total weight of
    the bag, and the fuel.  Whenever the call on the shared inputs returns,
    both calls return, with its locals and so with the same bin buffer;
    this holds of the entry point and of both kernels at any instantiation.
    Within the contract the call on the shared inputs does return, so both
    calls return the accumulation over the shared inputs; for the entry
    point the header's enumeration of pack widths is assumed to reach the
    dynamic width in [n] steps. *)
Theorem calls_on_the_same_inputs_agree (n : nat) :
  same_inputs iTerm pBoosterShell pInnerBag shell1 bag1 ->
  same_inputs iTerm pBoosterShell pInnerBag shell2 bag2 ->
  (forall (fuel fuel1 fuel2 : nat) (st : Locals F),
     (fuel <= fuel1)%nat -> (fuel <= fuel2)%nat ->
     (BinSumsBoosting fuel pBoosterShell iTerm pInnerBag = Some st ->
      BinSumsBoosting fuel1 shell1 iTerm bag1 = Some st
      /\ BinSumsBoosting fuel2 shell2 iTerm bag2 = Some st)
     /\ (BinSumsBoostingZeroDimensions fuel cCompilerClasses pBoosterShell pInnerBag
         = Some st ->
         BinSumsBoostingZeroDimensions fuel1 cCompilerClasses shell1 bag1 = Some st
         /\ BinSumsBoostingZeroDimensions fuel2 cCompilerClasses shell2 bag2 = Some st)
     /\ (BinSumsBoostingInternal fuel cCompilerClasses compilerBitPack pBoosterShell
           iTerm pInnerBag = Some st ->
         BinSumsBoostingInternal fuel1 cCompilerClasses compilerBitPack shell1 iTerm
           bag1 = Some st
         /\ BinSumsBoostingInternal fuel2 cCompilerClasses compilerBitPack shell2
              iTerm bag2 = Some st))
  /\
  (call_ok cCompilerClasses pBoosterShell pInnerBag ->
   exists fuelMin : nat, forall fuel1 fuel2 : nat,
     (fuelMin <= fuel1)%nat -> (fuelMin <= fuel2)%nat ->
     exists st : Locals F,
       BinSumsBoostingZeroDimensions fuel1 cCompilerClasses shell1 bag1 = Some st
       /\ BinSumsBoostingZeroDimensions fuel2 cCompilerClasses shell2 bag2 = Some st
       /\ st = zero_result cCompilerClasses pBoosterShell pInnerBag)
  /\
  (indexed_ok cCompilerClasses pBoosterShell pInnerBag compilerBitPack iTerm ->
   exists fuelMin : nat, forall fuel1 fuel2 : nat,
     (fuelMin <= fuel1)%nat -> (fuelMin <= fuel2)%nat ->
     exists st : Locals F,
       BinSumsBoostingInternal fuel1 cCompilerClasses compilerBitPack shell1 iTerm bag1
       = Some st
       /\ BinSumsBoostingInternal fuel2 cCompilerClasses compilerBitPack shell2 iTerm
            bag2
          = Some st
       /\ st = indexed_result cCompilerClasses pBoosterShell pInnerBag compilerBitPack
                 iTerm)
  /\
  (1 <= k_cCompilerClassesMax ->
   next_pack n k_cItemsPerBitPackMax = k_cItemsPerBitPackDynamic ->
   (k_illegalTermIndex = iTerm ->
    call_ok cSelected pBoosterShell pInnerBag ->
    exists fuelMin : nat, forall fuel1 fuel2 : nat,
      (fuelMin <= fuel1)%nat -> (fuelMin <= fuel2)%nat ->
      exists st : Locals F,
        BinSumsBoosting fuel1 shell1 iTerm bag1 = Some st
        /\ BinSumsBoosting fuel2 shell2 iTerm bag2 = Some st
        /\ st = zero_result cSelected pBoosterShell pInnerBag)
   /\
   (k_illegalTermIndex <> iTerm ->
    indexed_ok cSelected pBoosterShell pInnerBag k_cItemsPerBitPackDynamic iTerm ->
    exists fuelMin : nat, forall fuel1 fuel2 : nat,
      (fuelMin <= fuel1)%nat -> (fuelMin <= fuel2)%nat ->
      exists st : Locals F,
        BinSumsBoosting fuel1 shell1 iTerm bag1 = Some st
        /\ BinSumsBoosting fuel2 shell2 iTerm bag2 = Some st
        /\ st = indexed_result cSelected pBoosterShell pInnerBag
                  k_cItemsPerBitPackDynamic iTerm)).
Proof.
  intros Hsame1 Hsame2.
  assert (Hzero : forall (c : Z) (fuel : nat),
    call_ok c pBoosterShell pInnerBag ->
    (Z.to_nat cSam + Z.to_nat (call_scores c pBoosterShell) <= fuel)%nat ->
    BinSumsBoostingZeroDimensions fuel c shell1 bag1
    = Some (zero_result c pBoosterShell pInnerBag)
    /\ BinSumsBoostingZeroDimensions fuel c shell2 bag2
       = Some (zero_result c pBoosterShell pInnerBag)).
  { intros c fuel Hok Hfuel.
    assert (Hrun : BinSumsBoostingZeroDimensions fuel c pBoosterShell pInnerBag
                   = Some (zero_result c pBoosterShell pInnerBag))
      by (apply BinSumsBoostingZeroDimensions_run; auto; lia).
    split.
    - exact (BinSumsBoostingZeroDimensions_same_inputs iTerm _ _ fuel c _ _ _
               Hsame1 Hrun).
    - exact (BinSumsBoostingZeroDimensions_same_inputs iTerm _ _ fuel c _ _ _
               Hsame2 Hrun). }
  assert (Hindexed : forall (c b : Z) (fuel : nat),
    indexed_ok c pBoosterShell pInnerBag b iTerm ->
    (Z.to_nat cSam + Z.to_nat (call_scores c pBoosterShell) <= fuel)%nat ->
    BinSumsBoostingInternal fuel c b shell1 iTerm bag1
    = Some (indexed_result c pBoosterShell pInnerBag b iTerm)
    /\ BinSumsBoostingInternal fuel c b shell2 iTerm bag2
       = Some (indexed_result c pBoosterShell pInnerBag b iTerm)).
  { intros c b fuel Hix Hfuel.
    assert (Hrun : BinSumsBoostingInternal fuel c b pBoosterShell iTerm pInnerBag
                   = Some (indexed_result c pBoosterShell pInnerBag b iTerm))
      by (apply BinSumsBoostingInternal_run; auto; lia).
    split.
    - exact (BinSumsBoostingInternal_same_inputs iTerm _ _ fuel c b _ _ _ Hsame1 Hrun).
    - exact (BinSumsBoostingInternal_same_inputs iTerm _ _ fuel c b _ _ _ Hsame2 Hrun). }
  split; [| split; [| split]].
  - intros fuel fuel1 fuel2 st Hfuel1 Hfuel2. split; [| split]; intros Hrun.
    + split.
      * apply (BinSumsBoosting_same_inputs iTerm pBoosterShell pInnerBag);
          [exact Hsame1 | exact (BinSumsBoosting_fuel _ _ _ _ _ _ Hfuel1 Hrun)].
      * apply (BinSumsBoosting_same_inputs iTerm pBoosterShell pInnerBag);
          [exact Hsame2 | exact (BinSumsBoosting_fuel _ _ _ _ _ _ Hfuel2 Hrun)].
    + split.
      * apply (BinSumsBoostingZeroDimensions_same_inputs iTerm pBoosterShell pInnerBag);
          [exact Hsame1
          | exact (BinSumsBoostingZeroDimensions_fuel _ _ _ _ _ _ Hfuel1 Hrun)].
      * apply (BinSumsBoostingZeroDimensions_same_inputs iTerm pBoosterShell pInnerBag);
          [exact Hsame2
          | exact (BinSumsBoostingZeroDimensions_fuel _ _ _ _ _ _ Hfuel2 Hrun)].
    + split.
      * apply (BinSumsBoostingInternal_same_inputs iTerm pBoosterShell pInnerBag);
          [exact Hsame1
          | exact (BinSumsBoostingInternal_fuel _ _ _ _ _ _ _ _ Hfuel1 Hrun)].
      * apply (BinSumsBoostingInternal_same_inputs iTerm pBoosterShell pInnerBag);
          [exact Hsame2
          | exact (BinSumsBoostingInternal_fuel _ _ _ _ _ _ _ _ Hfuel2 Hrun)].
  - intros Hok. eexists. intros fuel1 fuel2 Hfuel1 Hfuel2.
    exists (zero_result cCompilerClasses pBoosterShell pInnerBag).
    split; [exact (proj1 (Hzero _ fuel1 Hok Hfuel1)) |].
    split; [exact (proj2 (Hzero _ fuel2 Hok Hfuel2)) | reflexivity].
  - intros Hix. eexists. intros fuel1 fuel2 Hfuel1 Hfuel2.
    exists (indexed_result cCompilerClasses pBoosterShell pInnerBag compilerBitPack iTerm).
    split; [exact (proj1 (Hindexed _ _ fuel1 Hix Hfuel1)) |].
    split; [exact (proj2 (Hindexed _ _ fuel2 Hix Hfuel2)) | reflexivity].
  - intros Hmax Hreach. split.
    + intros Hterm Hok.
      exists (Z.to_nat cSam + Z.to_nat (call_scores cSelected pBoosterShell)
              + Z.to_nat k_cCompilerClassesMax)%nat.
      intros fuel1 fuel2 Hfuel1 Hfuel2.
      exists (zero_result cSelected pBoosterShell pInnerBag).
      rewrite !BinSumsBoosting_zero by (auto; lia).
      rewrite (same_classes _ _ _ _ _ Hsame1), (same_classes _ _ _ _ _ Hsame2).
      split; [apply Hzero; [exact Hok | lia] |].
      split; [apply Hzero; [exact Hok | lia] | reflexivity].
    + intros Hterm Hix.
      exists (Z.to_nat cSam + Z.to_nat (call_scores cSelected pBoosterShell)
              + Z.to_nat k_cCompilerClassesMax + S n)%nat.
      intros fuel1 fuel2 Hfuel1 Hfuel2.
      exists (indexed_result cSelected pBoosterShell pInnerBag
                k_cItemsPerBitPackDynamic iTerm).
      rewrite (BinSumsBoosting_indexed shell1 bag1 iTerm fuel1 n) by (auto; lia).
      rewrite (BinSumsBoosting_indexed shell2 bag2 iTerm fuel2 n) by (auto; lia).
      rewrite (same_classes _ _ _ _ _ Hsame1), (same_classes _ _ _ _ _ Hsame2).
      split; [apply Hindexed; [exact Hix | lia] |].
      split; [apply Hindexed; [exact Hix | lia] | reflexivity].
Qed.

End Determinism.

Lemma scenario_same_inputs :
  same_inputs 0 scenario_shell scenario_bag scenario_shell scenario_bag_other_total
  /\ same_inputs 0 scenario_shell scenario_bag scenario_shell_elsewhere
       scenario_bag_elsewhere.
Proof.
  split; constructor; try reflexivity.
  - intros pTerm Hterm. exists pTerm. split; [exact Hterm | reflexivity].
  - intros w Hw. exists w. split; [exact Hw | reflexivity].
  - exists [99]. reflexivity.
  - exists [8]. reflexivity.
  - exists [8]. reflexivity.
  - intros pTerm Hterm. eexists. split; [reflexivity |].
    vm_compute in Hterm. injection Hterm as <-. reflexivity.
  - intros w Hw. eexists. split; [reflexivity |].
    vm_compute in Hw. injection Hw as <-. exists [7]. reflexivity.
Qed.

(** The scenario of the specification, called with another recorded total
    weight and called with a second term, longer arrays and another number
    of real dimensions: the same bins, those of the scenario. *)
Lemma calls_on_the_same_inputs_agree_witness :
  exists fuelMin : nat, forall fuel1 fuel2 : nat,
    (fuelMin <= fuel1)%nat -> (fuelMin <= fuel2)%nat ->
    exists st : Locals Z,
      BinSumsBoosting fuel1 scenario_shell 0 scenario_bag_other_total = Some st
      /\ BinSumsBoosting fuel2 scenario_shell_elsewhere 0 scenario_bag_elsewhere
         = Some st
      /\ st = indexed_result (-1) scenario_shell scenario_bag 0 0.
Proof.
  destruct scenario_same_inputs as [Hsame1 Hsame2].
  destruct (calls_on_the_same_inputs_agree (-1) 0 0 scenario_shell scenario_bag
              scenario_shell scenario_shell_elsewhere scenario_bag_other_total
              scenario_bag_elsewhere 15 Hsame1 Hsame2)
    as (_ & _ & _ & Hentry).
  destruct Hentry as [_ Hindexed]; [vm_compute; discriminate | reflexivity |].
  apply Hindexed; [vm_compute; discriminate | contract].
Defined.
